(** * Sea Turtle Quest: the session state and reward engine.

    A shallow embedding of the logic core of the two variants of the game:

    - [Simple] follows [src/src/App.tsx] (one task per zone visit, no pause);
    - [Rich]   follows [src/unnamed/part_000] (three-question zones, pause
      button, temple gauntlet).

    JavaScript numbers that hold counters and millisecond timestamps are [Z];
    the two values read from [Math.random()] are rationals in [0, 1) passed in
    by the caller; [Date.now()] is an explicit argument [now], one value for
    all the reads made while one handler runs.  React state is passed
    explicitly: a handler takes the [GameState] its closure captured and
    returns the state after the queued functional updates have run, in the
    order in which the handler queued them.  Display-only fields (names of
    cards, emoji, question texts, log descriptions) and the fields of
    [GameState] that no modelled function reads are left out. *)

From Stdlib Require Import ZArith QArith Qround Lqa Lia List Ascii.
From stdpp Require Import gmap strings list fin_maps sorting pretty.

Close Scope Q_scope.
Open Scope string_scope.
Open Scope Z_scope.

(** ** JavaScript primitives used by the game code *)
Module JS.

(** [Math.floor] of a rational, as an integer. *)
Definition Math_floor (q : Q) : Z := Qfloor q.

(** [Math.max(0, x)] on integers. *)
Definition Math_max0 (x : Z) : Z := Z.max 0 x.

(** Truthiness of a [string | null] value: [null] and the empty string are
    falsy. *)
Definition truthy_str (s : option string) : bool :=
  match s with
  | None => false
  | Some s => negb (String.eqb s "")
  end.

(** Truthiness of a [number | null] value: [null] and [0] are falsy. *)
Definition truthy_num (n : option Z) : bool :=
  match n with
  | None => false
  | Some n => negb (n =? 0)
  end.

(** [x || 0] for a [number | null] value. *)
Definition or0 (n : option Z) : Z :=
  if truthy_num n then default 0 n else 0.

(** [arr.includes(x)] on an array of strings. *)
Definition includes_str (l : list string) (x : string) : bool :=
  existsb (String.eqb x) l.

(** [arr.includes(x)] on an array of numbers. *)
Definition includes_num (l : list Z) (x : Z) : bool :=
  existsb (Z.eqb x) l.

(** [arr[Math.floor(r * arr.length)]] for [r] read from [Math.random()]:
    [undefined] (here [None]) outside the array. *)
Definition random_pick {A} (r : Q) (arr : list A) : option A :=
  let i := Math_floor (r * inject_Z (Z.of_nat (length arr)))%Q in
  if i <? 0 then None else arr !! Z.to_nat i.

End JS.

(** ** The card catalogue and the rarity walk

    [CARD_REWARDS] and the first half of [handleCardDraw] are the same text
    in both files (App.tsx 508-540 and 1832-1848; part_000 607-639 and
    2104-2120). *)
Module Cards.

Record CardTemplate := mkCard {
  card_id : string;
  card_type : string;
  card_amount : Z;
  card_rarity : string
}.

Definition CARD_REWARDS : list CardTemplate := [
  mkCard "golden_shell" "coins" 3 "common";
  mkCard "pearl_shell" "shells" 2 "common";
  mkCard "small_coin" "coins" 1 "common";
  mkCard "basic_shell" "shells" 1 "common";
  mkCard "dolphin_help" "action" 1 "common";
  mkCard "wave_splash" "skip" 0 "common";
  mkCard "small_blessing" "bonus" 1 "common";
  mkCard "starfish_gift" "coins" 2 "common";
  mkCard "magic_conch" "shells" 3 "rare";
  mkCard "turtle_blessing" "bonus" 2 "rare";
  mkCard "crystal_coin" "coins" 4 "rare";
  mkCard "whale_song" "action" 2 "rare";
  mkCard "seahorse_luck" "bonus" 3 "rare";
  mkCard "jellyfish_dance" "shells" 4 "rare";
  mkCard "pirate_treasure" "coins" 6 "epic";
  mkCard "mermaid_tear" "shells" 5 "epic";
  mkCard "kraken_power" "bonus" 4 "epic";
  mkCard "coral_crown" "coins" 7 "epic";
  mkCard "ocean_heart" "bonus" 5 "epic";
  mkCard "poseidon_trident" "bonus" 8 "legendary";
  mkCard "legendary_shell" "shells" 10 "legendary";
  mkCard "atlantis_coin" "coins" 12 "legendary";
  mkCard "leviathan_scale" "action" 5 "legendary"
].

(** [Object.entries(rarityWeights)]: string keys come out in insertion
    order. *)
Definition rarityWeights : list (string * Z) :=
  [("common", 50); ("rare", 30); ("epic", 15); ("legendary", 5)].

(** [Object.values(rarityWeights).reduce((sum, weight) => sum + weight, 0)] *)
Definition totalWeight : Z :=
  fold_left (fun sum weight => sum + weight) (map snd rarityWeights) 0.

(** The [for ... of] loop with its [break]: [currentWeight] is the running
    sum before this entry, [selectedRarity] the value the variable holds if
    no entry is taken. *)
Fixpoint walk (random : Q) (entries : list (string * Z))
    (currentWeight : Z) (selectedRarity : string) : string :=
  match entries with
  | [] => selectedRarity
  | (rarity, weight) :: rest =>
      let currentWeight := currentWeight + weight in
      if Qle_bool random (inject_Z currentWeight) then rarity
      else walk random rest currentWeight selectedRarity
  end.

(** [random = Math.random() * totalWeight]; the walk starts from
    [currentWeight = 0] and [selectedRarity = 'common']. *)
Definition selectRarity (random : Q) : string :=
  walk random rarityWeights 0 "common".

Definition drawRandom (u : Q) : Q := (u * inject_Z totalWeight)%Q.

(** [CARD_REWARDS.filter(card => card.rarity === selectedRarity)] *)
Definition cardsOfRarity (selectedRarity : string) : list CardTemplate :=
  filter (fun card => card_rarity card = selectedRarity) CARD_REWARDS.

(** The drawn card: [u1] selects the rarity, [u2] the card within it. *)
Definition randomCard (u1 u2 : Q) : option CardTemplate :=
  JS.random_pick u2 (cardsOfRarity (selectRarity (drawRandom u1))).

End Cards.

(** ** Records shared by both files ([GameLog], [CollectedCard],
    [GameSettings]: the interfaces are the same text in both) *)
Module Shared.

Record GameLog := mkLog {
  log_type : string;
  log_zone : string;
  log_result : string;
  log_reward : Z;
  log_timestamp : Z
}.

Record CollectedCard := mkCollected {
  cc_id : string;
  cc_rarity : string;
  cc_type : string;
  cc_amount : Z;
  cc_timestamp : Z
}.

Record GameSettings := mkSettings {
  maxActionChances : Z;
  templeRequiredCoins : Z;
  templeRequiredShells : Z;
  timeLimit : Z
}.

(** An answer to a question of the bank: only the fields the reward logic
    reads. *)
Inductive Difficulty := easy | medium | hard.

Record Question := mkQuestion {
  answer : Z;
  difficulty : Difficulty
}.

End Shared.

(** ** The simpler variant: [src/src/App.tsx] *)
Module Simple.
Export Shared.

Record Player := mkPlayer {
  id : string;
  name : string;
  color : string;
  coins : Z;
  shells : Z;
  completedZones : list string;
  actionChances : Z;
  log : list GameLog;
  achievements : list string;
  totalScore : Z;
  lastActive : Z;
  isWinner : bool;
  winTime : option Z;
  collectedCards : list CollectedCard
}.

(** A [Partial<Player>] is the sequence of its [key: value] entries; a key
    written again (as [updates.actionChances = ...] does) comes later in the
    sequence and wins. *)
Inductive PlayerField :=
| F_id (v : string)
| F_name (v : string)
| F_color (v : string)
| F_coins (v : Z)
| F_shells (v : Z)
| F_completedZones (v : list string)
| F_actionChances (v : Z)
| F_log (v : list GameLog)
| F_achievements (v : list string)
| F_totalScore (v : Z)
| F_lastActive (v : Z)
| F_isWinner (v : bool)
| F_winTime (v : option Z)
| F_collectedCards (v : list CollectedCard).

Definition assign (p : Player) (f : PlayerField) : Player :=
  let 'mkPlayer i n c co sh cz ac lg ach ts la w wt cc := p in
  match f with
  | F_id v => mkPlayer v n c co sh cz ac lg ach ts la w wt cc
  | F_name v => mkPlayer i v c co sh cz ac lg ach ts la w wt cc
  | F_color v => mkPlayer i n v co sh cz ac lg ach ts la w wt cc
  | F_coins v => mkPlayer i n c v sh cz ac lg ach ts la w wt cc
  | F_shells v => mkPlayer i n c co v cz ac lg ach ts la w wt cc
  | F_completedZones v => mkPlayer i n c co sh v ac lg ach ts la w wt cc
  | F_actionChances v => mkPlayer i n c co sh cz v lg ach ts la w wt cc
  | F_log v => mkPlayer i n c co sh cz ac v ach ts la w wt cc
  | F_achievements v => mkPlayer i n c co sh cz ac lg v ts la w wt cc
  | F_totalScore v => mkPlayer i n c co sh cz ac lg ach v la w wt cc
  | F_lastActive v => mkPlayer i n c co sh cz ac lg ach ts v w wt cc
  | F_isWinner v => mkPlayer i n c co sh cz ac lg ach ts la v wt cc
  | F_winTime v => mkPlayer i n c co sh cz ac lg ach ts la w v cc
  | F_collectedCards v => mkPlayer i n c co sh cz ac lg ach ts la w wt v
  end.

(** [{ ...player, ...updates }] *)
Definition spread (player : Player) (updates : list PlayerField) : Player :=
  fold_left assign updates player.

Record GameState := mkState {
  currentPage : string;
  players : gmap string Player;
  currentPlayer : option string;
  gameWinner : option string;
  gameStartTime : Z;
  gameSettings : GameSettings;
  winnerTime : option Z
}.

Inductive StateField :=
| G_currentPage (v : string)
| G_players (v : gmap string Player)
| G_currentPlayer (v : option string)
| G_gameWinner (v : option string)
| G_gameStartTime (v : Z)
| G_winnerTime (v : option Z).

Definition assignState (s : GameState) (f : StateField) : GameState :=
  let 'mkState pg ps cp gw st se wt := s in
  match f with
  | G_currentPage v => mkState v ps cp gw st se wt
  | G_players v => mkState pg v cp gw st se wt
  | G_currentPlayer v => mkState pg ps v gw st se wt
  | G_gameWinner v => mkState pg ps cp v st se wt
  | G_gameStartTime v => mkState pg ps cp gw v se wt
  | G_winnerTime v => mkState pg ps cp gw st se v
  end.

Definition GAME_SETTINGS : GameSettings := mkSettings 5 10 3 30.

(** The state [useState] starts from (and [resetGame] restores). *)
Definition initialState (now : Z) : GameState :=
  mkState "home" ∅ None None now GAME_SETTINGS None.

(** [setGameState(prev => ({ ...prev, ...updates }))] *)
Definition updateGameState (updates : list StateField) (prev : GameState)
    : GameState :=
  fold_left assignState updates prev.

(** The score line of [updatePlayer]. *)
Definition scoreOf (p : Player) : Z :=
  coins p * 2 + shells p * 5 + Z.of_nat (length (completedZones p)) * 10.

(** [addPlayer]: the id is ['player_' + Date.now() + '_' + random]; [suffix]
    stands for the part after the first underscore. *)
Definition addPlayer (now : Z) (suffix : string) (name color : string)
    (prev : GameState) : GameState :=
  let playerId := String.append "player_" suffix in
  let newPlayer :=
    mkPlayer playerId name color 0 0 [] (maxActionChances GAME_SETTINGS)
             [] [] 0 now false None [] in
  assignState prev (G_players (<[playerId := newPlayer]> (players prev))).

Definition updatePlayer (now : Z) (playerId : string)
    (updates : list PlayerField) (prev : GameState) : GameState :=
  match players prev !! playerId with
  | None => prev
  | Some player =>
      let updatedPlayer := assign (spread player updates) (F_lastActive now) in
      let updatedPlayer :=
        assign updatedPlayer (F_totalScore (scoreOf updatedPlayer)) in
      assignState prev
        (G_players (<[playerId := updatedPlayer]> (players prev)))
  end.

(** [addLog] and [addCard] read the player from the [gameState] captured by
    the handler ([captured]) and queue an update on the latest state. *)
Definition addLog (now : Z) (captured : GameState) (playerId : string)
    (entry : Z -> GameLog) (prev : GameState) : GameState :=
  match players captured !! playerId with
  | None => prev
  | Some player =>
      updatePlayer now playerId [F_log (log player ++ [entry now])] prev
  end.

Definition addCard (now : Z) (captured : GameState) (playerId : string)
    (card : Z -> CollectedCard) (prev : GameState) : GameState :=
  match players captured !! playerId with
  | None => prev
  | Some player =>
      updatePlayer now playerId
        [F_collectedCards (collectedCards player ++ [card now])] prev
  end.

(** [gameState.currentPlayer ? gameState.players[gameState.currentPlayer] : null] *)
Definition currentPlayerOf (gs : GameState) : option Player :=
  if JS.truthy_str (currentPlayer gs)
  then players gs !! default "" (currentPlayer gs)
  else None.

(** *** MapPage (App.tsx 1436-1442, 1597-1655)

    [now] is the clock value read while the page renders; the click handlers
    and the [disabled] attributes close over the values computed then, and
    a click reads no clock of its own.  The page renders again when the
    game state changes; a tick of [GameTimer] sets that component's own
    state only. *)
Definition timeLeft (now : Z) (gs : GameState) : Z :=
  JS.Math_max0 (timeLimit (gameSettings gs) * 60 * 1000
                - (now - gameStartTime gs)).

Definition gameEnded (now : Z) (gs : GameState) : bool :=
  timeLeft now gs =? 0.

Definition canEnterTemple (p : Player) : bool :=
  (coins p >=? 10) && (shells p >=? 3).

Definition canPlay (now : Z) (gs : GameState) (p : Player) : bool :=
  (actionChances p >? 0) && negb (gameEnded now gs) && negb (isWinner p).

(** A click yields the next state and the cues handed to [playSound].
    [None] when no click reaches the handler: the page shows the player
    picker and has no such button, or the button is rendered [disabled]
    (its [disabled] attribute is the negation of the handler's own test,
    taken from the same render, so the handler's [else] branch with the
    error cue is never run by a click). *)
Definition templeClick (now : Z) (gs : GameState)
    : option (GameState * list string) :=
  match currentPlayerOf gs with
  | None => None
  | Some p =>
      if canEnterTemple p && negb (gameEnded now gs)
      then Some (updateGameState [G_currentPage "temple"] gs, ["success"])
      else None
  end.

Definition zoneClick (now : Z) (gs : GameState) (zoneId : string)
    : option (GameState * list string) :=
  match currentPlayerOf gs with
  | None => None
  | Some p =>
      if canPlay now gs p
      then Some (updateGameState
                   [G_currentPage (String.append "zone-" zoneId)] gs,
                 ["click"])
      else None
  end.

(** *** ZonePage.handleCardDraw (App.tsx 1829-1900) *)
Definition cardUpdates (currentPlayer : Player) (zoneId : string)
    (randomCard : Cards.CardTemplate) : list PlayerField :=
  let updates :=
    [ F_actionChances (actionChances currentPlayer - 1);
      F_completedZones
        (if JS.includes_str (completedZones currentPlayer) zoneId
         then completedZones currentPlayer
         else completedZones currentPlayer ++ [zoneId]) ] in
  let ty := Cards.card_type randomCard in
  let amount := Cards.card_amount randomCard in
  if String.eqb ty "coins" then
    updates ++ [F_coins (coins currentPlayer + amount)]
  else if String.eqb ty "shells" then
    updates ++ [F_shells (shells currentPlayer + amount)]
  else if String.eqb ty "bonus" then
    updates ++ [F_coins (coins currentPlayer + amount);
                F_shells (shells currentPlayer + amount)]
  else if String.eqb ty "action" then
    updates ++ [F_actionChances (actionChances currentPlayer + amount)]
  else updates.

(** The draw once [randomCard] is known: [updatePlayer], [addCard],
    [addLog], in that order. *)
Definition applyCard (now : Z) (zoneId : string) (gs : GameState)
    (currentPlayer : Player) (randomCard : Cards.CardTemplate) : GameState :=
  let pid := id currentPlayer in
  let s1 := updatePlayer now pid (cardUpdates currentPlayer zoneId randomCard) gs in
  let s2 := addCard now gs pid
              (mkCollected (Cards.card_id randomCard)
                 (Cards.card_rarity randomCard) (Cards.card_type randomCard)
                 (Cards.card_amount randomCard)) s1 in
  addLog now gs pid
    (mkLog "card" zoneId
       (if String.eqb (Cards.card_type randomCard) "skip"
        then "skip" else "success")
       (Cards.card_amount randomCard)) s2.

(** [handleCardDraw]: [u1] and [u2] are the two values of [Math.random()].
    Without a current player the handler returns at once. *)
Definition handleCardDraw (now : Z) (u1 u2 : Q) (zoneId : string)
    (gs : GameState) : GameState :=
  match currentPlayerOf gs with
  | None => gs
  | Some currentPlayer =>
      match Cards.randomCard u1 u2 with
      | None => gs
      | Some randomCard => applyCard now zoneId gs currentPlayer randomCard
      end
  end.

End Simple.

(** ** The richer variant: [src/unnamed/part_000] *)
Module Rich.
Export Shared.

Record Player := mkPlayer {
  id : string;
  name : string;
  color : string;
  coins : Z;
  shells : Z;
  completedZones : list string;
  zoneProgress : gmap string Z;
  (** indices into the zone's question array *)
  answeredQuestions : gmap string (list nat);
  actionChances : Z;
  log : list GameLog;
  achievements : list string;
  totalScore : Z;
  lastActive : Z;
  isWinner : bool;
  winTime : option Z;
  collectedCards : list CollectedCard
}.

(** A [Partial<Player>] as the sequence of its entries, later entries
    winning (see [Simple.PlayerField]). *)
Inductive PlayerField :=
| F_id (v : string)
| F_name (v : string)
| F_color (v : string)
| F_coins (v : Z)
| F_shells (v : Z)
| F_completedZones (v : list string)
| F_zoneProgress (v : gmap string Z)
| F_answeredQuestions (v : gmap string (list nat))
| F_actionChances (v : Z)
| F_log (v : list GameLog)
| F_achievements (v : list string)
| F_totalScore (v : Z)
| F_lastActive (v : Z)
| F_isWinner (v : bool)
| F_winTime (v : option Z)
| F_collectedCards (v : list CollectedCard).

Definition assign (p : Player) (f : PlayerField) : Player :=
  let 'mkPlayer i n c co sh cz zp aq ac lg ach ts la w wt cc := p in
  match f with
  | F_id v => mkPlayer v n c co sh cz zp aq ac lg ach ts la w wt cc
  | F_name v => mkPlayer i v c co sh cz zp aq ac lg ach ts la w wt cc
  | F_color v => mkPlayer i n v co sh cz zp aq ac lg ach ts la w wt cc
  | F_coins v => mkPlayer i n c v sh cz zp aq ac lg ach ts la w wt cc
  | F_shells v => mkPlayer i n c co v cz zp aq ac lg ach ts la w wt cc
  | F_completedZones v => mkPlayer i n c co sh v zp aq ac lg ach ts la w wt cc
  | F_zoneProgress v => mkPlayer i n c co sh cz v aq ac lg ach ts la w wt cc
  | F_answeredQuestions v =>
      mkPlayer i n c co sh cz zp v ac lg ach ts la w wt cc
  | F_actionChances v => mkPlayer i n c co sh cz zp aq v lg ach ts la w wt cc
  | F_log v => mkPlayer i n c co sh cz zp aq ac v ach ts la w wt cc
  | F_achievements v => mkPlayer i n c co sh cz zp aq ac lg v ts la w wt cc
  | F_totalScore v => mkPlayer i n c co sh cz zp aq ac lg ach v la w wt cc
  | F_lastActive v => mkPlayer i n c co sh cz zp aq ac lg ach ts v w wt cc
  | F_isWinner v => mkPlayer i n c co sh cz zp aq ac lg ach ts la v wt cc
  | F_winTime v => mkPlayer i n c co sh cz zp aq ac lg ach ts la w v cc
  | F_collectedCards v => mkPlayer i n c co sh cz zp aq ac lg ach ts la w wt v
  end.

(** [{ ...player, ...updates }] *)
Definition spread (player : Player) (updates : list PlayerField) : Player :=
  fold_left assign updates player.

Record GameState := mkState {
  currentPage : string;
  players : gmap string Player;
  currentPlayer : option string;
  gameWinner : option string;
  gameStartTime : Z;
  gameSettings : GameSettings;
  winnerTime : option Z;
  isPaused : bool;
  pauseStartTime : option Z
}.

Inductive StateField :=
| G_currentPage (v : string)
| G_players (v : gmap string Player)
| G_currentPlayer (v : option string)
| G_gameWinner (v : option string)
| G_gameStartTime (v : Z)
| G_winnerTime (v : option Z)
| G_isPaused (v : bool)
| G_pauseStartTime (v : option Z).

Definition assignState (s : GameState) (f : StateField) : GameState :=
  let 'mkState pg ps cp gw st se wt ip pst := s in
  match f with
  | G_currentPage v => mkState v ps cp gw st se wt ip pst
  | G_players v => mkState pg v cp gw st se wt ip pst
  | G_currentPlayer v => mkState pg ps v gw st se wt ip pst
  | G_gameWinner v => mkState pg ps cp v st se wt ip pst
  | G_gameStartTime v => mkState pg ps cp gw v se wt ip pst
  | G_winnerTime v => mkState pg ps cp gw st se v ip pst
  | G_isPaused v => mkState pg ps cp gw st se wt v pst
  | G_pauseStartTime v => mkState pg ps cp gw st se wt ip v
  end.

Definition GAME_SETTINGS : GameSettings := mkSettings 5 40 15 30.

(** The state [useState] starts from (and [resetGame] restores). *)
Definition initialState (now : Z) : GameState :=
  mkState "home" ∅ None None now GAME_SETTINGS None false None.

(** [setGameState(prev => ({ ...prev, ...updates }))] *)
Definition updateGameState (updates : list StateField) (prev : GameState)
    : GameState :=
  fold_left assignState updates prev.

Definition setCurrentPlayer (playerId : string) (prev : GameState)
    : GameState :=
  assignState prev (G_currentPlayer (Some playerId)).

(** The score line of [updatePlayer] (part_000 820-821). *)
Definition scoreOf (p : Player) : Z :=
  coins p * 2 + shells p * 5 + Z.of_nat (length (completedZones p)) * 10.

(** [addPlayer]: the id is ['player_' + Date.now() + '_' + random]; [suffix]
    stands for the part after the first underscore. *)
Definition addPlayer (now : Z) (suffix : string) (name color : string)
    (prev : GameState) : GameState :=
  let playerId := String.append "player_" suffix in
  let newPlayer :=
    mkPlayer playerId name color 0 0 [] ∅ ∅ (maxActionChances GAME_SETTINGS)
             [] [] 0 now false None [] in
  assignState prev (G_players (<[playerId := newPlayer]> (players prev))).

(** [updatePlayer] (part_000 808-831) *)
Definition updatePlayer (now : Z) (playerId : string)
    (updates : list PlayerField) (prev : GameState) : GameState :=
  match players prev !! playerId with
  | None => prev
  | Some player =>
      let updatedPlayer := assign (spread player updates) (F_lastActive now) in
      let updatedPlayer :=
        assign updatedPlayer (F_totalScore (scoreOf updatedPlayer)) in
      assignState prev
        (G_players (<[playerId := updatedPlayer]> (players prev)))
  end.

(** [addLog] and [addCard] read the player from the [gameState] captured by
    the handler ([captured]) and queue an update on the latest state. *)
Definition addLog (now : Z) (captured : GameState) (playerId : string)
    (entry : Z -> GameLog) (prev : GameState) : GameState :=
  match players captured !! playerId with
  | None => prev
  | Some player =>
      updatePlayer now playerId [F_log (log player ++ [entry now])] prev
  end.

Definition addCard (now : Z) (captured : GameState) (playerId : string)
    (card : Z -> CollectedCard) (prev : GameState) : GameState :=
  match players captured !! playerId with
  | None => prev
  | Some player =>
      updatePlayer now playerId
        [F_collectedCards (collectedCards player ++ [card now])] prev
  end.

(** [gameState.currentPlayer ? gameState.players[gameState.currentPlayer] : null] *)
Definition currentPlayerOf (gs : GameState) : option Player :=
  if JS.truthy_str (currentPlayer gs)
  then players gs !! default "" (currentPlayer gs)
  else None.

(** *** PauseButton.handlePause (part_000 950-968) *)
Definition handlePause (now : Z) (gs : GameState) : GameState * list string :=
  if isPaused gs then
    let pauseDuration := now - JS.or0 (pauseStartTime gs) in
    (updateGameState
       [ G_isPaused false; G_pauseStartTime None;
         G_gameStartTime (gameStartTime gs + pauseDuration) ] gs,
     ["click"])
  else
    (updateGameState [G_isPaused true; G_pauseStartTime (Some now)] gs,
     ["warning"]).

(** *** GameTimer (part_000 1043-1086) *)
Record TimerState := mkTimer {
  timeLeft : Z;
  hasWarned : bool;
  totalPauseTime : Z
}.

Definition initialTimer : TimerState := mkTimer 0 false 0.

(** [remaining] as one run of the interval callback computes it. *)
Definition remaining (now : Z) (gs : GameState) (t : TimerState) : Z :=
  let currentPauseTime :=
    if JS.truthy_num (pauseStartTime gs)
    then totalPauseTime t + (now - default 0 (pauseStartTime gs))
    else totalPauseTime t in
  let elapsed := now - gameStartTime gs - currentPauseTime in
  JS.Math_max0 (timeLimit (gameSettings gs) * 60 * 1000 - elapsed).

(** One run of the interval callback: the timer state after it and the cues
    it hands to [playSound]. *)
Definition tick (now : Z) (gs : GameState) (t : TimerState)
    : TimerState * list string :=
  if isPaused gs then (t, [])
  else
    let remaining := remaining now gs t in
    let warn :=
      (remaining <=? 300000) && (remaining >? 299000) && negb (hasWarned t) in
    (mkTimer remaining (if warn then true else hasWarned t) (totalPauseTime t),
     ((if warn then ["warning"] else []) ++
      (if remaining =? 0 then ["timeup"] else []))%list).

(** The second effect, run when [isPaused] or [pauseStartTime] changes. *)
Definition resumeEffect (now : Z) (gs : GameState) (t : TimerState)
    : TimerState :=
  if negb (isPaused gs) && JS.truthy_num (pauseStartTime gs)
  then mkTimer (timeLeft t) (hasWarned t)
               (totalPauseTime t + (now - default 0 (pauseStartTime gs)))
  else t.

(** *** Leaderboard: the comparator handed to [sort] (part_000 1128-1148) *)
Definition compare (a b : Player) : Z :=
  if isWinner a && negb (isWinner b) then -1
  else if negb (isWinner a) && isWinner b then 1
  else if isWinner a && isWinner b then
    if negb (JS.or0 (winTime a) =? JS.or0 (winTime b))
    then JS.or0 (winTime a) - JS.or0 (winTime b)
    else totalScore b - totalScore a
  else if negb (totalScore a =? totalScore b)
  then totalScore b - totalScore a
  else lastActive a - lastActive b.

(** [a] sorts at or before [b]: the comparator is not positive. *)
Definition atOrBefore (a b : Player) : Prop := compare a b <= 0.

(** *** MapPage (part_000 1668-1676, 1826-1884)

    [now] is the clock value read while the page renders; the click handlers
    and the [disabled] attributes close over the values computed then, and
    a click reads no clock of its own.  The page renders again when the
    game state changes; a tick of [GameTimer] sets that component's own
    state only. *)
Definition mapTimeLeft (now : Z) (gs : GameState) : Z :=
  JS.Math_max0 (timeLimit (gameSettings gs) * 60 * 1000
                - (now - gameStartTime gs)).

Definition gameEnded (now : Z) (gs : GameState) : bool :=
  mapTimeLeft now gs =? 0.

Definition canEnterTemple (p : Player) : bool :=
  (coins p >=? 40) && (shells p >=? 15).

Definition canPlay (now : Z) (gs : GameState) (p : Player) : bool :=
  (actionChances p >? 0) && negb (gameEnded now gs) && negb (isWinner p)
  && negb (isPaused gs).

(** A click yields the next state and the cues handed to [playSound].
    [None] when no click reaches the handler: the page shows the player
    picker and has no such button, or the button is rendered [disabled]
    (its [disabled] attribute is the negation of the handler's own test,
    taken from the same render, so the handler's [else] branch with the
    error cue is never run by a click). *)
Definition templeClick (now : Z) (gs : GameState)
    : option (GameState * list string) :=
  match currentPlayerOf gs with
  | None => None
  | Some p =>
      if canEnterTemple p && negb (gameEnded now gs) && negb (isPaused gs)
      then Some (updateGameState [G_currentPage "temple"] gs, ["success"])
      else None
  end.

Definition zoneClick (now : Z) (gs : GameState) (zoneId : string)
    : option (GameState * list string) :=
  match currentPlayerOf gs with
  | None => None
  | Some p =>
      if canPlay now gs p
      then Some (updateGameState
                   [G_currentPage (String.append "zone-" zoneId)] gs,
                 ["click"])
      else None
  end.

(** *** The question bank (part_000 139-606): answer and difficulty of each
    entry, in array order *)
Definition QUESTIONS_coral : list Question := [
  mkQuestion 0 easy; mkQuestion 1 medium; mkQuestion 1 hard;
  mkQuestion 1 easy; mkQuestion 0 hard; mkQuestion 2 medium;
  mkQuestion 2 easy; mkQuestion 1 medium; mkQuestion 3 medium;
  mkQuestion 1 hard; mkQuestion 1 medium; mkQuestion 2 hard;
  mkQuestion 1 medium; mkQuestion 1 easy; mkQuestion 3 hard
].

Definition QUESTIONS_volcano : list Question := [
  mkQuestion 3 hard; mkQuestion 1 medium; mkQuestion 2 easy;
  mkQuestion 0 medium; mkQuestion 3 hard; mkQuestion 0 medium;
  mkQuestion 3 hard; mkQuestion 2 hard; mkQuestion 2 medium;
  mkQuestion 1 easy; mkQuestion 3 medium; mkQuestion 1 easy;
  mkQuestion 3 hard; mkQuestion 2 medium; mkQuestion 1 hard
].

Definition QUESTIONS_kelp : list Question := [
  mkQuestion 1 easy; mkQuestion 3 medium; mkQuestion 1 hard;
  mkQuestion 2 medium; mkQuestion 2 easy; mkQuestion 3 easy;
  mkQuestion 1 medium; mkQuestion 2 hard; mkQuestion 3 medium;
  mkQuestion 3 hard; mkQuestion 3 medium; mkQuestion 0 hard;
  mkQuestion 2 medium; mkQuestion 3 hard; mkQuestion 3 easy
].

Definition QUESTIONS_cave : list Question := [
  mkQuestion 0 medium; mkQuestion 1 hard; mkQuestion 1 easy;
  mkQuestion 0 hard; mkQuestion 3 medium; mkQuestion 0 medium;
  mkQuestion 2 hard; mkQuestion 2 medium; mkQuestion 1 hard;
  mkQuestion 3 easy
].

Definition QUESTIONS_shipwreck : list Question := [
  mkQuestion 2 medium; mkQuestion 2 hard; mkQuestion 1 easy;
  mkQuestion 3 hard; mkQuestion 2 medium; mkQuestion 1 medium;
  mkQuestion 2 hard; mkQuestion 2 medium; mkQuestion 2 easy;
  mkQuestion 1 hard
].

(** [QUESTIONS[zoneId]] *)
Definition QUESTIONS (zoneId : string) : option (list Question) :=
  if String.eqb zoneId "coral" then Some QUESTIONS_coral
  else if String.eqb zoneId "volcano" then Some QUESTIONS_volcano
  else if String.eqb zoneId "kelp" then Some QUESTIONS_kelp
  else if String.eqb zoneId "cave" then Some QUESTIONS_cave
  else if String.eqb zoneId "shipwreck" then Some QUESTIONS_shipwreck
  else None.

(** *** ZonePage (part_000 1989-2176) *)
Inductive TaskType := question | card.

(** The component's own state.  [currentQuestion] carries the
    [originalIndex] stored with it. *)
Record ZoneLocal := mkZone {
  taskType : option TaskType;
  currentQuestion : option (nat * Question);
  selectedAnswer : option Z;
  showResult : bool;
  isAnswerCorrect : bool
}.

Definition initialZone : ZoneLocal := mkZone None None None false false.

(** [questions.filter((_, index) => !answeredQuestions.includes(index))].
    The entries of the bank are distinct objects, so each is kept together
    with its position, which is what [questions.indexOf] returns for it. *)
Definition availableQuestions (questions : list Question)
    (answered : list nat) : list (nat * Question) :=
  filter (fun iq => iq.1 ∉ answered) (imap pair questions).

(** The effect that picks the task of a visit (part_000 2001-2021); [u] is
    the value of [Math.random()].  For [u] outside [0, 1), which
    [Math.random()] never returns, the state is left as it is. *)
Definition zoneEffect (u : Q) (zoneId : string) (gs : GameState)
    (zs : ZoneLocal) : ZoneLocal :=
  match currentPlayerOf gs with
  | None => zs
  | Some currentPlayer =>
      if JS.includes_str ["coral"; "volcano"; "kelp"] zoneId then
        let zs := mkZone (Some question) (currentQuestion zs)
                    (selectedAnswer zs) (showResult zs) (isAnswerCorrect zs) in
        let questions := default [] (QUESTIONS zoneId) in
        let answered :=
          default [] (answeredQuestions currentPlayer !! zoneId) in
        let available := availableQuestions questions answered in
        if (0 <? length available)%nat then
          match JS.random_pick u available with
          | Some q =>
              mkZone (taskType zs) (Some q) (selectedAnswer zs)
                (showResult zs) (isAnswerCorrect zs)
          | None => zs
          end
        else zs
      else if JS.includes_str ["cave"; "shipwreck"] zoneId then
        mkZone (Some card) (currentQuestion zs) (selectedAnswer zs)
          (showResult zs) (isAnswerCorrect zs)
      else zs
  end.

(** Clicking an option: [setSelectedAnswer(index)]. *)
Definition selectAnswer (index : Z) (zs : ZoneLocal) : ZoneLocal :=
  mkZone (taskType zs) (currentQuestion zs) (Some index) (showResult zs)
    (isAnswerCorrect zs).

(** The question a visit presents: the form is shown when no result is up,
    the task is a question, a question is set and the game is not paused
    (part_000 2243). *)
Definition presented (gs : GameState) (zs : ZoneLocal) : option nat :=
  if negb (showResult zs) && negb (isPaused gs) then
    match taskType zs, currentQuestion zs with
    | Some question, Some q => Some q.1
    | _, _ => None
    end
  else None.

Definition baseScore (d : Difficulty) : Z :=
  match d with easy => 10 | medium => 15 | hard => 20 end.

Definition shellRewardOf (d : Difficulty) : Z :=
  match d with easy => 1 | medium => 2 | hard => 3 end.

Definition coinRewardOf (d : Difficulty) : Z :=
  match d with easy => 2 | medium => 3 | hard => 4 end.

(** [handleQuestionAnswer] (part_000 2023-2099), up to the scheduled return
    to the map. *)
Definition handleQuestionAnswer (now : Z) (zoneId : string)
    (gs : GameState) (zs : ZoneLocal) : GameState * ZoneLocal * list string :=
  match selectedAnswer zs, currentQuestion zs, currentPlayerOf gs with
  | Some selected, Some (originalIndex, q), Some currentPlayer =>
      let isCorrect := selected =? answer q in
      let zs' := mkZone (taskType zs) (currentQuestion zs)
                   (selectedAnswer zs) true isCorrect in
      let answered :=
        default [] (answeredQuestions currentPlayer !! zoneId) in
      let newAnsweredQuestions := (answered ++ [originalIndex])%list in
      if isCorrect then
        let '(coinReward, shellReward, scoreReward) :=
          if String.eqb zoneId "coral" then
            (0, shellRewardOf (difficulty q), baseScore (difficulty q))
          else if String.eqb zoneId "volcano" || String.eqb zoneId "kelp" then
            (coinRewardOf (difficulty q), 0, baseScore (difficulty q))
          else (0, 0, 0) in
        let progress := default 0 (zoneProgress currentPlayer !! zoneId) + 1 in
        let isZoneCompleted := progress >=? 3 in
        let s1 :=
          updatePlayer now (id currentPlayer)
            [ F_coins (coins currentPlayer + coinReward);
              F_shells (shells currentPlayer + shellReward);
              F_totalScore (totalScore currentPlayer + scoreReward);
              F_actionChances (actionChances currentPlayer - 1);
              F_zoneProgress
                (<[zoneId := progress]> (zoneProgress currentPlayer));
              F_answeredQuestions
                (<[zoneId := newAnsweredQuestions]>
                   (answeredQuestions currentPlayer));
              F_completedZones
                (if isZoneCompleted
                    && negb (JS.includes_str (completedZones currentPlayer)
                               zoneId)
                 then completedZones currentPlayer ++ [zoneId]
                 else completedZones currentPlayer) ] gs in
        let s2 :=
          addLog now gs (id currentPlayer)
            (mkLog "question" zoneId "success"
               (if negb (coinReward =? 0) then coinReward else shellReward))
            s1 in
        (s2, zs', ["success"])
      else
        let s1 :=
          updatePlayer now (id currentPlayer)
            [ F_actionChances (actionChances currentPlayer - 1);
              F_answeredQuestions
                (<[zoneId := newAnsweredQuestions]>
                   (answeredQuestions currentPlayer)) ] gs in
        let s2 :=
          addLog now gs (id currentPlayer)
            (mkLog "question" zoneId "failed" 0) s1 in
        (s2, zs', ["error"])
  | _, _, _ => (gs, zs, [])
  end.

(** The [setTimeout] continuation of both handlers, and the back button
    (part_000 2499-2503). *)
Definition returnToMap (gs : GameState) : GameState :=
  updateGameState [G_currentPage "map"] gs.

Definition backClick (gs : GameState) : GameState * list string :=
  (updateGameState [G_currentPage "map"] gs, ["click"]).

(** [handleCardDraw] (part_000 2101-2176) *)
Definition cardUpdates (currentPlayer : Player) (zoneId : string)
    (randomCard : Cards.CardTemplate) : list PlayerField :=
  let scoreReward := 15 in
  let updates :=
    [ F_actionChances (actionChances currentPlayer - 1);
      F_totalScore (totalScore currentPlayer + scoreReward);
      F_completedZones
        (if JS.includes_str (completedZones currentPlayer) zoneId
         then completedZones currentPlayer
         else completedZones currentPlayer ++ [zoneId]) ] in
  let ty := Cards.card_type randomCard in
  let amount := Cards.card_amount randomCard in
  if String.eqb ty "coins" then
    updates ++ [F_coins (coins currentPlayer + amount)]
  else if String.eqb ty "shells" then
    updates ++ [F_shells (shells currentPlayer + amount)]
  else if String.eqb ty "bonus" then
    updates ++ [F_coins (coins currentPlayer + amount);
                F_shells (shells currentPlayer + amount)]
  else if String.eqb ty "action" then
    updates ++ [F_actionChances (actionChances currentPlayer + amount)]
  else updates.

Definition applyCard (now : Z) (zoneId : string) (gs : GameState)
    (currentPlayer : Player) (randomCard : Cards.CardTemplate) : GameState :=
  let pid := id currentPlayer in
  let s1 := updatePlayer now pid (cardUpdates currentPlayer zoneId randomCard) gs in
  let s2 := addCard now gs pid
              (mkCollected (Cards.card_id randomCard)
                 (Cards.card_rarity randomCard) (Cards.card_type randomCard)
                 (Cards.card_amount randomCard)) s1 in
  addLog now gs pid
    (mkLog "card" zoneId
       (if String.eqb (Cards.card_type randomCard) "skip"
        then "skip" else "success")
       (Cards.card_amount randomCard)) s2.

(** [u1] and [u2] are the two values of [Math.random()].  Without a current
    player the handler returns at once; without a card the read of
    [randomCard.type] throws before any update is queued. *)
Definition handleCardDraw (now : Z) (u1 u2 : Q) (zoneId : string)
    (gs : GameState) : GameState :=
  match currentPlayerOf gs with
  | None => gs
  | Some currentPlayer =>
      match Cards.randomCard u1 u2 with
      | None => gs
      | Some randomCard => applyCard now zoneId gs currentPlayer randomCard
      end
  end.

(** *** TemplePage (part_000 2513-2591) *)
Definition TEMPLE_PUZZLES_length : Z := 3.

(** The component's own state.  The result screen hides the form until the
    scheduled continuation (next puzzle, or restart) has run, so that
    continuation is part of the handler's result here. *)
Record TempleLocal := mkTemple {
  currentPuzzleIndex : Z;
  correctAnswers : Z;
  isComplete : bool
}.

Definition initialTemple : TempleLocal := mkTemple 0 0 false.

(** [TEMPLE_PUZZLES[currentPuzzleIndex]] is defined. *)
Definition hasPuzzle (ts : TempleLocal) : bool :=
  (0 <=? currentPuzzleIndex ts)
  && (currentPuzzleIndex ts <? TEMPLE_PUZZLES_length).

(** The test that ends the gauntlet (part_000 2541). *)
Definition finishes (ts : TempleLocal) : bool :=
  (correctAnswers ts + 1 >=? 3)
  || (currentPuzzleIndex ts >=? TEMPLE_PUZZLES_length - 1).

(** [handleSubmit]; [correct] is the outcome of matching the typed answer
    against the puzzle's accepted answers. *)
Definition handleSubmit (now : Z) (correct : bool) (gs : GameState)
    (ts : TempleLocal) : GameState * TempleLocal * list string :=
  match currentPlayerOf gs with
  | None => (gs, ts, [])
  | Some currentPlayer =>
      if negb (hasPuzzle ts) then (gs, ts, [])
      else if correct then
        let newCorrectCount := correctAnswers ts + 1 in
        if finishes ts then
          let winTime := now in
          let gameTime := winTime - gameStartTime gs in
          let ts' := mkTemple (currentPuzzleIndex ts) newCorrectCount true in
          if negb (JS.truthy_str (gameWinner gs)) then
            let s1 :=
              updateGameState
                [ G_gameWinner (Some (id currentPlayer));
                  G_winnerTime (Some gameTime) ] gs in
            let s2 :=
              updatePlayer now (id currentPlayer)
                [ F_isWinner true; F_winTime (Some winTime);
                  F_coins (coins currentPlayer + 50);
                  F_shells (shells currentPlayer + 25);
                  F_totalScore (totalScore currentPlayer + 100) ] s1 in
            (s2, ts', ["victory"])
          else
            let s1 :=
              updatePlayer now (id currentPlayer)
                [ F_isWinner true; F_winTime (Some winTime);
                  F_coins (coins currentPlayer + 30);
                  F_shells (shells currentPlayer + 15);
                  F_totalScore (totalScore currentPlayer + 60) ] gs in
            (s1, ts', ["victory"])
        else
          (gs, mkTemple (currentPuzzleIndex ts + 1) newCorrectCount false,
           ["success"])
      else (gs, mkTemple 0 0 false, ["error"])
  end.

(** The puzzle form is on screen (part_000 2612, 2763): the player has not
    won, the gauntlet is not complete, a puzzle is left and the game is not
    paused. *)
Definition templeForm (gs : GameState) (ts : TempleLocal) : bool :=
  match currentPlayerOf gs with
  | None => false
  | Some currentPlayer =>
      negb (isWinner currentPlayer || isComplete ts)
      && hasPuzzle ts && negb (isPaused gs)
  end.

End Rich.

(** ** Notions used in the statements *)

(** The player record [updatePlayer] stores: the spread, the fresh
    [lastActive], then the recomputed score. *)
Definition simple_updated (now : Z) (player : Simple.Player)
    (updates : list Simple.PlayerField) : Simple.Player :=
  let p := Simple.assign (Simple.spread player updates)
             (Simple.F_lastActive now) in
  Simple.assign p (Simple.F_totalScore (Simple.scoreOf p)).

Definition rich_updated (now : Z) (player : Rich.Player)
    (updates : list Rich.PlayerField) : Rich.Player :=
  let p := Rich.assign (Rich.spread player updates) (Rich.F_lastActive now) in
  Rich.assign p (Rich.F_totalScore (Rich.scoreOf p)).

(** Every stored player carries the projected score. *)
Definition simple_scoreInv (gs : Simple.GameState) : Prop :=
  forall k p, Simple.players gs !! k = Some p ->
    Simple.totalScore p = Simple.scoreOf p.

Definition rich_scoreInv (gs : Rich.GameState) : Prop :=
  forall k p, Rich.players gs !! k = Some p ->
    Rich.totalScore p = Rich.scoreOf p.

(** Players are stored under their own id, and ids are not empty: what
    [addPlayer] establishes. *)
Definition rich_keyed (gs : Rich.GameState) : Prop :=
  map_Forall (fun k p => Rich.id p = k /\ k <> "") (Rich.players gs).

(** A session with one player who has joined and is on the map. *)
Definition simple_demo : Simple.GameState :=
  Simple.updateGameState
    [Simple.G_currentPlayer (Some "player_a"); Simple.G_currentPage "map"]
    (Simple.addPlayer 0 "a" "Ann" "red" (Simple.initialState 0)).

Definition rich_demo : Rich.GameState :=
  Rich.updateGameState
    [Rich.G_currentPlayer (Some "player_a"); Rich.G_currentPage "map"]
    (Rich.addPlayer 0 "a" "Ann" "red" (Rich.initialState 0)).

Definition simple_ann : Simple.Player :=
  Simple.mkPlayer "player_a" "Ann" "red" 0 0 [] 5 [] [] 0 0 false None [].

Definition rich_ann : Rich.Player :=
  Rich.mkPlayer "player_a" "Ann" "red" 0 0 [] ∅ ∅ 5 [] [] 0 0 false None [].

(** The same player once they hold 50 coins and 20 shells, enough for the
    temple in either variant. *)
Definition simple_ready : Simple.GameState :=
  Simple.updatePlayer 1 "player_a"
    [Simple.F_coins 50; Simple.F_shells 20] simple_demo.

Definition rich_ready : Rich.GameState :=
  Rich.updatePlayer 1 "player_a" [Rich.F_coins 50; Rich.F_shells 20] rich_demo.

(** A visit to the coral zone in which the draw [1/6] presents the third
    question of the bank (index 2, hard, answer 1) and the player selects
    its correct answer. *)
Definition rich_coral_visit : Rich.ZoneLocal :=
  Rich.selectAnswer 1 (Rich.zoneEffect (1 # 6) "coral" rich_demo Rich.initialZone).

(** Four leaderboard entries: two winners and two players still racing. *)
Definition lb_first : Rich.Player :=
  Rich.mkPlayer "player_1" "Ann" "red" 90 40 [] ∅ ∅ 2 [] [] 380 900 true
    (Some 900) [].

Definition lb_second : Rich.Player :=
  Rich.mkPlayer "player_2" "Bob" "blue" 95 45 [] ∅ ∅ 1 [] [] 415 1200 true
    (Some 1200) [].

Definition lb_third : Rich.Player :=
  Rich.mkPlayer "player_3" "Cy" "teal" 30 10 [] ∅ ∅ 3 [] [] 110 1000 false
    None [].

Definition lb_fourth : Rich.Player :=
  Rich.mkPlayer "player_4" "Di" "orange" 30 10 [] ∅ ∅ 3 [] [] 110 1100 false
    None [].

(** *** Temple sessions

    What can happen around the temple: a player is picked on the map and
    opens the temple page (a fresh [TemplePage]), or the puzzle form is
    submitted.  A submit counts only while the form is on screen. *)
Inductive TempleEvent :=
| Enter (playerId : string)
| Submit (now : Z) (correct : bool).

Definition templeStep (e : TempleEvent) (s : Rich.GameState * Rich.TempleLocal)
    : Rich.GameState * Rich.TempleLocal :=
  match e with
  | Enter playerId =>
      (Rich.updateGameState [Rich.G_currentPage "temple"]
         (Rich.setCurrentPlayer playerId s.1),
       Rich.initialTemple)
  | Submit now correct =>
      if Rich.templeForm s.1 s.2
      then (Rich.handleSubmit now correct s.1 s.2).1
      else s
  end.

Definition templeRun (es : list TempleEvent)
    (s : Rich.GameState * Rich.TempleLocal)
    : Rich.GameState * Rich.TempleLocal :=
  fold_left (fun s e => templeStep e s) es s.

(** A correct submit in state [s] completes the gauntlet. *)
Definition completes (s : Rich.GameState * Rich.TempleLocal) : bool :=
  Rich.templeForm s.1 s.2 && Rich.finishes s.2.

(** The player stored under [playerId] has completed the gauntlet. *)
Definition won (playerId : string) (gs : Rich.GameState) : Prop :=
  exists p, Rich.players gs !! playerId = Some p /\
            Rich.isWinner p = true /\ is_Some (Rich.winTime p).

(** The update a completed gauntlet queues, with either reward. *)
Definition winUpdates (now c s t : Z) : list Rich.PlayerField :=
  [ Rich.F_isWinner true; Rich.F_winTime (Some now); Rich.F_coins c;
    Rich.F_shells s; Rich.F_totalScore t ].

(** Two players on the map, Ann selected. *)
Definition rich_two : Rich.GameState :=
  Rich.addPlayer 0 "b" "Bob" "blue" rich_demo.

Definition rich_bob : Rich.Player :=
  Rich.mkPlayer "player_b" "Bob" "blue" 0 0 [] ∅ ∅ 5 [] [] 0 0 false None [].

(** A session in which Ann clears the three puzzles first and Bob, after
    one wrong answer and a restart, clears them later. *)
Definition temple_before : list TempleEvent :=
  [Enter "player_a"; Submit 100 true; Submit 200 true].

Definition temple_bob : list TempleEvent :=
  [Enter "player_b"; Submit 400 true; Submit 500 false; Submit 600 true;
   Submit 700 true].

Definition temple_after : list TempleEvent :=
  (temple_bob ++ [Submit 800 true])%list.

(** *** Zone visits

    A visit: the player is picked on the map, clicks the zone, the zone page
    mounts and its effect picks the task; the visit ends with an answer (when
    a question is on screen) or with the back button. *)
Inductive VisitEnd :=
| AnswerWith (selected : Z)
| LeaveByBack.

Record Visit := mkVisit {
  v_player : string;
  v_now : Z;
  v_draw : Q;
  v_zone : string;
  v_end : VisitEnd
}.

(** What a visit put on screen: index [s_index] of the bank of [s_zone],
    shown to [s_player], and whether the player answered it. *)
Record Shown := mkShown {
  s_player : string;
  s_zone : string;
  s_index : nat;
  s_answered : bool
}.

Definition visit (v : Visit) (gs : Rich.GameState)
    : Rich.GameState * option Shown :=
  let gs0 := Rich.setCurrentPlayer (v_player v) gs in
  match Rich.currentPlayerOf gs0 with
  | None => (gs0, None)
  | Some p =>
      if Rich.canPlay (v_now v) gs0 p then
        let gs1 :=
          Rich.updateGameState
            [Rich.G_currentPage (String.append "zone-" (v_zone v))] gs0 in
        let zs := Rich.zoneEffect (v_draw v) (v_zone v) gs1 Rich.initialZone in
        match Rich.presented gs1 zs, v_end v with
        | Some k, AnswerWith selected =>
            (Rich.returnToMap
               (Rich.handleQuestionAnswer (v_now v) (v_zone v) gs1
                  (Rich.selectAnswer selected zs)).1.1,
             Some (mkShown (v_player v) (v_zone v) k true))
        | Some k, LeaveByBack =>
            ((Rich.backClick gs1).1,
             Some (mkShown (v_player v) (v_zone v) k false))
        | None, _ => ((Rich.backClick gs1).1, None)
        end
      else (gs0, None)
  end.

Fixpoint runVisits (vs : list Visit) (gs : Rich.GameState)
    : Rich.GameState * list Shown :=
  match vs with
  | [] => (gs, [])
  | v :: vs =>
      let r := visit v gs in
      let rs := runVisits vs r.1 in
      (rs.1, match r.2 with Some e => e :: rs.2 | None => rs.2 end)
  end.

(** [answeredQuestions[zoneId] || []] of the player stored under
    [playerId]. *)
Definition answeredOf (gs : Rich.GameState) (playerId zoneId : string)
    : list nat :=
  match Rich.players gs !! playerId with
  | Some p => default [] (Rich.answeredQuestions p !! zoneId)
  | None => []
  end.

(** The claim that no index is put on screen twice for the same player and
    zone. *)
Definition never_presented_twice (vs : list Visit) (gs : Rich.GameState)
    : Prop :=
  NoDup (map (fun e => (s_player e, s_zone e, s_index e)) (runVisits vs gs).2).

(** Ann opens the coral zone, sees the question the draw 0 selects, and
    goes back without answering. *)
Definition peek : Visit := mkVisit "player_a" 1000 0 "coral" LeaveByBack.

(** Ann answers the first coral question, then opens the zone again. *)
Definition answer_then_peek : list Visit :=
  [mkVisit "player_a" 2000 0 "coral" (AnswerWith 0); peek].

(** The interval callback run at each of the given clock values. *)
Fixpoint runTicks (times : list Z) (gs : Rich.GameState) (t : Rich.TimerState)
    : Rich.TimerState * list string :=
  match times with
  | [] => (t, [])
  | now :: times =>
      let r := Rich.tick now gs t in
      let rs := runTicks times gs r.1 in
      (rs.1, (r.2 ++ rs.2)%list)
  end.

(** How often a cue occurs in a list of cues. *)
Definition cueCount (cue : string) (cues : list string) : nat :=
  length (filter (fun c => c = cue) cues).

(** ** Further parts of the two files *)

(** *** [formatTime] (part_000 736-740, App.tsx 637-641) *)
Module Format.

(** [s.padStart(2, '0')] *)
Fixpoint zeros (n : nat) : string :=
  match n with
  | O => ""
  | S n => String "0"%char (zeros n)
  end.

Definition padStart2 (s : string) : string :=
  String.append (zeros (2 - String.length s)) s.

(** [Math.floor(x / y)] on integers is [Z.div]; [%] truncates towards zero
    and is [Z.rem]; [toString()] of an integer is its decimal numeral. *)
Definition minutesOf (milliseconds : Z) : Z := milliseconds / 60000.

Definition secondsOf (milliseconds : Z) : Z :=
  Z.rem milliseconds 60000 / 1000.

Definition formatTime (milliseconds : Z) : string :=
  String.append (padStart2 (pretty (minutesOf milliseconds)))
    (String.append ":" (padStart2 (pretty (secondsOf milliseconds)))).

End Format.

(** *** [GameApp.renderCurrentPage] (part_000 2894-2907, App.tsx 2509-2523) *)
Module Router.

Inductive Page :=
| HomePage
| SetupPage
| MapPage
| TemplePage
| ZonePage (zoneId : string).

Fixpoint dropChars (n : nat) (s : string) : string :=
  match n, s with
  | O, _ => s
  | S n, String _ rest => dropChars n rest
  | S _, EmptyString => EmptyString
  end.

(** [s.replace(pattern, replacement)] for a string pattern: the first
    occurrence is replaced, a string without one is returned as it is. *)
Fixpoint replaceFirst (pattern replacement s : string) : string :=
  if String.prefix pattern s
  then String.append replacement (dropChars (String.length pattern) s)
  else match s with
       | EmptyString => EmptyString
       | String c rest => String c (replaceFirst pattern replacement rest)
       end.

Definition renderCurrentPage (currentPage : string) : Page :=
  if String.eqb currentPage "home" then HomePage
  else if String.eqb currentPage "setup" then SetupPage
  else if String.eqb currentPage "lobby" then SetupPage
  else if String.eqb currentPage "map" then MapPage
  else if String.eqb currentPage "temple" then TemplePage
  else if String.prefix "zone-" currentPage
  then ZonePage (replaceFirst "zone-" "" currentPage)
  else HomePage.

End Router.

(** *** [CardCollection]: the grouping of the collection (part_000
    1240-1244, App.tsx 1026-1030) *)
Module Collection.

(** The [reduce] that files each card under its rarity. *)
Definition cardsByRarity (collectedCards : list Shared.CollectedCard)
    : gmap string (list Shared.CollectedCard) :=
  fold_left
    (fun acc card =>
       <[Shared.cc_rarity card :=
           (default [] (acc !! Shared.cc_rarity card) ++ [card])%list]> acc)
    collectedCards ∅.

End Collection.

(** *** [Leaderboard.sortedPlayers] (part_000 1126-1149)

    [values] is the array [Object.values(gameState.players)].
    [Array.prototype.sort] is stable: it arranges the array in comparator
    order and keeps elements that compare equal in the order they had.
    With a comparator that is transitive and total there is one such
    arrangement; it is built here by inserting the elements from the right,
    each in front of the first element it does not sort after. *)
Module Board.

Fixpoint insert (x : Rich.Player) (l : list Rich.Player)
    : list Rich.Player :=
  match l with
  | [] => [x]
  | y :: l' =>
      if Rich.compare x y <=? 0 then x :: l else y :: insert x l'
  end.

Definition sorted (values : list Rich.Player) : list Rich.Player :=
  foldr insert [] values.

Definition sortedPlayers (values : list Rich.Player) : list Rich.Player :=
  take 8 (sorted values).

(** [q] ties with [c]: the comparator returns 0 on them. *)
Definition tie (c q : Rich.Player) : Prop := Rich.compare c q = 0.

#[global] Instance tie_dec (c q : Rich.Player) : Decision (tie c q) :=
  Z.eq_dec (Rich.compare c q) 0.

End Board.

(** *** [SetupPage] (part_000 1400-1431, 1527) *)
Module Setup.

Definition PLAYER_COLORS : list string :=
  ["red"; "yellow"; "blue"; "teal"; "orange"].

(** [Object.values(players).filter(p => p.color === colorId).length] *)
Definition teamSize (gs : Rich.GameState) (colorId : string) : nat :=
  size (filter (fun kp => Rich.color kp.2 = colorId) (Rich.players gs)).

Definition availableColors (gs : Rich.GameState) : list string :=
  filter (fun colorId => (teamSize gs colorId < 3)%nat) PLAYER_COLORS.

(** [handleJoinGame]; [trimmedName] is [playerName.trim()] and [suffix]
    the generated part of the new id. *)
Definition handleJoinGame (now : Z) (suffix trimmedName selectedColor : string)
    (gs : Rich.GameState) : Rich.GameState * list string :=
  if negb (String.eqb trimmedName "") then
    let playerId := String.append "player_" suffix in
    (Rich.setCurrentPlayer playerId
       (Rich.addPlayer now suffix trimmedName selectedColor gs),
     ["success"])
  else (gs, ["error"]).

(** The continuation scheduled by a successful join. *)
Definition joinTimeout (now : Z) (gs : Rich.GameState) : Rich.GameState :=
  Rich.updateGameState
    [Rich.G_currentPage "lobby"; Rich.G_gameStartTime now] gs.

(** The join button is disabled without a name, without an available
    team, or while a join is under way; [None] is a click on the disabled
    button. *)
Definition joinClick (now : Z) (suffix trimmedName selectedColor : string)
    (isJoining : bool) (gs : Rich.GameState)
    : option (Rich.GameState * list string) :=
  if negb (String.eqb trimmedName "")
     && negb (bool_decide (availableColors gs = []))
     && negb isJoining
  then Some (handleJoinGame now suffix trimmedName selectedColor gs)
  else None.

(** The Enter key in the name field: [!isJoining && playerName.trim()]. *)
Definition joinEnter (now : Z) (suffix trimmedName selectedColor : string)
    (isJoining : bool) (gs : Rich.GameState)
    : option (Rich.GameState * list string) :=
  if negb isJoining && negb (String.eqb trimmedName "")
  then Some (handleJoinGame now suffix trimmedName selectedColor gs)
  else None.

End Setup.

(** *** [ZonePage.handleQuestionAnswer] of the simpler variant (App.tsx
    1782-1826)

    [selectedAnswer] and [currentQuestion] are the component's state; [u] is
    the value of [Math.random()] read for the bonus.  The literal [0.3] is
    the double nearest to 3/10, written out as a fraction. *)
Module SimpleZone.

Definition threshold_0_3 : Q := 5404319552844595 # 18014398509481984.

Definition baseReward (d : Shared.Difficulty) : Z :=
  match d with Shared.easy => 1 | Shared.medium => 2 | Shared.hard => 3 end.

Definition bonusReward (u : Q) : Z :=
  if Qle_bool threshold_0_3 u then 0 else 1.

Definition handleQuestionAnswer (now : Z) (u : Q) (zoneId : string)
    (selectedAnswer : option Z) (currentQuestion : option Shared.Question)
    (gs : Simple.GameState) : Simple.GameState * list string :=
  match selectedAnswer, currentQuestion, Simple.currentPlayerOf gs with
  | Some selected, Some q, Some currentPlayer =>
      if selected =? Shared.answer q then
        let totalReward := baseReward (Shared.difficulty q) + bonusReward u in
        let s1 :=
          Simple.updatePlayer now (Simple.id currentPlayer)
            [ Simple.F_coins (Simple.coins currentPlayer + totalReward);
              Simple.F_actionChances (Simple.actionChances currentPlayer - 1);
              Simple.F_completedZones
                (if JS.includes_str (Simple.completedZones currentPlayer)
                      zoneId
                 then Simple.completedZones currentPlayer
                 else (Simple.completedZones currentPlayer ++ [zoneId])%list)
            ] gs in
        (Simple.addLog now gs (Simple.id currentPlayer)
           (Shared.mkLog "question" zoneId "success" totalReward) s1,
         ["success"])
      else
        let s1 :=
          Simple.updatePlayer now (Simple.id currentPlayer)
            [Simple.F_actionChances (Simple.actionChances currentPlayer - 1)]
            gs in
        (Simple.addLog now gs (Simple.id currentPlayer)
           (Shared.mkLog "question" zoneId "failed" 0) s1,
         ["error"])
  | _, _, _ => (gs, [])
  end.

End SimpleZone.

(** *** The temple page of the simpler variant *)

Module SimpleTemple.

(** The page's own state.  [setCurrentPuzzle] is never called, so
    [currentPuzzle] stays 0 and [puzzle] is always the first entry of
    [TEMPLE_PUZZLES]; what changes is [showResult] and [isCorrect]. *)
Record TempleLocal := mkTemple {
  showResult : bool;
  isCorrect : bool
}.

Definition initialTemple : TempleLocal := mkTemple false false.

(** [handleSubmit]; [correct] is the outcome of matching the typed answer
    against the accepted ones. *)
Definition handleSubmit (now : Z) (correct : bool) (gs : Simple.GameState)
    (ts : TempleLocal) : Simple.GameState * TempleLocal * list string :=
  match Simple.currentPlayerOf gs with
  | None => (gs, ts, [])
  | Some currentPlayer =>
      let ts' := mkTemple true correct in
      if correct then
        let winTime := now in
        let gameTime := winTime - Simple.gameStartTime gs in
        if negb (JS.truthy_str (Simple.gameWinner gs)) then
          let s1 :=
            Simple.updateGameState
              [ Simple.G_gameWinner (Some (Simple.id currentPlayer));
                Simple.G_winnerTime (Some gameTime) ] gs in
          let s2 :=
            Simple.updatePlayer now (Simple.id currentPlayer)
              [ Simple.F_isWinner true; Simple.F_winTime (Some winTime);
                Simple.F_coins (Simple.coins currentPlayer + 20);
                Simple.F_shells (Simple.shells currentPlayer + 10) ] s1 in
          (s2, ts', ["victory"])
        else
          let s1 :=
            Simple.updatePlayer now (Simple.id currentPlayer)
              [ Simple.F_isWinner true; Simple.F_winTime (Some winTime);
                Simple.F_coins (Simple.coins currentPlayer + 10);
                Simple.F_shells (Simple.shells currentPlayer + 5) ] gs in
          (s1, ts', ["victory"])
      else (gs, ts', ["error"])
  end.

(** The puzzle form is rendered for a player who has not won (the victory
    page returns first) as long as no result is shown. *)
Definition templeForm (gs : Simple.GameState) (ts : TempleLocal) : bool :=
  match Simple.currentPlayerOf gs with
  | None => false
  | Some currentPlayer =>
      negb (Simple.isWinner currentPlayer) && negb (showResult ts)
  end.

End SimpleTemple.

(** *** Whole sessions of the richer variant

    The remaining handlers of [MapPage] and [ZonePage], and the actions a
    session is made of. *)
Module Session.

(** The restore panel is rendered when the player has no action chance
    left, the game has not ended and the player has not won (part_000
    1749). *)
Definition restoreShown (now : Z) (gs : Rich.GameState) (p : Rich.Player)
    : bool :=
  (Rich.actionChances p =? 0) && negb (Rich.gameEnded now gs)
  && negb (Rich.isWinner p).

(** The restore button (part_000 1760-1772); [None] when it is not on the
    page. *)
Definition restoreClick (now : Z) (gs : Rich.GameState)
    : option (Rich.GameState * list string) :=
  match Rich.currentPlayerOf gs with
  | None => None
  | Some currentPlayer =>
      if restoreShown now gs currentPlayer then
        let s1 :=
          Rich.updatePlayer now (Rich.id currentPlayer)
            [Rich.F_actionChances
               (Z.min (Rich.actionChances currentPlayer + 3) 5)] gs in
        Some (Rich.addLog now gs (Rich.id currentPlayer)
                (Shared.mkLog "restore" "system" "success" 3) s1,
              ["reward"])
      else None
  end.

(** The draw button is on the page (part_000 2299). *)
Definition drawShown (gs : Rich.GameState) (zs : Rich.ZoneLocal) : bool :=
  negb (Rich.showResult zs)
  && match Rich.taskType zs with Some Rich.card => true | _ => false end
  && negb (Rich.isPaused gs).

(** A visit to a card zone: pick the player, click the zone, draw if the
    button is there, return to the map. *)
Definition cardVisit (playerId : string) (now : Z) (u u1 u2 : Q)
    (zoneId : string) (gs : Rich.GameState) : Rich.GameState :=
  let gs0 := Rich.setCurrentPlayer playerId gs in
  match Rich.currentPlayerOf gs0 with
  | None => gs0
  | Some p =>
      if Rich.canPlay now gs0 p then
        let gs1 :=
          Rich.updateGameState
            [Rich.G_currentPage (String.append "zone-" zoneId)] gs0 in
        let zs := Rich.zoneEffect u zoneId gs1 Rich.initialZone in
        if drawShown gs1 zs
        then Rich.returnToMap (Rich.handleCardDraw now u1 u2 zoneId gs1)
        else (Rich.backClick gs1).1
      else gs0
  end.

(** The submits of one stay on the temple page. *)
Definition submits (answers : list (Z * bool)) : list TempleEvent :=
  map (fun nb => Submit nb.1 nb.2) answers.

(** A visit to the temple: pick the player, click the temple button, and
    if it opens, submit the given answers. *)
Definition templeVisit (playerId : string) (now : Z)
    (answers : list (Z * bool)) (gs : Rich.GameState) : Rich.GameState :=
  let gs0 := Rich.setCurrentPlayer playerId gs in
  match Rich.templeClick now gs0 with
  | Some (gs1, cues) =>
      if bool_decide (cues = ["success"])
      then (templeRun (submits answers) (gs1, Rich.initialTemple)).1
      else gs0
  | None => gs0
  end.

Inductive Action :=
| AJoin (now : Z) (suffix trimmedName selectedColor : string) (startNow : Z)
| AVisit (v : Visit)
| ADraw (playerId : string) (now : Z) (u u1 u2 : Q) (zoneId : string)
| ARestore (playerId : string) (now : Z)
| ATemple (playerId : string) (now : Z) (answers : list (Z * bool))
| APause (now : Z).

Definition step (a : Action) (gs : Rich.GameState) : Rich.GameState :=
  match a with
  | AJoin now suffix trimmedName selectedColor startNow =>
      if String.eqb trimmedName "" then gs
      else Setup.joinTimeout startNow
             (Setup.handleJoinGame now suffix trimmedName selectedColor gs).1
  | AVisit v => (visit v gs).1
  | ADraw playerId now u u1 u2 zoneId =>
      cardVisit playerId now u u1 u2 zoneId gs
  | ARestore playerId now =>
      let gs0 := Rich.setCurrentPlayer playerId gs in
      match restoreClick now gs0 with
      | Some r => r.1
      | None => gs0
      end
  | ATemple playerId now answers => templeVisit playerId now answers gs
  | APause now => (Rich.handlePause now gs).1
  end.

Definition run (actions : list Action) (gs : Rich.GameState)
    : Rich.GameState :=
  fold_left (fun gs a => step a gs) actions gs.

(** The counters of a player are in range and no zone is listed twice. *)
Definition okPlayer (p : Rich.Player) : Prop :=
  0 <= Rich.coins p /\ 0 <= Rich.shells p /\ 0 <= Rich.actionChances p /\
  NoDup (Rich.completedZones p).

(** Every stored player is filed under its non-empty id, carries the
    projected score and has counters in range. *)
Definition sound (gs : Rich.GameState) : Prop :=
  map_Forall
    (fun k p => Rich.id p = k /\ k <> "" /\
                Rich.totalScore p = Rich.scoreOf p /\ okPlayer p)
    (Rich.players gs).

(** Pause at [c.1], resume at [c.2], for each cycle in turn. *)
Fixpoint pauseCycles (cycles : list (Z * Z)) (gs : Rich.GameState)
    : Rich.GameState :=
  match cycles with
  | [] => gs
  | c :: rest =>
      pauseCycles rest
        (Rich.handlePause c.2 (Rich.handlePause c.1 gs).1).1
  end.

Fixpoint pausedTotal (cycles : list (Z * Z)) : Z :=
  match cycles with
  | [] => 0
  | c :: rest => (c.2 - c.1) + pausedTotal rest
  end.

(** The fields of the game state the countdown is computed from, and the
    pause flag. *)
Definition clock (gs : Rich.GameState)
    : Z * Shared.GameSettings * option Z * bool :=
  (Rich.gameStartTime gs, Rich.gameSettings gs, Rich.pauseStartTime gs,
   Rich.isPaused gs).

(** The actions of play: all but joining and pausing. *)
Definition isPlay (a : Action) : bool :=
  match a with
  | AJoin _ _ _ _ _ | APause _ => false
  | _ => true
  end.

End Session.

(** ** Basic facts about the two stores *)

Lemma simple_players_assign gs m :
  Simple.players (Simple.assignState gs (Simple.G_players m)) = m.
Proof. destruct gs; reflexivity. Qed.

Lemma rich_players_assign gs m :
  Rich.players (Rich.assignState gs (Rich.G_players m)) = m.
Proof. destruct gs; reflexivity. Qed.

Lemma simple_updatePlayer_eq now pid updates prev player :
  Simple.players prev !! pid = Some player ->
  Simple.updatePlayer now pid updates prev =
  Simple.assignState prev
    (Simple.G_players
       (<[pid := simple_updated now player updates]> (Simple.players prev))).
Proof. intros H. unfold Simple.updatePlayer. rewrite H. reflexivity. Qed.

Lemma rich_updatePlayer_eq now pid updates prev player :
  Rich.players prev !! pid = Some player ->
  Rich.updatePlayer now pid updates prev =
  Rich.assignState prev
    (Rich.G_players
       (<[pid := rich_updated now player updates]> (Rich.players prev))).
Proof. intros H. unfold Rich.updatePlayer. rewrite H. reflexivity. Qed.

Lemma simple_updatePlayer_missing now pid updates prev :
  Simple.players prev !! pid = None ->
  Simple.updatePlayer now pid updates prev = prev.
Proof. intros H. unfold Simple.updatePlayer. rewrite H. reflexivity. Qed.

Lemma rich_updatePlayer_missing now pid updates prev :
  Rich.players prev !! pid = None ->
  Rich.updatePlayer now pid updates prev = prev.
Proof. intros H. unfold Rich.updatePlayer. rewrite H. reflexivity. Qed.

Lemma simple_updatePlayer_lookup now pid updates prev player :
  Simple.players prev !! pid = Some player ->
  Simple.players (Simple.updatePlayer now pid updates prev) !! pid
  = Some (simple_updated now player updates).
Proof.
  intros H. rewrite (simple_updatePlayer_eq _ _ _ _ _ H).
  rewrite simple_players_assign. apply lookup_insert_eq.
Qed.

Lemma rich_updatePlayer_lookup now pid updates prev player :
  Rich.players prev !! pid = Some player ->
  Rich.players (Rich.updatePlayer now pid updates prev) !! pid
  = Some (rich_updated now player updates).
Proof.
  intros H. rewrite (rich_updatePlayer_eq _ _ _ _ _ H).
  rewrite rich_players_assign. apply lookup_insert_eq.
Qed.

Lemma simple_updatePlayer_other now pid updates prev k :
  k <> pid ->
  Simple.players (Simple.updatePlayer now pid updates prev) !! k
  = Simple.players prev !! k.
Proof.
  intros Hk. unfold Simple.updatePlayer.
  destruct (Simple.players prev !! pid) eqn:E; [|reflexivity].
  rewrite simple_players_assign. apply lookup_insert_ne. congruence.
Qed.

Lemma rich_updatePlayer_other now pid updates prev k :
  k <> pid ->
  Rich.players (Rich.updatePlayer now pid updates prev) !! k
  = Rich.players prev !! k.
Proof.
  intros Hk. unfold Rich.updatePlayer.
  destruct (Rich.players prev !! pid) eqn:E; [|reflexivity].
  rewrite rich_players_assign. apply lookup_insert_ne. congruence.
Qed.

(** The stored record agrees with the spread on the three score inputs and
    carries their projection. *)
Lemma simple_updated_fields now player updates :
  let p' := simple_updated now player updates in
  let q := Simple.spread player updates in
  Simple.coins p' = Simple.coins q /\
  Simple.shells p' = Simple.shells q /\
  Simple.completedZones p' = Simple.completedZones q /\
  Simple.totalScore p' = Simple.scoreOf p'.
Proof.
  unfold simple_updated. destruct (Simple.spread player updates).
  repeat split.
Qed.

Lemma rich_updated_fields now player updates :
  let p' := rich_updated now player updates in
  let q := Rich.spread player updates in
  Rich.coins p' = Rich.coins q /\
  Rich.shells p' = Rich.shells q /\
  Rich.completedZones p' = Rich.completedZones q /\
  Rich.totalScore p' = Rich.scoreOf p'.
Proof.
  unfold rich_updated. destruct (Rich.spread player updates).
  repeat split.
Qed.

Lemma simple_updatePlayer_scoreInv now pid updates prev :
  simple_scoreInv prev ->
  simple_scoreInv (Simple.updatePlayer now pid updates prev).
Proof.
  intros Hinv k p Hk.
  destruct (decide (k = pid)) as [->|Hne].
  - destruct (Simple.players prev !! pid) as [player|] eqn:E.
    + rewrite (simple_updatePlayer_lookup _ _ _ _ _ E) in Hk.
      injection Hk as <-. apply simple_updated_fields.
    + rewrite simple_updatePlayer_missing in Hk by exact E. eauto.
  - rewrite simple_updatePlayer_other in Hk by exact Hne. eauto.
Qed.

Lemma rich_updatePlayer_scoreInv now pid updates prev :
  rich_scoreInv prev ->
  rich_scoreInv (Rich.updatePlayer now pid updates prev).
Proof.
  intros Hinv k p Hk.
  destruct (decide (k = pid)) as [->|Hne].
  - destruct (Rich.players prev !! pid) as [player|] eqn:E.
    + rewrite (rich_updatePlayer_lookup _ _ _ _ _ E) in Hk.
      injection Hk as <-. apply rich_updated_fields.
    + rewrite rich_updatePlayer_missing in Hk by exact E. eauto.
  - rewrite rich_updatePlayer_other in Hk by exact Hne. eauto.
Qed.

(** New players start with score 0 and nothing to project it from. *)
Lemma simple_addPlayer_scoreInv now suffix name color prev :
  simple_scoreInv prev ->
  simple_scoreInv (Simple.addPlayer now suffix name color prev).
Proof.
  intros Hinv k p. unfold Simple.addPlayer.
  rewrite simple_players_assign, lookup_insert.
  case_decide; [intros [= <-]; reflexivity | eauto].
Qed.

Lemma rich_addPlayer_scoreInv now suffix name color prev :
  rich_scoreInv prev ->
  rich_scoreInv (Rich.addPlayer now suffix name color prev).
Proof.
  intros Hinv k p. unfold Rich.addPlayer.
  rewrite rich_players_assign, lookup_insert.
  case_decide; [intros [= <-]; reflexivity | eauto].
Qed.

(** C1. In both variants, after [updatePlayer] the stored player has
    [totalScore = coins*2 + shells*5 + completedZones.length*10], computed
    from the coins, shells and completed zones that result from the spread:
    whatever [totalScore] the caller put in the updates is discarded.  The
    equation holds for every player of the session after every such
    mutation, and for every newly added player. *)
Theorem C1_totalScore_is_projection :
  (forall now pid updates prev player,
     Simple.players prev !! pid = Some player ->
     exists p',
       Simple.players (Simple.updatePlayer now pid updates prev) !! pid
       = Some p' /\
       Simple.coins p' = Simple.coins (Simple.spread player updates) /\
       Simple.shells p' = Simple.shells (Simple.spread player updates) /\
       Simple.completedZones p'
       = Simple.completedZones (Simple.spread player updates) /\
       Simple.totalScore p'
       = Simple.coins p' * 2 + Simple.shells p' * 5
         + Z.of_nat (length (Simple.completedZones p')) * 10) /\
  (forall now pid updates prev,
     simple_scoreInv prev ->
     simple_scoreInv (Simple.updatePlayer now pid updates prev)) /\
  (forall now pid updates prev player,
     Rich.players prev !! pid = Some player ->
     exists p',
       Rich.players (Rich.updatePlayer now pid updates prev) !! pid
       = Some p' /\
       Rich.coins p' = Rich.coins (Rich.spread player updates) /\
       Rich.shells p' = Rich.shells (Rich.spread player updates) /\
       Rich.completedZones p'
       = Rich.completedZones (Rich.spread player updates) /\
       Rich.totalScore p'
       = Rich.coins p' * 2 + Rich.shells p' * 5
         + Z.of_nat (length (Rich.completedZones p')) * 10) /\
  (forall now pid updates prev,
     rich_scoreInv prev ->
     rich_scoreInv (Rich.updatePlayer now pid updates prev)).
Proof.
  repeat split.
  - intros now pid updates prev player H.
    exists (simple_updated now player updates).
    split; [exact (simple_updatePlayer_lookup _ _ _ _ _ H)|].
    apply simple_updated_fields.
  - intros; now apply simple_updatePlayer_scoreInv.
  - intros now pid updates prev player H.
    exists (rich_updated now player updates).
    split; [exact (rich_updatePlayer_lookup _ _ _ _ _ H)|].
    apply rich_updated_fields.
  - intros; now apply rich_updatePlayer_scoreInv.
Qed.

Lemma C1_totalScore_is_projection_witness :
  (exists p',
     Simple.players
       (Simple.updatePlayer 7 "player_a"
          [Simple.F_coins 3; Simple.F_totalScore 999] simple_demo)
       !! "player_a" = Some p' /\ Simple.totalScore p' = 6) /\
  (exists p',
     Rich.players
       (Rich.updatePlayer 7 "player_a"
          [Rich.F_shells 2; Rich.F_totalScore 999] rich_demo)
       !! "player_a" = Some p' /\ Rich.totalScore p' = 10).
Proof.
  destruct C1_totalScore_is_projection as (HS & _ & HR & _).
  split.
  - destruct (HS 7 "player_a" [Simple.F_coins 3; Simple.F_totalScore 999]
                simple_demo simple_ann eq_refl)
      as (p' & Hl & Hc & Hs & Hz & Ht).
    exists p'. split; [exact Hl|]. rewrite Ht, Hc, Hs, Hz. reflexivity.
  - destruct (HR 7 "player_a" [Rich.F_shells 2; Rich.F_totalScore 999]
                rich_demo rich_ann eq_refl)
      as (p' & Hl & Hc & Hs & Hz & Ht).
    exists p'. split; [exact Hl|]. rewrite Ht, Hc, Hs, Hz. reflexivity.
Defined.

(** ** Sample runs *)

Example rarity_boundaries :
  Cards.selectRarity 0 = "common" /\ Cards.selectRarity 50 = "common" /\
  Cards.selectRarity 80 = "rare" /\ Cards.selectRarity 95 = "epic" /\
  Cards.selectRarity (951 # 10) = "legendary".
Proof. repeat split. Qed.

Example draw_dolphin_help :
  Cards.card_id <$> Cards.randomCard (1 # 4) (1 # 2) = Some "dolphin_help".
Proof. reflexivity. Qed.

Example ready_player_enters_before_expiry :
  snd <$> Rich.templeClick 60000 rich_ready = Some ["success"] /\
  snd <$> Rich.zoneClick 60000 rich_ready "coral" = Some ["click"] /\
  snd <$> Simple.templeClick 60000 simple_ready = Some ["success"] /\
  snd <$> Simple.zoneClick 60000 simple_ready "coral" = Some ["click"].
Proof. repeat split. Qed.

Example warning_fires_in_window :
  (Rich.tick 1500500 rich_demo Rich.initialTimer).2 = ["warning"] /\
  (Rich.tick 1501500 rich_demo
     (Rich.tick 1500500 rich_demo Rich.initialTimer).1).2 = [].
Proof. split; reflexivity. Qed.

(** ** The rarity walk *)

Lemma selectRarity_cases (r : Q) :
  Cards.selectRarity r =
  if Qle_bool r 50 then "common"
  else if Qle_bool r 80 then "rare"
  else if Qle_bool r 95 then "epic"
  else if Qle_bool r 100 then "legendary"
  else "common".
Proof. reflexivity. Qed.

Lemma Qle_bool_false (x y : Q) : Qle_bool x y = false <-> (y < x)%Q.
Proof.
  split; intros H.
  - apply Qnot_le_lt. intros Hle. apply Qle_bool_iff in Hle. congruence.
  - destruct (Qle_bool x y) eqn:E; [|reflexivity].
    apply Qle_bool_iff in E. exfalso. exact (Qlt_not_le _ _ H E).
Qed.

(** C5. The draw is [r = Math.random() * 100], so [0 <= r < 100]; the walk
    over common, rare, epic, legendary with cumulative weights 50, 80, 95,
    100 takes the first rarity with [r <= cumulative].  Hence common is
    selected exactly on [0, 50], rare on (50, 80], epic on (80, 95] and
    legendary on (95, 100): consecutive intervals of lengths 50, 30, 15 and
    5, each boundary value going to the earlier rarity. *)
Theorem C5_rarity_selection (u : Q) :
  (0 <= u)%Q -> (u < 1)%Q ->
  let r := Cards.drawRandom u in
  Cards.rarityWeights
  = [("common", 50); ("rare", 30); ("epic", 15); ("legendary", 5)] /\
  (0 <= r)%Q /\ (r < 100)%Q /\
  (Cards.selectRarity r = "common" <-> (r <= 50)%Q) /\
  (Cards.selectRarity r = "rare" <-> (50 < r)%Q /\ (r <= 50 + 30)%Q) /\
  (Cards.selectRarity r = "epic" <-> (50 + 30 < r)%Q /\ (r <= 50 + 30 + 15)%Q) /\
  (Cards.selectRarity r = "legendary" <-> (50 + 30 + 15 < r)%Q).
Proof.
  intros H0 H1 r.
  assert (Hr : r = (u * (100 # 1))%Q) by reflexivity.
  assert (Hr0 : (0 <= r)%Q) by (rewrite Hr; lra).
  assert (Hr1 : (r < 100)%Q) by (rewrite Hr; lra).
  clearbody r. clear Hr.
  split; [reflexivity|]. split; [exact Hr0|]. split; [exact Hr1|].
  rewrite selectRarity_cases.
  destruct (Qle_bool r 50) eqn:E50;
    [apply Qle_bool_iff in E50 | apply Qle_bool_false in E50];
  (destruct (Qle_bool r 80) eqn:E80;
    [apply Qle_bool_iff in E80 | apply Qle_bool_false in E80]);
  (destruct (Qle_bool r 95) eqn:E95;
    [apply Qle_bool_iff in E95 | apply Qle_bool_false in E95]);
  (destruct (Qle_bool r 100) eqn:E100;
    [apply Qle_bool_iff in E100 | apply Qle_bool_false in E100]);
  repeat split; intros; try discriminate; try lra; try reflexivity;
  try (exfalso; lra).
Qed.

Lemma C5_rarity_selection_witness :
  Cards.selectRarity (Cards.drawRandom (1 # 2)) = "common" /\
  Cards.selectRarity (Cards.drawRandom (4 # 5)) = "rare".
Proof.
  split.
  - apply (C5_rarity_selection (1 # 2)); [vm_compute; discriminate
      | vm_compute; reflexivity | vm_compute; discriminate].
  - apply (C5_rarity_selection (4 # 5)); [vm_compute; discriminate
      | vm_compute; reflexivity | split; vm_compute; [reflexivity | discriminate]].
Defined.

(** ** Leaderboard *)

(** C3. The comparator puts every winner before every non-winner; among
    winners the smaller [winTime || 0] comes first and equal times are
    ordered by descending [totalScore]; among non-winners the larger
    [totalScore] comes first and equal scores are ordered by ascending
    [lastActive].  "At or before" is transitive and any two players are
    comparable, so no cycle can arise. *)
Theorem C3_leaderboard_order :
  (forall a b, Rich.isWinner a = true -> Rich.isWinner b = false ->
     Rich.compare a b < 0 /\ Rich.compare b a > 0) /\
  (forall a b, Rich.isWinner a = true -> Rich.isWinner b = true ->
     (JS.or0 (Rich.winTime a) < JS.or0 (Rich.winTime b) ->
      Rich.compare a b < 0) /\
     (JS.or0 (Rich.winTime a) = JS.or0 (Rich.winTime b) ->
      Rich.compare a b = Rich.totalScore b - Rich.totalScore a)) /\
  (forall a b, Rich.isWinner a = false -> Rich.isWinner b = false ->
     (Rich.totalScore a > Rich.totalScore b -> Rich.compare a b < 0) /\
     (Rich.totalScore a = Rich.totalScore b ->
      Rich.compare a b = Rich.lastActive a - Rich.lastActive b)) /\
  (forall a b c, Rich.atOrBefore a b -> Rich.atOrBefore b c ->
     Rich.atOrBefore a c) /\
  (forall a b, Rich.atOrBefore a b \/ Rich.atOrBefore b a).
Proof.
  unfold Rich.atOrBefore, Rich.compare.
  repeat split.
  - rewrite H, H0. simpl. lia.
  - rewrite H, H0. simpl. lia.
  - intros Hlt. rewrite H, H0. simpl.
    destruct (Z.eqb_spec (JS.or0 (Rich.winTime a)) (JS.or0 (Rich.winTime b)));
      simpl; lia.
  - intros Heq. rewrite H, H0. simpl.
    destruct (Z.eqb_spec (JS.or0 (Rich.winTime a)) (JS.or0 (Rich.winTime b)));
      simpl; [reflexivity | contradiction].
  - intros Hgt. rewrite H, H0. simpl.
    destruct (Z.eqb_spec (Rich.totalScore a) (Rich.totalScore b)); simpl; lia.
  - intros Heq. rewrite H, H0. simpl.
    destruct (Z.eqb_spec (Rich.totalScore a) (Rich.totalScore b));
      simpl; [reflexivity | contradiction].
  - intros a b c.
    destruct (Rich.isWinner a), (Rich.isWinner b), (Rich.isWinner c); simpl;
      repeat match goal with
             | |- context [Z.eqb ?x ?y] => destruct (Z.eqb_spec x y); simpl
             end; lia.
  - intros a b.
    destruct (Rich.isWinner a), (Rich.isWinner b); simpl;
      repeat match goal with
             | |- context [Z.eqb ?x ?y] => destruct (Z.eqb_spec x y); simpl
             end; lia.
Qed.

Lemma C3_leaderboard_order_witness :
  Rich.compare lb_second lb_third < 0 /\
  Rich.compare lb_first lb_second < 0 /\
  Rich.compare lb_third lb_fourth = -100 /\
  Rich.atOrBefore lb_first lb_fourth.
Proof.
  destruct C3_leaderboard_order as (Hw & Hww & Hnn & Htrans & _).
  split; [apply (Hw lb_second lb_third); reflexivity|].
  split; [apply (Hww lb_first lb_second); reflexivity|].
  split; [apply (Hnn lb_third lb_fourth); reflexivity|].
  apply (Htrans lb_first lb_third lb_fourth);
    unfold Rich.atOrBefore; vm_compute; discriminate.
Defined.

(** ** The game clock *)

Lemma or0_Some (n : Z) : JS.or0 (Some n) = n.
Proof.
  unfold JS.or0, JS.truthy_num. destruct (Z.eqb_spec n 0); simpl; lia.
Qed.

(** Outside a pause no pause start is recorded: true of the initial state
    and kept by [handlePause]. *)
Lemma handlePause_keeps_pause_marker now gs :
  (Rich.isPaused gs = false -> Rich.pauseStartTime gs = None) ->
  Rich.isPaused (Rich.handlePause now gs).1 = false ->
  Rich.pauseStartTime (Rich.handlePause now gs).1 = None.
Proof.
  destruct gs as [pg ps cp gw st se wt ip pst]; simpl.
  unfold Rich.handlePause; simpl. destruct ip; simpl; [reflexivity|].
  discriminate.
Qed.

(** C7. Pausing at [tp] and resuming at [tr] (any duration [tr - tp]):
    while paused a tick changes nothing; the resume moves [gameStartTime]
    forward by exactly [tr - tp]; the remaining time computed right after
    the resume equals the one computed at the moment of the pause, both in
    the timer and on the map page. *)
Theorem C7_pause_resume (gs : Rich.GameState) (t : Rich.TimerState)
    (tp tr : Z) :
  Rich.isPaused gs = false ->
  Rich.pauseStartTime gs = None ->
  let paused := (Rich.handlePause tp gs).1 in
  let resumed := (Rich.handlePause tr paused).1 in
  let t' := Rich.resumeEffect tr resumed t in
  Rich.isPaused paused = true /\
  (forall now, Rich.tick now paused t = (t, [])) /\
  Rich.isPaused resumed = false /\
  Rich.gameStartTime resumed = Rich.gameStartTime gs + (tr - tp) /\
  Rich.remaining tr resumed t' = Rich.remaining tp gs t /\
  Rich.timeLeft (Rich.tick tr resumed t').1
  = Rich.timeLeft (Rich.tick tp gs t).1 /\
  Rich.mapTimeLeft tr resumed = Rich.mapTimeLeft tp gs.
Proof.
  destruct gs as [pg ps cp gw st se wt ip pst]; simpl.
  intros -> ->.
  unfold Rich.handlePause; simpl. rewrite or0_Some.
  unfold Rich.resumeEffect, Rich.tick, Rich.remaining, Rich.mapTimeLeft; simpl.
  repeat split; f_equal; lia.
Qed.

Lemma C7_pause_resume_witness :
  Rich.remaining 965000
    (Rich.handlePause 965000 (Rich.handlePause 5000 rich_demo).1).1
    (Rich.resumeEffect 965000
       (Rich.handlePause 965000 (Rich.handlePause 5000 rich_demo).1).1
       Rich.initialTimer)
  = Rich.remaining 5000 rich_demo Rich.initialTimer.
Proof.
  apply (C7_pause_resume rich_demo Rich.initialTimer 5000 965000);
    reflexivity.
Defined.

(** A tick that finds the countdown at zero always plays the time-up cue:
    nothing records that it has been played. *)
Lemma tick_timeup_unguarded now gs t :
  Rich.isPaused gs = false ->
  Rich.remaining now gs t = 0 ->
  (Rich.tick now gs t).2 = ["timeup"].
Proof.
  intros Hp Hr. unfold Rich.tick. rewrite Hp, Hr. reflexivity.
Qed.

(** The warning cue is guarded by [hasWarned]. *)
Lemma tick_warning_guarded now gs t :
  Rich.hasWarned t = true ->
  ("warning" ∉ (Rich.tick now gs t).2) /\
  Rich.hasWarned (Rich.tick now gs t).1 = true.
Proof.
  intros Hw. unfold Rich.tick. destruct (Rich.isPaused gs); simpl.
  - split; [apply not_elem_of_nil | exact Hw].
  - rewrite Hw, andb_false_r. simpl. split; [|reflexivity].
    destruct (Rich.remaining now gs t =? 0); simpl.
    + intros Hin. apply list_elem_of_singleton in Hin. discriminate.
    + apply not_elem_of_nil.
Qed.

Lemma cueCount_app cue l1 l2 :
  cueCount cue (l1 ++ l2) = (cueCount cue l1 + cueCount cue l2)%nat.
Proof. unfold cueCount. rewrite filter_app, length_app. reflexivity. Qed.

Lemma runTicks_warned_silent times gs t :
  Rich.hasWarned t = true ->
  cueCount "warning" (runTicks times gs t).2 = 0%nat.
Proof.
  revert t. induction times as [|now times IH]; intros t Hw; [reflexivity|].
  simpl. destruct (tick_warning_guarded now gs t Hw) as [Hn Hw'].
  rewrite cueCount_app, (IH _ Hw'), Nat.add_0_r.
  unfold cueCount. destruct (filter _ _) as [|c l] eqn:E; [reflexivity|].
  exfalso. apply Hn.
  assert (Hin : c ∈ filter (fun c => c = "warning") (Rich.tick now gs t).2)
    by (rewrite E; left).
  apply list_elem_of_filter in Hin as [-> Hin]. exact Hin.
Qed.

(** Within one mounted timer the warning cue is played at most once,
    whatever the clock values of the ticks. *)
Lemma warning_at_most_once times gs t :
  (cueCount "warning" (runTicks times gs t).2 <= 1)%nat.
Proof.
  revert t. induction times as [|now times IH]; intros t;
    [unfold cueCount; simpl; lia|].
  simpl. rewrite cueCount_app.
  destruct (decide ("warning" ∈ (Rich.tick now gs t).2)) as [Hin|Hn].
  - assert (Hw : Rich.hasWarned (Rich.tick now gs t).1 = true).
    { revert Hin. unfold Rich.tick.
      destruct (Rich.isPaused gs); simpl; [intros H; inversion H|].
      destruct (_ && _ && _); simpl; [reflexivity|].
      destruct (_ =? 0); intros H; [|inversion H].
      apply list_elem_of_singleton in H. discriminate. }
    rewrite (runTicks_warned_silent _ _ _ Hw), Nat.add_0_r.
    unfold Rich.tick. destruct (Rich.isPaused gs); [vm_compute; lia|].
    destruct (_ && _ && _); destruct (_ =? 0); vm_compute; lia.
  - assert (H0 : cueCount "warning" (Rich.tick now gs t).2 = 0%nat).
    { unfold cueCount. destruct (filter _ _) as [|c l] eqn:E; [reflexivity|].
      exfalso. apply Hn.
      assert (Hin : c ∈ filter (fun c => c = "warning") (Rich.tick now gs t).2)
        by (rewrite E; left).
      apply list_elem_of_filter in Hin as [-> Hin]. exact Hin. }
    rewrite H0. apply IH.
Qed.

(** C8 (time-up part fails). With the 30 minute limit and the game started
    at time 0, the ticks at 1800000, 1801000 and 1802000 ms each find the
    countdown at zero and each play the time-up cue. *)
Theorem C8_timeup_refired_every_tick :
  let r1 := Rich.tick 1800000 rich_demo Rich.initialTimer in
  let r2 := Rich.tick 1801000 rich_demo r1.1 in
  let r3 := Rich.tick 1802000 rich_demo r2.1 in
  (Rich.timeLeft r1.1 = 0 /\ r1.2 = ["timeup"]) /\
  (Rich.timeLeft r2.1 = 0 /\ r2.2 = ["timeup"]) /\
  (Rich.timeLeft r3.1 = 0 /\ r3.2 = ["timeup"]).
Proof. vm_compute. repeat split. Qed.

(** ** Entry gates of the map page *)

(** C9 (fails). The map page reads the clock once, while it renders, and
    the click handlers use the [gameEnded] computed then.  With the 30
    minute limit and the game started at time 0, take the page rendered one
    minute into the game for a player who has just joined, and no change of
    the game state since: at 1801000 ms the countdown is at zero (the
    timer's tick finds zero and plays the time-up cue, and a page rendered
    now would find zero too), yet a click on the coral zone runs the
    handler of the earlier render and opens the zone.  The same holds in
    the simpler variant, and for the temple button of a player who holds
    the coins and shells it asks for.  Besides, a join after expiry
    restarts the clock, after which entry is open again on a fresh render
    as well. *)
Theorem C9_click_after_expiry_accepted :
  let renderNow := 60000 in
  let clickNow := 1801000 in
  (Rich.mapTimeLeft clickNow rich_demo = 0 /\
   Rich.tick clickNow rich_demo Rich.initialTimer
   = (Rich.mkTimer 0 false 0, ["timeup"]) /\
   Rich.zoneClick renderNow rich_demo "coral"
   = Some (Rich.updateGameState [Rich.G_currentPage "zone-coral"] rich_demo,
           ["click"])) /\
  (Simple.timeLeft clickNow simple_demo = 0 /\
   Simple.zoneClick renderNow simple_demo "coral"
   = Some (Simple.updateGameState [Simple.G_currentPage "zone-coral"]
             simple_demo, ["click"])) /\
  (Rich.mapTimeLeft clickNow rich_ready = 0 /\
   Rich.templeClick renderNow rich_ready
   = Some (Rich.updateGameState [Rich.G_currentPage "temple"] rich_ready,
           ["success"]) /\
   Simple.timeLeft clickNow simple_ready = 0 /\
   Simple.templeClick renderNow simple_ready
   = Some (Simple.updateGameState [Simple.G_currentPage "temple"]
             simple_ready, ["success"])) /\
  (let joined :=
     Setup.joinTimeout 1900000
       (Setup.handleJoinGame 1899000 "b" "Bob" "blue" rich_demo).1 in
   Rich.mapTimeLeft 1899000 rich_demo = 0 /\
   Rich.mapTimeLeft 1901000 joined = 1799000 /\
   Rich.zoneClick 1901000 joined "coral"
   = Some (Rich.updateGameState [Rich.G_currentPage "zone-coral"] joined,
           ["click"])).
Proof. vm_compute. repeat split. Qed.

(** ** Card draws *)

Lemma simple_updated_actionChances now p updates :
  Simple.actionChances (simple_updated now p updates)
  = Simple.actionChances (Simple.spread p updates).
Proof. unfold simple_updated. destruct (Simple.spread p updates); reflexivity. Qed.

Lemma rich_updated_actionChances now p updates :
  Rich.actionChances (rich_updated now p updates)
  = Rich.actionChances (Rich.spread p updates).
Proof. unfold rich_updated. destruct (Rich.spread p updates); reflexivity. Qed.

(** What the update object of a draw does to [actionChances]. *)
Lemma simple_cardUpdates_actionChances p zoneId c :
  Simple.actionChances (Simple.spread p (Simple.cardUpdates p zoneId c))
  = if String.eqb (Cards.card_type c) "action"
    then Simple.actionChances p + Cards.card_amount c
    else Simple.actionChances p - 1.
Proof.
  unfold Simple.cardUpdates.
  destruct (String.eqb_spec (Cards.card_type c) "coins") as [E|_];
    [rewrite E; destruct p; reflexivity|].
  destruct (String.eqb_spec (Cards.card_type c) "shells") as [E|_];
    [rewrite E; destruct p; reflexivity|].
  destruct (String.eqb_spec (Cards.card_type c) "bonus") as [E|_];
    [rewrite E; destruct p; reflexivity|].
  destruct (String.eqb (Cards.card_type c) "action"); destruct p; reflexivity.
Qed.

Lemma rich_cardUpdates_actionChances p zoneId c :
  Rich.actionChances (Rich.spread p (Rich.cardUpdates p zoneId c))
  = if String.eqb (Cards.card_type c) "action"
    then Rich.actionChances p + Cards.card_amount c
    else Rich.actionChances p - 1.
Proof.
  unfold Rich.cardUpdates.
  destruct (String.eqb_spec (Cards.card_type c) "coins") as [E|_];
    [rewrite E; destruct p; reflexivity|].
  destruct (String.eqb_spec (Cards.card_type c) "shells") as [E|_];
    [rewrite E; destruct p; reflexivity|].
  destruct (String.eqb_spec (Cards.card_type c) "bonus") as [E|_];
    [rewrite E; destruct p; reflexivity|].
  destruct (String.eqb (Cards.card_type c) "action"); destruct p; reflexivity.
Qed.

(** The player stored after a whole draw: the reward update, then the
    collection and log updates queued by [addCard] and [addLog]. *)
Lemma simple_applyCard_lookup now zoneId gs p c :
  Simple.players gs !! Simple.id p = Some p ->
  exists cards entries,
    Simple.players (Simple.applyCard now zoneId gs p c) !! Simple.id p
    = Some (simple_updated now
              (simple_updated now
                 (simple_updated now p (Simple.cardUpdates p zoneId c))
                 [Simple.F_collectedCards cards])
              [Simple.F_log entries]).
Proof.
  intros Hp. unfold Simple.applyCard, Simple.addLog, Simple.addCard.
  rewrite Hp. eexists _, _.
  erewrite simple_updatePlayer_lookup; [reflexivity|].
  erewrite simple_updatePlayer_lookup; [reflexivity|].
  apply simple_updatePlayer_lookup. exact Hp.
Qed.

Lemma rich_applyCard_lookup now zoneId gs p c :
  Rich.players gs !! Rich.id p = Some p ->
  exists cards entries,
    Rich.players (Rich.applyCard now zoneId gs p c) !! Rich.id p
    = Some (rich_updated now
              (rich_updated now
                 (rich_updated now p (Rich.cardUpdates p zoneId c))
                 [Rich.F_collectedCards cards])
              [Rich.F_log entries]).
Proof.
  intros Hp. unfold Rich.applyCard, Rich.addLog, Rich.addCard.
  rewrite Hp. eexists _, _.
  erewrite rich_updatePlayer_lookup; [reflexivity|].
  erewrite rich_updatePlayer_lookup; [reflexivity|].
  apply rich_updatePlayer_lookup. exact Hp.
Qed.

Lemma simple_actionChances_collected now q cards :
  Simple.actionChances (simple_updated now q [Simple.F_collectedCards cards])
  = Simple.actionChances q.
Proof. destruct q; reflexivity. Qed.

Lemma simple_actionChances_log now q entries :
  Simple.actionChances (simple_updated now q [Simple.F_log entries])
  = Simple.actionChances q.
Proof. destruct q; reflexivity. Qed.

Lemma rich_actionChances_collected now q cards :
  Rich.actionChances (rich_updated now q [Rich.F_collectedCards cards])
  = Rich.actionChances q.
Proof. destruct q; reflexivity. Qed.

Lemma rich_actionChances_log now q entries :
  Rich.actionChances (rich_updated now q [Rich.F_log entries])
  = Rich.actionChances q.
Proof. destruct q; reflexivity. Qed.

(** C10. In both variants a draw leaves the player with
    [actionChances = old + amount] when the card's type is 'action' (the
    update object first carries [old - 1], and the entry written by the
    action branch replaces it; nothing caps the sum), and with [old - 1] for
    every other card type. *)
Theorem C10_action_card_net_gain :
  (forall now u1 u2 zoneId gs p c,
     Simple.currentPlayerOf gs = Some p ->
     Simple.players gs !! Simple.id p = Some p ->
     Cards.randomCard u1 u2 = Some c ->
     (Cards.card_type c = "action" ->
      exists zones,
        Simple.cardUpdates p zoneId c
        = [ Simple.F_actionChances (Simple.actionChances p - 1);
            Simple.F_completedZones zones;
            Simple.F_actionChances
              (Simple.actionChances p + Cards.card_amount c) ]) /\
     exists p',
       Simple.players (Simple.handleCardDraw now u1 u2 zoneId gs)
         !! Simple.id p = Some p' /\
       Simple.actionChances p'
       = if String.eqb (Cards.card_type c) "action"
         then Simple.actionChances p + Cards.card_amount c
         else Simple.actionChances p - 1) /\
  (forall now u1 u2 zoneId gs p c,
     Rich.currentPlayerOf gs = Some p ->
     Rich.players gs !! Rich.id p = Some p ->
     Cards.randomCard u1 u2 = Some c ->
     (Cards.card_type c = "action" ->
      exists score zones,
        Rich.cardUpdates p zoneId c
        = [ Rich.F_actionChances (Rich.actionChances p - 1);
            Rich.F_totalScore score;
            Rich.F_completedZones zones;
            Rich.F_actionChances
              (Rich.actionChances p + Cards.card_amount c) ]) /\
     exists p',
       Rich.players (Rich.handleCardDraw now u1 u2 zoneId gs)
         !! Rich.id p = Some p' /\
       Rich.actionChances p'
       = if String.eqb (Cards.card_type c) "action"
         then Rich.actionChances p + Cards.card_amount c
         else Rich.actionChances p - 1).
Proof.
  split; intros now u1 u2 zoneId gs p c Hcur Hp Hc.
  - split.
    + intros Hty. unfold Simple.cardUpdates. rewrite Hty. simpl.
      eexists. reflexivity.
    + unfold Simple.handleCardDraw. rewrite Hcur, Hc.
      destruct (simple_applyCard_lookup now zoneId gs p c Hp)
        as (cards & entries & Hl).
      eexists. split; [exact Hl|].
      rewrite simple_actionChances_log, simple_actionChances_collected,
        simple_updated_actionChances.
      apply simple_cardUpdates_actionChances.
  - split.
    + intros Hty. unfold Rich.cardUpdates. rewrite Hty. simpl.
      eexists _, _. reflexivity.
    + unfold Rich.handleCardDraw. rewrite Hcur, Hc.
      destruct (rich_applyCard_lookup now zoneId gs p c Hp)
        as (cards & entries & Hl).
      eexists. split; [exact Hl|].
      rewrite rich_actionChances_log, rich_actionChances_collected,
        rich_updated_actionChances.
      apply rich_cardUpdates_actionChances.
Qed.

Lemma C10_action_card_net_gain_witness :
  (exists p',
     Simple.players (Simple.handleCardDraw 9 (1 # 4) (1 # 2) "cave" simple_demo)
       !! "player_a" = Some p' /\ Simple.actionChances p' = 5 + 1) /\
  (exists p',
     Simple.players (Simple.handleCardDraw 9 (1 # 4) 0 "cave" simple_demo)
       !! "player_a" = Some p' /\ Simple.actionChances p' = 5 - 1) /\
  (exists p',
     Rich.players (Rich.handleCardDraw 9 (1 # 4) (1 # 2) "cave" rich_demo)
       !! "player_a" = Some p' /\ Rich.actionChances p' = 5 + 1) /\
  (exists p',
     Rich.players (Rich.handleCardDraw 9 (1 # 4) 0 "cave" rich_demo)
       !! "player_a" = Some p' /\ Rich.actionChances p' = 5 - 1).
Proof.
  destruct C10_action_card_net_gain as (HS & HR).
  split; [|split; [|split]].
  - destruct (HS 9 (1 # 4)%Q (1 # 2)%Q "cave" simple_demo simple_ann
                (Cards.mkCard "dolphin_help" "action" 1 "common")
                eq_refl eq_refl eq_refl) as (_ & p' & Hl & Ha).
    exists p'. split; [exact Hl | exact Ha].
  - destruct (HS 9 (1 # 4)%Q 0%Q "cave" simple_demo simple_ann
                (Cards.mkCard "golden_shell" "coins" 3 "common")
                eq_refl eq_refl eq_refl) as (_ & p' & Hl & Ha).
    exists p'. split; [exact Hl | exact Ha].
  - destruct (HR 9 (1 # 4)%Q (1 # 2)%Q "cave" rich_demo rich_ann
                (Cards.mkCard "dolphin_help" "action" 1 "common")
                eq_refl eq_refl eq_refl) as (_ & p' & Hl & Ha).
    exists p'. split; [exact Hl | exact Ha].
  - destruct (HR 9 (1 # 4)%Q 0%Q "cave" rich_demo rich_ann
                (Cards.mkCard "golden_shell" "coins" 3 "common")
                eq_refl eq_refl eq_refl) as (_ & p' & Hl & Ha).
    exists p'. split; [exact Hl | exact Ha].
Defined.

(** ** Score of a correct answer *)

(** For every correct answer in a question zone the stored score moves by
    twice the coin reward plus five times the shell reward, plus ten when
    the answer completes the zone: the difficulty bonus the handler asked
    for is not part of it. *)
Lemma correct_answer_score now zoneId gs zs p k q :
  Rich.currentPlayerOf gs = Some p ->
  Rich.players gs !! Rich.id p = Some p ->
  Rich.currentQuestion zs = Some (k, q) ->
  Rich.selectedAnswer zs = Some (Shared.answer q) ->
  zoneId = "coral" \/ zoneId = "volcano" \/ zoneId = "kelp" ->
  Rich.totalScore p = Rich.scoreOf p ->
  exists p',
    Rich.players (Rich.handleQuestionAnswer now zoneId gs zs).1.1
      !! Rich.id p = Some p' /\
    Rich.totalScore p' - Rich.totalScore p
    <> Rich.baseScore (Shared.difficulty q).
Proof.
  intros Hc Hp Hq Hs Hz Hinv. unfold Rich.handleQuestionAnswer.
  rewrite Hs, Hq, Hc, Z.eqb_refl.
  destruct Hz as [->|[->| ->]]; cbv zeta; simpl String.eqb; simpl orb;
    cbv iota beta; unfold Rich.addLog; rewrite Hp; simpl fst.
  all: eexists; split;
    [ erewrite rich_updatePlayer_lookup;
      [reflexivity | apply rich_updatePlayer_lookup, Hp] |].
  all: rewrite Hinv; destruct p as [i n c co sh cz zp aq ac lg ach ts la w wt cc];
    unfold rich_updated, Rich.scoreOf; simpl;
    destruct (_ && _); rewrite ?length_app; simpl;
    destruct (Shared.difficulty q); simpl; lia.
Qed.

(** C2 (fails on the code). A player with no coins, no shells and score 0
    is shown the hard coral question of index 2 and answers it correctly.
    The handler asks for [totalScore + 20], but [updatePlayer] stores the
    projection of the new counters: shells go from 0 to 3 and the score
    from 0 to 15, not to 20. *)
Theorem C2_hard_coral_scores_15 :
  Rich.presented rich_demo rich_coral_visit = Some 2%nat /\
  Rich.currentQuestion rich_coral_visit = Some (2%nat, Shared.mkQuestion 1 Shared.hard) /\
  Rich.currentPlayerOf rich_demo = Some rich_ann /\
  let r := Rich.handleQuestionAnswer 7 "coral" rich_demo rich_coral_visit in
  r.2 = ["success"] /\
  exists p',
    Rich.players r.1.1 !! "player_a" = Some p' /\
    Rich.shells p' = Rich.shells rich_ann + 3 /\
    Rich.totalScore p' = Rich.totalScore rich_ann + 15 /\
    Rich.totalScore p' <> Rich.totalScore rich_ann + 20.
Proof.
  split; [reflexivity|]. split; [reflexivity|]. split; [reflexivity|].
  split; [reflexivity|].
  eexists. split; [reflexivity|].
  split; [reflexivity|]. split; [reflexivity|]. discriminate.
Qed.

(** ** The temple *)

Lemma rich_gameWinner_assign_players gs m :
  Rich.gameWinner (Rich.assignState gs (Rich.G_players m)) = Rich.gameWinner gs
  /\ Rich.winnerTime (Rich.assignState gs (Rich.G_players m))
     = Rich.winnerTime gs
  /\ Rich.gameStartTime (Rich.assignState gs (Rich.G_players m))
     = Rich.gameStartTime gs
  /\ Rich.currentPlayer (Rich.assignState gs (Rich.G_players m))
     = Rich.currentPlayer gs
  /\ Rich.isPaused (Rich.assignState gs (Rich.G_players m))
     = Rich.isPaused gs.
Proof. destruct gs; repeat split. Qed.

(** [updatePlayer] touches nothing but the player map. *)
Lemma rich_updatePlayer_frame now pid updates gs :
  Rich.gameWinner (Rich.updatePlayer now pid updates gs) = Rich.gameWinner gs
  /\ Rich.winnerTime (Rich.updatePlayer now pid updates gs)
     = Rich.winnerTime gs
  /\ Rich.gameStartTime (Rich.updatePlayer now pid updates gs)
     = Rich.gameStartTime gs
  /\ Rich.currentPlayer (Rich.updatePlayer now pid updates gs)
     = Rich.currentPlayer gs
  /\ Rich.isPaused (Rich.updatePlayer now pid updates gs) = Rich.isPaused gs.
Proof.
  unfold Rich.updatePlayer. destruct (Rich.players gs !! pid).
  - apply rich_gameWinner_assign_players.
  - repeat split.
Qed.

Lemma truthy_str_Some (w : string) : w <> "" -> JS.truthy_str (Some w) = true.
Proof.
  intros Hw. unfold JS.truthy_str.
  destruct (String.eqb_spec w ""); [contradiction | reflexivity].
Qed.

(** Under [rich_keyed] the current player is stored under its own id. *)
Lemma rich_current_keyed gs p :
  rich_keyed gs -> Rich.currentPlayerOf gs = Some p ->
  Rich.players gs !! Rich.id p = Some p /\ Rich.id p <> "" /\
  Rich.currentPlayer gs = Some (Rich.id p).
Proof.
  intros Hk Hc. unfold Rich.currentPlayerOf in Hc.
  destruct (Rich.currentPlayer gs) as [cp|] eqn:Ecp; simpl in Hc;
    [|discriminate].
  destruct (negb (String.eqb cp "")); [|discriminate].
  destruct (Hk cp p Hc) as [Hid Hne]. subst cp. auto.
Qed.

(** An update that does not write the id keeps the store keyed. *)
Lemma rich_updatePlayer_keyed now pid updates gs :
  rich_keyed gs ->
  (forall player, Rich.players gs !! pid = Some player ->
     Rich.id (Rich.spread player updates) = Rich.id player) ->
  rich_keyed (Rich.updatePlayer now pid updates gs).
Proof.
  intros Hk Hid k p Hl.
  destruct (decide (k = pid)) as [->|Hne].
  - destruct (Rich.players gs !! pid) as [player|] eqn:E.
    + rewrite (rich_updatePlayer_lookup _ _ _ _ _ E) in Hl.
      injection Hl as <-. destruct (Hk pid player E) as [H1 H2].
      split; [|exact H2].
      transitivity (Rich.id (Rich.spread player updates));
        [|rewrite (Hid player eq_refl); exact H1].
      unfold rich_updated. destruct (Rich.spread player updates); reflexivity.
    + rewrite rich_updatePlayer_missing in Hl by exact E. eauto.
  - rewrite rich_updatePlayer_other in Hl by exact Hne. eauto.
Qed.

(** The two shapes of the state after [handleSubmit]: unchanged, or the
    winner's update on top of the winner registration (first completion) or
    of the state as it was (later completions). *)
Lemma handleSubmit_state now correct gs ts :
  (Rich.handleSubmit now correct gs ts).1.1 = gs \/
  exists p c s t,
    Rich.currentPlayerOf gs = Some p /\ correct = true /\
    Rich.hasPuzzle ts = true /\ Rich.finishes ts = true /\
    ((JS.truthy_str (Rich.gameWinner gs) = false /\
      (Rich.handleSubmit now correct gs ts).1.1
      = Rich.updatePlayer now (Rich.id p) (winUpdates now c s t)
          (Rich.updateGameState
             [ Rich.G_gameWinner (Some (Rich.id p));
               Rich.G_winnerTime (Some (now - Rich.gameStartTime gs)) ] gs))
     \/
     (JS.truthy_str (Rich.gameWinner gs) = true /\
      (Rich.handleSubmit now correct gs ts).1.1
      = Rich.updatePlayer now (Rich.id p) (winUpdates now c s t) gs)).
Proof.
  unfold Rich.handleSubmit.
  destruct (Rich.currentPlayerOf gs) as [p|] eqn:Ecur; [|left; reflexivity].
  destruct (Rich.hasPuzzle ts) eqn:Ep; simpl; [|left; reflexivity].
  destruct correct; [|left; reflexivity].
  destruct (Rich.finishes ts) eqn:Ef; [|left; reflexivity].
  right. exists p.
  destruct (JS.truthy_str (Rich.gameWinner gs)) eqn:Et; simpl.
  - eexists _, _, _. repeat split. right. split; reflexivity.
  - eexists _, _, _. repeat split. left. split; reflexivity.
Qed.

Lemma winUpdates_id now c s t player :
  Rich.id (Rich.spread player (winUpdates now c s t)) = Rich.id player.
Proof. destruct player; reflexivity. Qed.

Lemma winUpdates_won now c s t player :
  Rich.isWinner (rich_updated now player (winUpdates now c s t)) = true /\
  Rich.winTime (rich_updated now player (winUpdates now c s t)) = Some now.
Proof. destruct player; split; reflexivity. Qed.

Lemma rich_players_register gs w wt :
  Rich.players
    (Rich.updateGameState [Rich.G_gameWinner w; Rich.G_winnerTime wt] gs)
  = Rich.players gs.
Proof. destruct gs; reflexivity. Qed.

Lemma rich_keyed_same_players gs gs' :
  Rich.players gs' = Rich.players gs -> rich_keyed gs -> rich_keyed gs'.
Proof. intros E Hk k p. rewrite E. apply Hk. Qed.

Lemma handleSubmit_keyed now correct gs ts :
  rich_keyed gs -> rich_keyed (Rich.handleSubmit now correct gs ts).1.1.
Proof.
  intros Hk.
  destruct (handleSubmit_state now correct gs ts)
    as [->|(p & c & s & t & _ & _ & _ & _ & [[_ ->]|[_ ->]])];
    [exact Hk| |].
  - apply rich_updatePlayer_keyed; [|intros; apply winUpdates_id].
    eapply rich_keyed_same_players; [apply rich_players_register|exact Hk].
  - apply rich_updatePlayer_keyed; [exact Hk|intros; apply winUpdates_id].
Qed.

Lemma templeStep_keyed e s : rich_keyed s.1 -> rich_keyed (templeStep e s).1.
Proof.
  destruct s as [gs ts]. destruct e as [pid|now correct]; simpl.
  - apply rich_keyed_same_players. destruct gs; reflexivity.
  - destruct (Rich.templeForm gs ts); [apply handleSubmit_keyed | auto].
Qed.

Lemma templeRun_keyed es s : rich_keyed s.1 -> rich_keyed (templeRun es s).1.
Proof.
  revert s. induction es as [|e es IH]; intros s Hk; [exact Hk|].
  simpl. apply IH, templeStep_keyed, Hk.
Qed.

(** Once a (non-empty) winner is registered, no submit replaces it. *)
Lemma handleSubmit_keeps_winner now correct gs ts w :
  Rich.gameWinner gs = Some w -> w <> "" ->
  Rich.gameWinner (Rich.handleSubmit now correct gs ts).1.1 = Some w /\
  Rich.winnerTime (Rich.handleSubmit now correct gs ts).1.1
  = Rich.winnerTime gs.
Proof.
  intros Hw Hne.
  destruct (handleSubmit_state now correct gs ts)
    as [->|(p & c & s & t & _ & _ & _ & _ & [[Ht _]|[_ ->]])].
  - auto.
  - rewrite Hw, truthy_str_Some in Ht by exact Hne. discriminate.
  - destruct (rich_updatePlayer_frame now (Rich.id p) (winUpdates now c s t) gs)
      as (-> & -> & _). auto.
Qed.

Lemma templeStep_keeps_winner e s w :
  Rich.gameWinner s.1 = Some w -> w <> "" ->
  Rich.gameWinner (templeStep e s).1 = Some w /\
  Rich.winnerTime (templeStep e s).1 = Rich.winnerTime s.1.
Proof.
  destruct s as [gs ts]. destruct e as [pid|now correct]; simpl.
  - destruct gs; simpl; auto.
  - destruct (Rich.templeForm gs ts); [apply handleSubmit_keeps_winner | auto].
Qed.

Lemma templeRun_keeps_winner es s w :
  Rich.gameWinner s.1 = Some w -> w <> "" ->
  Rich.gameWinner (templeRun es s).1 = Some w /\
  Rich.winnerTime (templeRun es s).1 = Rich.winnerTime s.1.
Proof.
  revert s. induction es as [|e es IH]; intros s Hw Hne; [auto|].
  simpl. destruct (templeStep_keeps_winner e s w Hw Hne) as [H1 H2].
  destruct (IH _ H1 Hne) as [H3 H4]. rewrite H3, H4, H2. auto.
Qed.

(** A player who has completed the gauntlet stays a winner. *)
Lemma updatePlayer_win_keeps_won now pid c s t gs k :
  won k gs -> won k (Rich.updatePlayer now pid (winUpdates now c s t) gs).
Proof.
  intros (p & Hl & Hw & Ht).
  destruct (decide (k = pid)) as [->|Hne].
  - exists (rich_updated now p (winUpdates now c s t)).
    split; [apply rich_updatePlayer_lookup, Hl|].
    destruct (winUpdates_won now c s t p) as [-> ->]. split; [reflexivity|eauto].
  - exists p. rewrite rich_updatePlayer_other by exact Hne. auto.
Qed.

Lemma won_same_players k gs gs' :
  Rich.players gs' = Rich.players gs -> won k gs -> won k gs'.
Proof. intros E (p & Hl & H). exists p. rewrite E. auto. Qed.

Lemma handleSubmit_keeps_won now correct gs ts k :
  won k gs -> won k (Rich.handleSubmit now correct gs ts).1.1.
Proof.
  intros Hw.
  destruct (handleSubmit_state now correct gs ts)
    as [->|(p & c & s & t & _ & _ & _ & _ & [[_ ->]|[_ ->]])];
    [exact Hw| |].
  - apply updatePlayer_win_keeps_won.
    eapply won_same_players; [apply rich_players_register|exact Hw].
  - apply updatePlayer_win_keeps_won, Hw.
Qed.

Lemma templeStep_keeps_won e s k : won k s.1 -> won k (templeStep e s).1.
Proof.
  destruct s as [gs ts]. destruct e as [pid|now correct]; simpl.
  - apply won_same_players. destruct gs; reflexivity.
  - destruct (Rich.templeForm gs ts); [apply handleSubmit_keeps_won | auto].
Qed.

Lemma templeRun_keeps_won es s k : won k s.1 -> won k (templeRun es s).1.
Proof.
  revert s. induction es as [|e es IH]; intros s Hw; [exact Hw|].
  simpl. apply IH, templeStep_keeps_won, Hw.
Qed.

Lemma templeRun_app es1 es2 s :
  templeRun (es1 ++ es2) s = templeRun es2 (templeRun es1 s).
Proof. unfold templeRun. apply fold_left_app. Qed.

Lemma handleSubmit_finish now gs ts p :
  Rich.currentPlayerOf gs = Some p ->
  Rich.hasPuzzle ts = true -> Rich.finishes ts = true ->
  (Rich.handleSubmit now true gs ts).1.1 =
  if JS.truthy_str (Rich.gameWinner gs)
  then Rich.updatePlayer now (Rich.id p)
         (winUpdates now (Rich.coins p + 30) (Rich.shells p + 15)
            (Rich.totalScore p + 60)) gs
  else Rich.updatePlayer now (Rich.id p)
         (winUpdates now (Rich.coins p + 50) (Rich.shells p + 25)
            (Rich.totalScore p + 100))
         (Rich.updateGameState
            [ Rich.G_gameWinner (Some (Rich.id p));
              Rich.G_winnerTime (Some (now - Rich.gameStartTime gs)) ] gs).
Proof.
  intros Hc Hp Hf. unfold Rich.handleSubmit. rewrite Hc, Hp, Hf. simpl.
  destruct (JS.truthy_str (Rich.gameWinner gs)); reflexivity.
Qed.

Lemma completes_inv s :
  completes s = true ->
  Rich.templeForm s.1 s.2 = true /\ Rich.hasPuzzle s.2 = true /\
  Rich.finishes s.2 = true.
Proof.
  unfold completes. intros H. apply andb_prop in H as [Hf Hfin].
  split; [exact Hf|]. split; [|exact Hfin].
  unfold Rich.templeForm in Hf.
  destruct (Rich.currentPlayerOf s.1); [|discriminate].
  apply andb_prop in Hf as [Hf _]. apply andb_prop in Hf as [_ Hf]. exact Hf.
Qed.

(** The submit that completes the gauntlet marks its player, and registers
    the player as the session's winner when none is registered. *)
Lemma completing_submit now s p :
  rich_keyed s.1 ->
  Rich.currentPlayerOf s.1 = Some p ->
  completes s = true ->
  let s' := templeStep (Submit now true) s in
  (exists p', Rich.players s'.1 !! Rich.id p = Some p' /\
              Rich.isWinner p' = true /\ Rich.winTime p' = Some now) /\
  (Rich.gameWinner s.1 = None ->
   Rich.gameWinner s'.1 = Some (Rich.id p) /\
   Rich.winnerTime s'.1 = Some (now - Rich.gameStartTime s.1)).
Proof.
  intros Hk Hc Hcomp. destruct (completes_inv s Hcomp) as (Hform & Hp & Hf).
  destruct (rich_current_keyed _ _ Hk Hc) as (Hl & Hne & _).
  destruct s as [gs ts]; simpl in *. rewrite Hform.
  rewrite (handleSubmit_finish now gs ts p Hc Hp Hf).
  split.
  - destruct (JS.truthy_str (Rich.gameWinner gs)).
    + eexists. split; [apply rich_updatePlayer_lookup, Hl|].
      apply winUpdates_won.
    + eexists. split.
      * apply rich_updatePlayer_lookup. rewrite rich_players_register.
        exact Hl.
      * apply winUpdates_won.
  - intros Hnone. rewrite Hnone. simpl.
    match goal with
    | |- context [Rich.updatePlayer ?n ?i ?u ?g] =>
        destruct (rich_updatePlayer_frame n i u g) as (-> & -> & _)
    end.
    destruct gs; split; reflexivity.
Qed.

(** C4. In any temple session: the submit that completes the gauntlet
    while no winner is registered sets [gameWinner] to that player and
    [winnerTime] to the elapsed game time; from then on, through every
    later entry and submit, both keep these values.  Every later player
    who completes the gauntlet gets [isWinner = true] and their own
    [winTime], and all of them are still marked at the end. *)
Theorem C4_first_winner_kept (s0 : Rich.GameState * Rich.TempleLocal)
    (es1 es2 : list TempleEvent) (now : Z) (A : Rich.Player) :
  rich_keyed s0.1 ->
  let s1 := templeRun es1 s0 in
  Rich.gameWinner s1.1 = None ->
  Rich.currentPlayerOf s1.1 = Some A ->
  completes s1 = true ->
  let s2 := templeStep (Submit now true) s1 in
  (Rich.gameWinner s2.1 = Some (Rich.id A) /\
   Rich.winnerTime s2.1 = Some (now - Rich.gameStartTime s1.1)) /\
  (forall es2a es2b, es2 = (es2a ++ es2b)%list ->
     Rich.gameWinner (templeRun es2a s2).1 = Some (Rich.id A) /\
     Rich.winnerTime (templeRun es2a s2).1
     = Some (now - Rich.gameStartTime s1.1)) /\
  won (Rich.id A) (templeRun es2 s2).1 /\
  (forall es2a nowB es2b B,
     es2 = (es2a ++ Submit nowB true :: es2b)%list ->
     let sB := templeRun es2a s2 in
     Rich.currentPlayerOf sB.1 = Some B ->
     completes sB = true ->
     (exists p', Rich.players (templeStep (Submit nowB true) sB).1
                   !! Rich.id B = Some p' /\
                 Rich.isWinner p' = true /\ Rich.winTime p' = Some nowB) /\
     won (Rich.id B) (templeRun es2 s2).1).
Proof.
  intros Hk s1 Hnone HA Hcomp s2.
  assert (Hk1 : rich_keyed s1.1) by (apply templeRun_keyed, Hk).
  destruct (completing_submit now s1 A Hk1 HA Hcomp) as [(pA & HlA & HwA & HtA) Hreg].
  destruct (Hreg Hnone) as [Hgw Hwt]. fold s2 in HlA, Hgw, Hwt.
  destruct (rich_current_keyed _ _ Hk1 HA) as (_ & HneA & _).
  split; [auto|]. split; [|split].
  - intros es2a es2b _.
    destruct (templeRun_keeps_winner es2a s2 _ Hgw HneA) as [-> ->]. auto.
  - apply templeRun_keeps_won. exists pA. rewrite HtA. eauto.
  - intros es2a nowB es2b B -> sB HB HcompB.
    assert (HkB : rich_keyed sB.1)
      by (apply templeRun_keyed, templeStep_keyed, Hk1).
    destruct (completing_submit nowB sB B HkB HB HcompB)
      as [(pB & HlB & HwB & HtB) _].
    split; [eauto|].
    rewrite templeRun_app. simpl. apply templeRun_keeps_won.
    exists pB. rewrite HtB. eauto.
Qed.

Lemma rich_two_keyed : rich_keyed rich_two.
Proof.
  unfold rich_keyed. apply (bool_decide_unpack _). vm_compute. exact I.
Defined.

Lemma C4_first_winner_kept_witness :
  let final :=
    (templeRun temple_after
       (templeStep (Submit 300 true)
          (templeRun temple_before (rich_two, Rich.initialTemple)))).1 in
  Rich.gameWinner final = Some "player_a" /\
  Rich.winnerTime final = Some 300 /\
  won "player_a" final /\ won "player_b" final.
Proof.
  destruct (C4_first_winner_kept (rich_two, Rich.initialTemple)
              temple_before temple_after 300 rich_ann
              rich_two_keyed eq_refl eq_refl eq_refl)
    as (_ & Hkeep & HwonA & Hlater).
  destruct (Hkeep temple_after [] eq_refl) as [Hgw Hwt].
  destruct (Hlater temple_bob 800 [] rich_bob eq_refl eq_refl eq_refl)
    as [_ HwonB].
  repeat split; assumption.
Defined.

(** ** Question selection *)

Lemma random_pick_elem {A} (r : Q) (l : list A) (x : A) :
  JS.random_pick r l = Some x -> x ∈ l.
Proof.
  unfold JS.random_pick.
  destruct (_ <? 0); [discriminate|]. apply list_elem_of_lookup_2.
Qed.

Lemma availableQuestions_elem questions answered k q :
  (k, q) ∈ Rich.availableQuestions questions answered ->
  (k ∉ answered) /\ questions !! k = Some q.
Proof.
  unfold Rich.availableQuestions. intros H.
  apply list_elem_of_filter in H as [Hn Hin]. simpl in Hn.
  split; [exact Hn|].
  apply elem_of_lookup_imap in Hin as (i & x & Heq & Hl).
  injection Heq as -> ->. exact Hl.
Qed.

(** The effect of a fresh zone page puts on screen only an index that the
    current player has not answered in this zone. *)
Lemma zoneEffect_presented u zoneId gs p k :
  Rich.currentPlayerOf gs = Some p ->
  Rich.presented gs (Rich.zoneEffect u zoneId gs Rich.initialZone) = Some k ->
  (k ∉ default [] (Rich.answeredQuestions p !! zoneId)) /\
  exists q,
    Rich.currentQuestion (Rich.zoneEffect u zoneId gs Rich.initialZone)
    = Some (k, q) /\
    default [] (Rich.QUESTIONS zoneId) !! k = Some q.
Proof.
  intros Hc. unfold Rich.presented, Rich.zoneEffect. rewrite Hc.
  destruct (Rich.isPaused gs); [rewrite andb_false_r; discriminate|].
  destruct (JS.includes_str ["coral"; "volcano"; "kelp"] zoneId).
  - destruct (0 <? _)%nat; simpl; [|discriminate].
    destruct (JS.random_pick u _) as [[k' q]|] eqn:Epick; simpl;
      [|discriminate].
    intros [= ->]. apply random_pick_elem, availableQuestions_elem in Epick.
    destruct Epick as [Hn Hl]. split; [exact Hn|]. eauto.
  - destruct (JS.includes_str ["cave"; "shipwreck"] zoneId); simpl;
      discriminate.
Qed.

(** Whatever the answer, the handler stores the presented index in the
    player's answered list of this zone, and touches no other player. *)
Lemma handleQuestionAnswer_answered now zoneId gs zs p k q selected :
  Rich.currentPlayerOf gs = Some p ->
  Rich.players gs !! Rich.id p = Some p ->
  Rich.currentQuestion zs = Some (k, q) ->
  Rich.selectedAnswer zs = Some selected ->
  let gs' := (Rich.handleQuestionAnswer now zoneId gs zs).1.1 in
  (exists p',
     Rich.players gs' !! Rich.id p = Some p' /\
     Rich.id p' = Rich.id p /\
     Rich.answeredQuestions p'
     = <[zoneId := (default [] (Rich.answeredQuestions p !! zoneId)
                    ++ [k])%list]> (Rich.answeredQuestions p)) /\
  (forall other, other <> Rich.id p ->
     Rich.players gs' !! other = Rich.players gs !! other).
Proof.
  intros Hc Hp Hq Hs. unfold Rich.handleQuestionAnswer.
  rewrite Hs, Hq, Hc.
  destruct (selected =? Shared.answer q).
  - destruct (String.eqb zoneId "coral");
      [|destruct (String.eqb zoneId "volcano" || String.eqb zoneId "kelp")];
      cbv zeta; unfold Rich.addLog; rewrite Hp; simpl fst.
    all: split;
      [ eexists; split;
        [ erewrite rich_updatePlayer_lookup;
          [reflexivity | apply rich_updatePlayer_lookup, Hp]
        | destruct p; split; reflexivity ]
      | intros other Hne; rewrite !rich_updatePlayer_other by exact Hne;
        reflexivity ].
  - cbv zeta; unfold Rich.addLog; rewrite Hp; simpl fst.
    split;
      [ eexists; split;
        [ erewrite rich_updatePlayer_lookup;
          [reflexivity | apply rich_updatePlayer_lookup, Hp]
        | destruct p; split; reflexivity ]
      | intros other Hne; rewrite !rich_updatePlayer_other by exact Hne;
        reflexivity ].
Qed.

Lemma rich_players_setCurrentPlayer pid gs :
  Rich.players (Rich.setCurrentPlayer pid gs) = Rich.players gs.
Proof. destruct gs; reflexivity. Qed.

Lemma rich_players_page page gs :
  Rich.players (Rich.updateGameState [Rich.G_currentPage page] gs)
  = Rich.players gs.
Proof. destruct gs; reflexivity. Qed.

Lemma rich_currentPlayerOf_page page gs :
  Rich.currentPlayerOf (Rich.updateGameState [Rich.G_currentPage page] gs)
  = Rich.currentPlayerOf gs.
Proof. destruct gs; reflexivity. Qed.

Lemma rich_currentPlayer_page page pid gs :
  Rich.currentPlayer
    (Rich.updateGameState [Rich.G_currentPage page]
       (Rich.setCurrentPlayer pid gs)) = Some pid.
Proof. destruct gs; reflexivity. Qed.

Lemma answeredOf_same_players gs gs' pid zoneId :
  Rich.players gs' = Rich.players gs ->
  answeredOf gs' pid zoneId = answeredOf gs pid zoneId.
Proof. intros E. unfold answeredOf. rewrite E. reflexivity. Qed.

(** What one visit guarantees. *)
Lemma visit_spec v gs :
  rich_keyed gs ->
  rich_keyed (visit v gs).1 /\
  (forall pid zoneId k,
     k ∈ answeredOf gs pid zoneId -> k ∈ answeredOf (visit v gs).1 pid zoneId) /\
  (forall e, (visit v gs).2 = Some e ->
     (s_index e ∉ answeredOf gs (s_player e) (s_zone e)) /\
     (s_answered e = true ->
      s_index e ∈ answeredOf (visit v gs).1 (s_player e) (s_zone e))).
Proof.
  intros Hk. unfold visit.
  set (gs0 := Rich.setCurrentPlayer (v_player v) gs).
  assert (E0 : Rich.players gs0 = Rich.players gs)
    by apply rich_players_setCurrentPlayer.
  destruct (Rich.currentPlayerOf gs0) as [p|] eqn:Ecur.
  2:{ simpl. split; [eapply rich_keyed_same_players; eauto|].
      split; [intros ???; rewrite (answeredOf_same_players _ _ _ _ E0); auto
             | discriminate]. }
  destruct (Rich.canPlay (v_now v) gs0 p).
  2:{ simpl. split; [eapply rich_keyed_same_players; eauto|].
      split; [intros ???; rewrite (answeredOf_same_players _ _ _ _ E0); auto
             | discriminate]. }
  set (gs1 := Rich.updateGameState _ gs0).
  assert (E1 : Rich.players gs1 = Rich.players gs)
    by (unfold gs1; rewrite rich_players_page; exact E0).
  assert (Hk1 : rich_keyed gs1) by (eapply rich_keyed_same_players; eauto).
  assert (Hc1 : Rich.currentPlayerOf gs1 = Some p)
    by (unfold gs1; rewrite rich_currentPlayerOf_page; exact Ecur).
  destruct (rich_current_keyed _ _ Hk1 Hc1) as (Hp1 & _ & Hcp).
  unfold gs1, gs0 in Hcp. rewrite rich_currentPlayer_page in Hcp.
  injection Hcp as Hid. fold gs0 in gs1. fold gs1.
  assert (Eback : Rich.players (Rich.backClick gs1).1 = Rich.players gs)
    by (change ((Rich.backClick gs1).1)
          with (Rich.updateGameState [Rich.G_currentPage "map"] gs1);
        rewrite rich_players_page; exact E1).
  set (zs := Rich.zoneEffect (v_draw v) (v_zone v) gs1 Rich.initialZone).
  destruct (Rich.presented gs1 zs) as [k|] eqn:Epres.
  2:{ simpl. split; [eapply rich_keyed_same_players; eauto|].
      split; [intros ???; rewrite (answeredOf_same_players _ _ _ _ Eback); auto
             | discriminate]. }
  destruct (zoneEffect_presented _ _ _ _ _ Hc1 Epres) as (Hfresh & q & Hq & _).
  fold zs in Hq.
  assert (Hold : answeredOf gs (v_player v) (v_zone v)
                 = default [] (Rich.answeredQuestions p !! v_zone v)).
  { unfold answeredOf. rewrite <- E1, Hid, Hp1. reflexivity. }
  destruct (v_end v) as [selected|].
  2:{ simpl. split; [eapply rich_keyed_same_players; eauto|].
      split; [intros ???; rewrite (answeredOf_same_players _ _ _ _ Eback); auto|].
      intros e [= <-]. simpl. rewrite Hold. split; [exact Hfresh|discriminate]. }
  destruct (handleQuestionAnswer_answered (v_now v) (v_zone v) gs1
              (Rich.selectAnswer selected zs) p k q selected Hc1 Hp1 Hq eq_refl)
    as ((p' & Hl' & Hid' & Haq') & Hother).
  set (gs2 := (Rich.handleQuestionAnswer _ _ gs1 _).1.1) in *.
  assert (E3 : Rich.players (Rich.returnToMap gs2) = Rich.players gs2)
    by apply rich_players_page.
  simpl. split; [|split].
  - eapply rich_keyed_same_players; [exact E3|].
    intros k0 p0 Hl0. destruct (decide (k0 = Rich.id p)) as [->|Hne].
    + rewrite Hl' in Hl0. injection Hl0 as <-.
      destruct (Hk1 _ _ Hp1). auto.
    + rewrite (Hother _ Hne) in Hl0. exact (Hk1 _ _ Hl0).
  - intros pid zoneId k0 Hin.
    rewrite (answeredOf_same_players _ _ _ _ E3). unfold answeredOf in *.
    destruct (decide (pid = Rich.id p)) as [->|Hne].
    + rewrite Hl', Haq'. rewrite <- E1, Hp1 in Hin.
      destruct (decide (zoneId = v_zone v)) as [->|Hz].
      * rewrite lookup_insert_eq. simpl. apply elem_of_app. left. exact Hin.
      * rewrite lookup_insert_ne by congruence. exact Hin.
    + rewrite (Hother _ Hne), E1. exact Hin.
  - intros e [= <-]. simpl. rewrite Hold. split; [exact Hfresh|].
    intros _. rewrite (answeredOf_same_players _ _ _ _ E3).
    unfold answeredOf. rewrite Hid, Hl', Haq', lookup_insert_eq. simpl.
    apply elem_of_app. right. apply list_elem_of_singleton. reflexivity.
Qed.

(** Nothing shown later in a session is in the answered list now. *)
Lemma runVisits_fresh vs gs e :
  rich_keyed gs ->
  e ∈ (runVisits vs gs).2 ->
  s_index e ∉ answeredOf gs (s_player e) (s_zone e).
Proof.
  revert gs. induction vs as [|v vs IH]; intros gs Hk Hin; simpl in Hin.
  - apply elem_of_nil in Hin. contradiction.
  - destruct (visit_spec v gs Hk) as (Hk' & Hmono & Hev).
    assert (Hrest : e ∈ (runVisits vs (visit v gs).1).2 ->
                    s_index e ∉ answeredOf gs (s_player e) (s_zone e)).
    { intros Hin' Hold. exact (IH _ Hk' Hin' (Hmono _ _ _ Hold)). }
    destruct (visit v gs).2 as [e0|] eqn:E0; [|auto].
    apply elem_of_cons in Hin as [->|Hin]; [|auto].
    apply (Hev e0 eq_refl).
Qed.

Lemma runVisits_answered_once vs gs pre e post :
  rich_keyed gs ->
  (runVisits vs gs).2 = (pre ++ e :: post)%list ->
  mkShown (s_player e) (s_zone e) (s_index e) true ∉ pre.
Proof.
  revert gs pre. induction vs as [|v vs IH]; intros gs pre Hk Heq;
    simpl in Heq.
  - destruct pre; discriminate.
  - destruct (visit_spec v gs Hk) as (Hk' & _ & Hev).
    destruct (visit v gs).2 as [e0|] eqn:E0; [|eauto].
    destruct pre as [|e1 pre]; [apply not_elem_of_nil|].
    injection Heq as <- Heq.
    intros Hin. apply elem_of_cons in Hin as [Hsame|Hin].
    + destruct (Hev e0 eq_refl) as [_ Hans].
      rewrite <- Hsame in Hans. simpl in Hans. specialize (Hans eq_refl).
      eapply runVisits_fresh; [exact Hk'| |exact Hans].
      rewrite Heq. apply elem_of_app. right. apply elem_of_cons. auto.
    + exact (IH _ _ Hk' Heq Hin).
Qed.

(** C6 as stated fails: Ann opens the coral zone twice and both times
    leaves with the back button; index 0 is on screen both times although
    nothing of the 15-question bank has been used up. *)
Lemma C6_same_index_presented_twice :
  (runVisits [peek; peek] rich_demo).2
  = [ mkShown "player_a" "coral" 0 false;
      mkShown "player_a" "coral" 0 false ] /\
  answeredOf (runVisits [peek; peek] rich_demo).1 "player_a" "coral" = [] /\
  length (default [] (Rich.QUESTIONS "coral")) = 15%nat /\
  ~ never_presented_twice [peek; peek] rich_demo.
Proof.
  split; [reflexivity|]. split; [reflexivity|]. split; [reflexivity|].
  unfold never_presented_twice.
  change (~ NoDup [("player_a", "coral", 0%nat); ("player_a", "coral", 0%nat)]).
  intros H. apply NoDup_cons in H as [Hn _]. apply Hn. left.
Qed.

(** C6 (amended). The question put on screen when a zone page opens is
    one whose index is not in the current player's answered list of that
    zone; an answer, right or wrong, appends the presented index to that
    list; so in any sequence of visits an index that a player has answered
    in a zone is never put on screen again for that player in that zone.
    (An index left unanswered may come back.) *)
Theorem C6_answered_index_not_presented_again :
  (forall u zoneId gs p k,
     Rich.currentPlayerOf gs = Some p ->
     Rich.presented gs (Rich.zoneEffect u zoneId gs Rich.initialZone) = Some k ->
     (k ∉ default [] (Rich.answeredQuestions p !! zoneId)) /\
     is_Some (default [] (Rich.QUESTIONS zoneId) !! k)) /\
  (forall now zoneId gs zs p k q selected,
     Rich.currentPlayerOf gs = Some p ->
     Rich.players gs !! Rich.id p = Some p ->
     Rich.currentQuestion zs = Some (k, q) ->
     Rich.selectedAnswer zs = Some selected ->
     exists p',
       Rich.players (Rich.handleQuestionAnswer now zoneId gs zs).1.1
         !! Rich.id p = Some p' /\
       Rich.answeredQuestions p' !! zoneId
       = Some (default [] (Rich.answeredQuestions p !! zoneId) ++ [k])%list) /\
  (forall vs gs pre e post,
     rich_keyed gs ->
     (runVisits vs gs).2 = (pre ++ e :: post)%list ->
     (s_index e ∉ answeredOf gs (s_player e) (s_zone e)) /\
     (mkShown (s_player e) (s_zone e) (s_index e) true ∉ pre)).
Proof.
  split; [|split].
  - intros u zoneId gs p k Hc Hp.
    destruct (zoneEffect_presented _ _ _ _ _ Hc Hp) as (Hn & q & _ & Hq).
    split; [exact Hn | eauto].
  - intros now zoneId gs zs p k q selected Hc Hp Hq Hs.
    destruct (handleQuestionAnswer_answered now zoneId gs zs p k q selected
                Hc Hp Hq Hs) as ((p' & Hl & _ & Haq) & _).
    exists p'. split; [exact Hl|]. rewrite Haq. apply lookup_insert_eq.
  - intros vs gs pre e post Hk Heq. split.
    + apply (runVisits_fresh vs); [exact Hk|].
      rewrite Heq. apply elem_of_app. right. apply elem_of_cons. auto.
    + exact (runVisits_answered_once vs gs pre e post Hk Heq).
Qed.

Lemma rich_demo_keyed : rich_keyed rich_demo.
Proof.
  unfold rich_keyed. apply (bool_decide_unpack _). vm_compute. exact I.
Defined.

Lemma C6_answered_index_not_presented_again_witness :
  (0%nat ∉ default [] (Rich.answeredQuestions rich_ann !! "coral")) /\
  (exists p',
     Rich.players
       (Rich.handleQuestionAnswer 7 "coral" rich_demo rich_coral_visit).1.1
       !! "player_a" = Some p' /\
     Rich.answeredQuestions p' !! "coral" = Some [2%nat]) /\
  (runVisits answer_then_peek rich_demo).2
  = [ mkShown "player_a" "coral" 0 true;
      mkShown "player_a" "coral" 1 false ] /\
  (mkShown "player_a" "coral" 1 true ∉ [mkShown "player_a" "coral" 0 true]).
Proof.
  destruct C6_answered_index_not_presented_again as (Hshow & Hans & Hrun).
  split; [|split; [|split]].
  - apply (Hshow 0%Q "coral" rich_demo rich_ann 0%nat eq_refl eq_refl).
  - destruct (Hans 7 "coral" rich_demo rich_coral_visit rich_ann 2%nat
                (Shared.mkQuestion 1 Shared.hard) 1 eq_refl eq_refl eq_refl
                eq_refl) as (p' & Hl & Ha).
    exists p'. split; [exact Hl | exact Ha].
  - reflexivity.
  - apply (Hrun answer_then_peek rich_demo
             [mkShown "player_a" "coral" 0 true]
             (mkShown "player_a" "coral" 1 false) []
             rich_demo_keyed eq_refl).
Defined.

(** While the result of an answer is on screen the form is hidden, so the
    re-run of the effect that the answer triggers shows nothing. *)
Lemma zoneEffect_hidden_by_result u zoneId gs zs :
  Rich.showResult zs = true ->
  Rich.presented gs (Rich.zoneEffect u zoneId gs zs) = None.
Proof.
  intros Hs. unfold Rich.presented.
  assert (E : Rich.showResult (Rich.zoneEffect u zoneId gs zs) = true).
  { unfold Rich.zoneEffect. destruct (Rich.currentPlayerOf gs); [|exact Hs].
    destruct (JS.includes_str _ zoneId).
    - destruct (0 <? _)%nat; [|exact Hs].
      destruct (JS.random_pick u _); exact Hs.
    - destruct (JS.includes_str _ zoneId); exact Hs. }
  rewrite E. reflexivity.
Qed.

(** When the timer's countdown is at zero, so is the map page's. *)
Lemma countdown_zero_ends_map now gs t :
  Rich.pauseStartTime gs = None ->
  0 <= Rich.totalPauseTime t ->
  Rich.remaining now gs t = 0 ->
  Rich.gameEnded now gs = true.
Proof.
  unfold Rich.remaining, Rich.gameEnded, Rich.mapTimeLeft, JS.Math_max0.
  intros -> Ht. simpl. intros H. apply Z.eqb_eq. lia.
Qed.

(** ** Routing *)

(** X1. A page name of the form [zone-<id>] is routed to the zone page of
    exactly that id, whatever the id; hence an accepted zone click (either
    variant) leads to the page of the clicked zone and an accepted temple
    click to the temple page. *)
Theorem route_zone_round_trip :
  (forall zoneId,
     Router.renderCurrentPage (String.append "zone-" zoneId)
     = Router.ZonePage zoneId) /\
  (forall now gs zoneId gs',
     Rich.zoneClick now gs zoneId = Some (gs', ["click"]) ->
     Router.renderCurrentPage (Rich.currentPage gs') = Router.ZonePage zoneId) /\
  (forall now gs zoneId gs',
     Simple.zoneClick now gs zoneId = Some (gs', ["click"]) ->
     Router.renderCurrentPage (Simple.currentPage gs')
     = Router.ZonePage zoneId) /\
  (forall now gs gs',
     Rich.templeClick now gs = Some (gs', ["success"]) ->
     Router.renderCurrentPage (Rich.currentPage gs') = Router.TemplePage).
Proof.
  assert (Hroute : forall zoneId,
             Router.renderCurrentPage (String.append "zone-" zoneId)
             = Router.ZonePage zoneId)
    by (intros zoneId; destruct zoneId; reflexivity).
  split; [exact Hroute|]. split; [|split].
  - intros now gs zoneId gs'. unfold Rich.zoneClick.
    destruct (Rich.currentPlayerOf gs); [|discriminate].
    destruct (Rich.canPlay now gs p); intros [= <-]. destruct gs; apply Hroute.
  - intros now gs zoneId gs'. unfold Simple.zoneClick.
    destruct (Simple.currentPlayerOf gs); [|discriminate].
    destruct (Simple.canPlay now gs p); intros [= <-].
    destruct gs; apply Hroute.
  - intros now gs gs'. unfold Rich.templeClick.
    destruct (Rich.currentPlayerOf gs); [|discriminate].
    destruct (_ && _ && _); intros [= <-]. destruct gs; reflexivity.
Qed.

Lemma route_zone_round_trip_witness :
  Router.renderCurrentPage
    (Rich.currentPage
       (Rich.updateGameState [Rich.G_currentPage "zone-coral"] rich_ready))
  = Router.ZonePage "coral".
Proof.
  destruct route_zone_round_trip as (_ & H & _).
  apply (H 60000 rich_ready "coral"). reflexivity.
Defined.

(** ** Time display *)

Lemma string_length_append (a b : string) :
  String.length (String.append a b) = (String.length a + String.length b)%nat.
Proof. induction a as [|c a IH]; simpl; [reflexivity | rewrite IH; reflexivity]. Qed.

Lemma padStart2_two_digits (n : Z) :
  0 <= n < 100 -> String.length (Format.padStart2 (pretty n)) = 2%nat.
Proof.
  intros Hn.
  assert (H : Forall (fun k => String.length
                                 (Format.padStart2 (pretty (Z.of_nat k))) = 2%nat)
                (seq 0 100)) by (vm_compute; repeat constructor).
  rewrite Forall_forall in H.
  specialize (H (Z.to_nat n)). rewrite Z2Nat.id in H by lia.
  apply H, elem_of_seq. lia.
Qed.

(** X2. For a non-negative number of milliseconds [formatTime] shows whole
    minutes and seconds: the seconds are between 0 and 59, minutes and
    seconds add up to the whole seconds elapsed, and below 100 minutes the
    text has the five characters of [mm:ss]. *)
Theorem formatTime_minutes_seconds (milliseconds : Z) :
  0 <= milliseconds ->
  let m := Format.minutesOf milliseconds in
  let s := Format.secondsOf milliseconds in
  0 <= m /\ 0 <= s < 60 /\ m * 60 + s = milliseconds / 1000 /\
  Format.formatTime milliseconds
  = String.append (Format.padStart2 (pretty m))
      (String.append ":" (Format.padStart2 (pretty s))) /\
  (milliseconds < 6000000 ->
   String.length (Format.formatTime milliseconds) = 5%nat).
Proof.
  intros H0 m s. unfold m, s, Format.minutesOf, Format.secondsOf.
  rewrite Z.rem_mod_nonneg by lia.
  assert (Hm : 0 <= milliseconds / 60000) by (apply Z.div_pos; lia).
  assert (Hr : 0 <= milliseconds mod 60000 < 60000)
    by (apply Z.mod_pos_bound; lia).
  assert (Hs : 0 <= milliseconds mod 60000 / 1000 < 60).
  { split; [apply Z.div_pos; lia | apply Z.div_lt_upper_bound; lia]. }
  split; [exact Hm|]. split; [exact Hs|]. split.
  - pose proof (Z.div_mod milliseconds 60000 ltac:(lia)) as E.
    rewrite E at 3.
    replace (60000 * (milliseconds / 60000) + milliseconds mod 60000)
      with (milliseconds / 60000 * 60 * 1000 + milliseconds mod 60000) by lia.
    rewrite Z.div_add_l by lia. reflexivity.
  - split; [unfold Format.formatTime, Format.minutesOf, Format.secondsOf;
            rewrite Z.rem_mod_nonneg by lia; reflexivity|].
    intros Hlt. unfold Format.formatTime, Format.minutesOf, Format.secondsOf.
    rewrite Z.rem_mod_nonneg by lia.
    rewrite !string_length_append.
    rewrite !padStart2_two_digits; [reflexivity | lia |].
    split; [exact Hm | apply Z.div_lt_upper_bound; lia].
Qed.

Lemma formatTime_minutes_seconds_witness :
  Format.formatTime 754321 = "12:34" /\
  String.length (Format.formatTime 754321) = 5%nat.
Proof.
  destruct (formatTime_minutes_seconds 754321 ltac:(lia))
    as (_ & _ & _ & Heq & Hlen).
  split; [rewrite Heq; reflexivity | apply Hlen; lia].
Defined.

(** ** The card collection *)

Lemma cardsByRarity_fold (cards : list Shared.CollectedCard)
    (acc : gmap string (list Shared.CollectedCard)) (r : string) :
  default []
    (fold_left
       (fun acc card =>
          <[Shared.cc_rarity card :=
              (default [] (acc !! Shared.cc_rarity card) ++ [card])%list]> acc)
       cards acc !! r)
  = (default [] (acc !! r)
     ++ filter (fun c => Shared.cc_rarity c = r) cards)%list.
Proof.
  revert acc. induction cards as [|c cards IH]; intros acc; simpl.
  - rewrite app_nil_r. reflexivity.
  - rewrite IH. destruct (decide (Shared.cc_rarity c = r)) as [<-|Hne].
    + rewrite lookup_insert_eq. simpl.
      rewrite filter_cons_True by reflexivity.
      rewrite <- app_assoc. reflexivity.
    + rewrite lookup_insert_ne by exact Hne.
      rewrite filter_cons_False by exact Hne. reflexivity.
Qed.

Lemma cardsByRarity_nonempty (cards : list Shared.CollectedCard)
    (acc : gmap string (list Shared.CollectedCard)) (r : string)
    (l : list Shared.CollectedCard) :
  (forall r l, acc !! r = Some l -> l <> []) ->
  fold_left
    (fun acc card =>
       <[Shared.cc_rarity card :=
           (default [] (acc !! Shared.cc_rarity card) ++ [card])%list]> acc)
    cards acc !! r = Some l ->
  l <> [].
Proof.
  revert acc. induction cards as [|c cards IH]; intros acc Hacc; simpl.
  - apply Hacc.
  - apply IH. intros r' l'.
    destruct (decide (Shared.cc_rarity c = r')) as [<-|Hne].
    + rewrite lookup_insert_eq. intros [= <-].
      destruct (default [] _); discriminate.
    + rewrite lookup_insert_ne by exact Hne. apply Hacc.
Qed.

(** X3. The grouping of a collection by rarity files under each rarity
    exactly the cards of that rarity, in the order in which they were
    collected; a rarity has an entry only when the player holds a card of
    it. *)
Theorem cardsByRarity_groups (cards : list Shared.CollectedCard) (r : string) :
  default [] (Collection.cardsByRarity cards !! r)
  = filter (fun c => Shared.cc_rarity c = r) cards /\
  (Collection.cardsByRarity cards !! r = None <->
   filter (fun c => Shared.cc_rarity c = r) cards = []).
Proof.
  unfold Collection.cardsByRarity.
  pose proof (cardsByRarity_fold cards ∅ r) as H.
  rewrite lookup_empty in H. simpl in H.
  split; [exact H|]. split.
  - intros Hn. rewrite Hn in H. simpl in H. symmetry. exact H.
  - intros He. rewrite He in H.
    destruct (fold_left _ cards ∅ !! r) as [l|] eqn:E; [|reflexivity].
    simpl in H. subst l. exfalso.
    eapply (cardsByRarity_nonempty cards ∅ r []); [|exact E|reflexivity].
    intros r' l'. rewrite lookup_empty. discriminate.
Qed.

(** ** The leaderboard list *)

Lemma atOrBefore_transitive : Transitive Rich.atOrBefore.
Proof.
  intros a b c. unfold Rich.atOrBefore, Rich.compare.
  destruct (Rich.isWinner a), (Rich.isWinner b), (Rich.isWinner c); simpl;
    repeat match goal with
           | |- context [Z.eqb ?x ?y] => destruct (Z.eqb_spec x y); simpl
           end; lia.
Qed.

Lemma atOrBefore_total : Total Rich.atOrBefore.
Proof.
  intros a b. unfold Rich.atOrBefore, Rich.compare.
  destruct (Rich.isWinner a), (Rich.isWinner b); simpl;
    repeat match goal with
           | |- context [Z.eqb ?x ?y] => destruct (Z.eqb_spec x y); simpl
           end; lia.
Qed.

Lemma compare_tie_trans c x y :
  Rich.compare c x = 0 -> Rich.compare c y = 0 -> Rich.compare x y = 0.
Proof.
  unfold Rich.compare.
  destruct (Rich.isWinner c), (Rich.isWinner x), (Rich.isWinner y); simpl;
    repeat match goal with
           | |- context [Z.eqb ?a ?b] => destruct (Z.eqb_spec a b); simpl
           end; lia.
Qed.

Lemma board_insert_perm x l : Board.insert x l ≡ₚ x :: l.
Proof.
  induction l as [|y l IH]; simpl; [reflexivity|].
  destruct (Rich.compare x y <=? 0); [reflexivity|].
  rewrite IH. apply Permutation_swap.
Qed.

Lemma board_insert_sorted x l :
  StronglySorted Rich.atOrBefore l ->
  StronglySorted Rich.atOrBefore (Board.insert x l).
Proof.
  induction 1 as [|y l Hl IH Hy]; simpl; [repeat constructor|].
  destruct (Z.leb_spec (Rich.compare x y) 0) as [Hle|Hgt].
  - constructor; [constructor; assumption|].
    constructor; [exact Hle|].
    eapply Forall_impl; [exact Hy|]. intros z Hz.
    exact (atOrBefore_transitive x y z Hle Hz).
  - constructor; [exact IH|].
    rewrite (board_insert_perm x l). constructor; [|exact Hy].
    destruct (atOrBefore_total x y) as [H|H]; [|exact H].
    unfold Rich.atOrBefore in H. lia.
Qed.

(** Insertion does not change the order among the players of a tie. *)
Lemma board_insert_stable c x l :
  filter (Board.tie c) (Board.insert x l) = filter (Board.tie c) (x :: l).
Proof.
  induction l as [|y l IH]; simpl; [reflexivity|].
  destruct (Z.leb_spec (Rich.compare x y) 0) as [Hle|Hgt]; [reflexivity|].
  rewrite filter_cons, IH, !filter_cons.
  destruct (decide (Board.tie c y)) as [Hy|Hy];
    destruct (decide (Board.tie c x)) as [Hx|Hx]; try reflexivity.
  pose proof (compare_tie_trans c x y Hx Hy). lia.
Qed.

Lemma board_sorted_strongly values :
  StronglySorted Rich.atOrBefore (Board.sorted values).
Proof.
  induction values as [|x l IH]; simpl; [constructor|].
  apply board_insert_sorted, IH.
Qed.

Lemma board_sorted_perm values : Board.sorted values ≡ₚ values.
Proof.
  induction values as [|x l IH]; simpl; [reflexivity|].
  rewrite board_insert_perm, IH. reflexivity.
Qed.

Lemma board_sorted_stable c values :
  filter (Board.tie c) (Board.sorted values) = filter (Board.tie c) values.
Proof.
  induction values as [|x l IH]; simpl; [reflexivity|].
  rewrite board_insert_stable, !filter_cons, IH. reflexivity.
Qed.

Lemma compare_refl x : Rich.compare x x = 0.
Proof.
  unfold Rich.compare. destruct (Rich.isWinner x); simpl;
    rewrite !Z.eqb_refl; simpl; lia.
Qed.

Lemma compare_antisym x y :
  Rich.compare x y <= 0 -> Rich.compare y x <= 0 -> Rich.compare x y = 0.
Proof.
  unfold Rich.compare.
  destruct (Rich.isWinner x), (Rich.isWinner y); simpl;
    repeat match goal with
           | |- context [Z.eqb ?a ?b] => destruct (Z.eqb_spec a b); simpl
           end; lia.
Qed.

(** The contract of a stable sort determines its result: arrangements in
    comparator order of the same players that keep every tie in the same
    order are equal. *)
Lemma board_sorted_unique (l1 l2 : list Rich.Player) :
  l1 ≡ₚ l2 ->
  StronglySorted Rich.atOrBefore l1 -> StronglySorted Rich.atOrBefore l2 ->
  (forall c, filter (Board.tie c) l1 = filter (Board.tie c) l2) ->
  l1 = l2.
Proof.
  revert l2. induction l1 as [|x l1 IH]; intros l2 Hp H1 H2 Hf.
  - apply Permutation_nil_l in Hp. congruence.
  - destruct l2 as [|y l2]; [apply Permutation_nil_r in Hp; discriminate|].
    apply StronglySorted_inv in H1 as [H1 Hx].
    apply StronglySorted_inv in H2 as [H2 Hy].
    assert (Hxy : Rich.compare x y = 0).
    { apply compare_antisym.
      - assert (Hin : y ∈ x :: l1) by (rewrite Hp; left).
        apply elem_of_cons in Hin as [->|Hin];
          [rewrite compare_refl; lia|].
        rewrite Forall_forall in Hx. apply Hx, Hin.
      - assert (Hin : x ∈ y :: l2) by (rewrite <- Hp; left).
        apply elem_of_cons in Hin as [->|Hin];
          [rewrite compare_refl; lia|].
        rewrite Forall_forall in Hy. apply Hy, Hin. }
    assert (E : x = y).
    { pose proof (Hf x) as Hfx. rewrite !filter_cons in Hfx.
      destruct (decide (Board.tie x x)) as [_|Hn];
        [|destruct Hn; apply compare_refl].
      destruct (decide (Board.tie x y)) as [_|Hn]; [|destruct Hn; exact Hxy].
      congruence. }
    subst y. f_equal. apply IH; [|exact H1|exact H2|].
    + eapply Permutation_cons_inv, Hp.
    + intros c. pose proof (Hf c) as Hfc. rewrite !filter_cons in Hfc.
      destruct (decide (Board.tie c x)); congruence.
Qed.

(** X4. The leaderboard is the first [min 8 n] entries of the stable
    arrangement of the [n] players in comparator order: together with the
    players left out it is a rearrangement of [Object.values], it is in
    comparator order, every player left out sorts at or after every player
    shown, and players who tie are shown in the order they have in
    [Object.values] (those cut are the last of their tie); any stable
    sort gives this board.  Hence every player shown is a player of the
    session, and as long as a non-winner is on the board no winner is
    missing from it. *)
Theorem leaderboard_top_eight (values : list Rich.Player) :
  length (Board.sortedPlayers values) = Nat.min 8 (length values) /\
  StronglySorted Rich.atOrBefore (Board.sortedPlayers values) /\
  (exists rest,
     (Board.sortedPlayers values ++ rest)%list ≡ₚ values /\
     StronglySorted Rich.atOrBefore
       (Board.sortedPlayers values ++ rest)%list /\
     forall c,
       filter (Board.tie c) (Board.sortedPlayers values ++ rest)%list
       = filter (Board.tie c) values) /\
  (forall c,
     filter (Board.tie c) (Board.sortedPlayers values)
     `prefix_of` filter (Board.tie c) values) /\
  (forall l,
     l ≡ₚ values -> StronglySorted Rich.atOrBefore l ->
     (forall c, filter (Board.tie c) l = filter (Board.tie c) values) ->
     take 8 l = Board.sortedPlayers values) /\
  (forall p, p ∈ Board.sortedPlayers values -> p ∈ values) /\
  (forall a b,
     a ∈ Board.sortedPlayers values -> b ∈ values ->
     b ∉ Board.sortedPlayers values -> Rich.atOrBefore a b) /\
  (forall p w,
     p ∈ Board.sortedPlayers values -> Rich.isWinner p = false ->
     w ∈ values -> Rich.isWinner w = true ->
     w ∈ Board.sortedPlayers values).
Proof.
  pose proof (board_sorted_strongly values) as Hs.
  pose proof (board_sorted_perm values) as Hp.
  pose proof (fun c => board_sorted_stable c values) as Hst.
  unfold Board.sortedPlayers.
  rewrite <- (take_drop 8 (Board.sorted values)) in Hs.
  assert (Hout : forall a b,
             a ∈ take 8 (Board.sorted values) -> b ∈ values ->
             b ∉ take 8 (Board.sorted values) -> Rich.atOrBefore a b).
  { intros a b Ha Hb Hnb.
    eapply StronglySorted_app_1_elem_of; [exact Hs|exact Ha|].
    rewrite <- Hp in Hb. rewrite <- (take_drop 8 (Board.sorted values)) in Hb.
    apply elem_of_app in Hb as [Hb|Hb]; [contradiction|exact Hb]. }
  split; [rewrite length_take, (Permutation_length Hp); reflexivity|].
  split; [eapply StronglySorted_app_1_l; exact Hs|].
  split.
  { exists (drop 8 (Board.sorted values)).
    split; [rewrite take_drop; exact Hp|]. split; [exact Hs|].
    intros c. rewrite take_drop. apply Hst. }
  split.
  { intros c. rewrite <- (Hst c).
    rewrite <- (take_drop 8 (Board.sorted values)) at 2.
    rewrite filter_app. apply prefix_app_r. reflexivity. }
  split.
  { intros l Hl Hsl Hfl. f_equal.
    apply board_sorted_unique;
      [rewrite Hl, Hp; reflexivity | exact Hsl
      | apply board_sorted_strongly | intros c; rewrite Hfl, Hst; reflexivity]. }
  split; [intros p Hin; rewrite <- Hp, <- (take_drop 8 (Board.sorted values));
          apply elem_of_app; left; exact Hin|].
  split; [exact Hout|].
  intros p w Hin Hpw Hw Hww.
  rewrite <- Hp, <- (take_drop 8 (Board.sorted values)) in Hw.
  apply elem_of_app in Hw as [Hw|Hw]; [exact Hw|]. exfalso.
  pose proof (StronglySorted_app_1_elem_of _ _ _ _ _ Hs Hin Hw) as Hle.
  unfold Rich.atOrBefore, Rich.compare in Hle.
  rewrite Hpw, Hww in Hle. simpl in Hle. lia.
Qed.

Lemma leaderboard_top_eight_witness :
  lb_first ∈ Board.sortedPlayers [lb_third; lb_second; lb_fourth; lb_first].
Proof.
  destruct (leaderboard_top_eight [lb_third; lb_second; lb_fourth; lb_first])
    as (_ & _ & _ & _ & _ & _ & _ & Hw).
  apply (Hw lb_third lb_first); [ | reflexivity | | reflexivity];
    apply list_elem_of_In; vm_compute; auto 10.
Defined.

(** Nine players who all tie: the board shows the first eight in the order
    of [Object.values]. *)
Example board_keeps_tie_order :
  map Rich.id
    (Board.sortedPlayers
       (map (fun n => Rich.mkPlayer n n "red" 0 0 [] ∅ ∅ 5 [] [] 0 0 false
                        None [])
          ["a"; "b"; "c"; "d"; "e"; "f"; "g"; "h"; "i"]))
  = ["a"; "b"; "c"; "d"; "e"; "f"; "g"; "h"].
Proof. vm_compute. reflexivity. Qed.

Lemma cardsByRarity_groups_witness :
  default []
    (Collection.cardsByRarity
       [ Shared.mkCollected "small_coin" "common" "coins" 1 10;
         Shared.mkCollected "whale_song" "rare" "action" 2 20;
         Shared.mkCollected "wave_splash" "common" "skip" 0 30 ] !! "common")
  = [ Shared.mkCollected "small_coin" "common" "coins" 1 10;
      Shared.mkCollected "wave_splash" "common" "skip" 0 30 ] /\
  Collection.cardsByRarity
    [Shared.mkCollected "small_coin" "common" "coins" 1 10] !! "epic" = None.
Proof.
  split.
  - rewrite (proj1 (cardsByRarity_groups _ "common")). reflexivity.
  - apply (proj2 (cardsByRarity_groups _ "epic")). reflexivity.
Defined.

(** ** Pauses *)

(** X5. While the game is paused nothing of the game can be done: the
    zone buttons and the temple button are disabled, so no click reaches
    their handlers and no cue is played; no question form, draw button or
    puzzle form is on screen; and the timer's tick changes nothing. *)
Theorem paused_blocks_play (gs : Rich.GameState) :
  Rich.isPaused gs = true ->
  (forall now, Rich.templeClick now gs = None) /\
  (forall now zoneId, Rich.zoneClick now gs zoneId = None) /\
  (forall zs, Rich.presented gs zs = None) /\
  (forall zs, Session.drawShown gs zs = false) /\
  (forall ts, Rich.templeForm gs ts = false) /\
  (forall now t, Rich.tick now gs t = (t, [])).
Proof.
  intros Hp. repeat split.
  - intros now. unfold Rich.templeClick. rewrite Hp.
    destruct (Rich.currentPlayerOf gs); [|reflexivity].
    rewrite andb_false_r. reflexivity.
  - intros now zoneId. unfold Rich.zoneClick, Rich.canPlay. rewrite Hp.
    destruct (Rich.currentPlayerOf gs); [|reflexivity].
    rewrite andb_false_r. reflexivity.
  - intros zs. unfold Rich.presented. rewrite Hp, andb_false_r. reflexivity.
  - intros zs. unfold Session.drawShown. rewrite Hp, andb_false_r.
    reflexivity.
  - intros ts. unfold Rich.templeForm. rewrite Hp.
    destruct (Rich.currentPlayerOf gs); [|reflexivity].
    apply andb_false_r.
  - intros now t. unfold Rich.tick. rewrite Hp. reflexivity.
Qed.

Lemma paused_blocks_play_witness :
  Rich.zoneClick 60000 (Rich.handlePause 50000 rich_ready).1 "coral" = None /\
  Rich.templeClick 60000 (Rich.handlePause 50000 rich_ready).1 = None /\
  Rich.tick 61000 (Rich.handlePause 50000 rich_ready).1 Rich.initialTimer
  = (Rich.initialTimer, []).
Proof.
  destruct (paused_blocks_play (Rich.handlePause 50000 rich_ready).1 eq_refl)
    as (Ht & Hz & _ & _ & _ & Hk).
  split; [apply Hz|]. split; [apply Ht|apply Hk].
Defined.

Lemma handlePause_cycle tp tr gs :
  Rich.isPaused gs = false -> Rich.pauseStartTime gs = None ->
  let gs' := (Rich.handlePause tr (Rich.handlePause tp gs).1).1 in
  Rich.isPaused gs' = false /\ Rich.pauseStartTime gs' = None /\
  Rich.gameStartTime gs' = Rich.gameStartTime gs + (tr - tp) /\
  Rich.players gs' = Rich.players gs /\
  Rich.gameWinner gs' = Rich.gameWinner gs /\
  Rich.gameSettings gs' = Rich.gameSettings gs.
Proof.
  destruct gs as [pg ps cp gw st se wt ip pst]; simpl. intros -> ->.
  unfold Rich.handlePause; simpl. rewrite or0_Some. repeat split.
Qed.

(** X6. Over any number of pause and resume cycles the start of the game
    moves forward by exactly the total time spent paused, so that the
    countdown after the cycles is the one of a game that never paused,
    read that much earlier; players and winner are not touched. *)
Theorem pause_cycles_accumulate (cycles : list (Z * Z))
    (gs : Rich.GameState) :
  Rich.isPaused gs = false ->
  Rich.pauseStartTime gs = None ->
  let gs' := Session.pauseCycles cycles gs in
  Rich.isPaused gs' = false /\ Rich.pauseStartTime gs' = None /\
  Rich.gameStartTime gs'
  = Rich.gameStartTime gs + Session.pausedTotal cycles /\
  Rich.players gs' = Rich.players gs /\
  Rich.gameWinner gs' = Rich.gameWinner gs /\
  (forall now t,
     Rich.remaining now gs' t
     = Rich.remaining (now - Session.pausedTotal cycles) gs t) /\
  (forall now,
     Rich.mapTimeLeft now gs'
     = Rich.mapTimeLeft (now - Session.pausedTotal cycles) gs).
Proof.
  revert gs. induction cycles as [|[tp tr] cycles IH]; intros gs Hp Hs; simpl.
  - repeat split; try assumption; try lia; intros; rewrite Z.sub_0_r;
      reflexivity.
  - destruct (handlePause_cycle tp tr gs Hp Hs) as (Hp1 & Hs1 & Ht1 & Hpl1 & Hw1 & Hse1).
    destruct (IH _ Hp1 Hs1) as (Hp2 & Hs2 & Ht2 & Hpl2 & Hw2 & Hr2 & Hm2).
    split; [exact Hp2|]. split; [exact Hs2|].
    split; [rewrite Ht2, Ht1; lia|].
    split; [congruence|]. split; [congruence|]. split.
    + intros now t. rewrite Hr2. unfold Rich.remaining.
      rewrite Hs1, Hs, Ht1, Hse1. simpl. f_equal. lia.
    + intros now. rewrite Hm2. unfold Rich.mapTimeLeft.
      rewrite Ht1, Hse1. f_equal. lia.
Qed.

Lemma pause_cycles_accumulate_witness :
  Rich.gameStartTime
    (Session.pauseCycles [(5000, 9000); (20000, 21000)] rich_demo) = 5000.
Proof.
  destruct (pause_cycles_accumulate [(5000, 9000); (20000, 21000)] rich_demo
              eq_refl eq_refl) as (_ & _ & H & _).
  rewrite H. reflexivity.
Defined.

Lemma countdown_fixed_state (gs : Rich.GameState) (t : Rich.TimerState)
    (now later : Z) :
  now <= later ->
  0 <= Rich.remaining later gs t /\
  Rich.remaining later gs t <= Rich.remaining now gs t /\
  0 <= Rich.mapTimeLeft later gs /\
  Rich.mapTimeLeft later gs <= Rich.mapTimeLeft now gs /\
  (0 <= Shared.timeLimit (Rich.gameSettings gs) ->
   Rich.gameStartTime gs <= now ->
   Rich.mapTimeLeft now gs <= Shared.timeLimit (Rich.gameSettings gs) * 60000).
Proof.
  intros Hle. unfold Rich.remaining, Rich.mapTimeLeft, JS.Math_max0.
  destruct (JS.truthy_num (Rich.pauseStartTime gs)); repeat split; lia.
Qed.

(** The countdown is a function of the clock fields. *)
Lemma clock_countdown gs gs' :
  Session.clock gs' = Session.clock gs ->
  (forall now t, Rich.remaining now gs' t = Rich.remaining now gs t) /\
  (forall now, Rich.mapTimeLeft now gs' = Rich.mapTimeLeft now gs).
Proof.
  unfold Session.clock, Rich.remaining, Rich.mapTimeLeft.
  intros [= -> -> -> _]. split; reflexivity.
Qed.

Lemma clock_players gs m :
  Session.clock (Rich.assignState gs (Rich.G_players m)) = Session.clock gs.
Proof. destruct gs; reflexivity. Qed.

Lemma clock_page gs pg :
  Session.clock (Rich.updateGameState [Rich.G_currentPage pg] gs)
  = Session.clock gs.
Proof. destruct gs; reflexivity. Qed.

Lemma clock_setCurrentPlayer gs pid :
  Session.clock (Rich.setCurrentPlayer pid gs) = Session.clock gs.
Proof. destruct gs; reflexivity. Qed.

Lemma clock_register gs w wt :
  Session.clock
    (Rich.updateGameState [Rich.G_gameWinner w; Rich.G_winnerTime wt] gs)
  = Session.clock gs.
Proof. destruct gs; reflexivity. Qed.

Lemma clock_updatePlayer now pid updates gs :
  Session.clock (Rich.updatePlayer now pid updates gs) = Session.clock gs.
Proof.
  unfold Rich.updatePlayer.
  destruct (Rich.players gs !! pid); [apply clock_players|reflexivity].
Qed.

Lemma clock_addLog now captured pid entry gs :
  Session.clock (Rich.addLog now captured pid entry gs) = Session.clock gs.
Proof.
  unfold Rich.addLog.
  destruct (Rich.players captured !! pid);
    [apply clock_updatePlayer|reflexivity].
Qed.

Lemma clock_addCard now captured pid card gs :
  Session.clock (Rich.addCard now captured pid card gs) = Session.clock gs.
Proof.
  unfold Rich.addCard.
  destruct (Rich.players captured !! pid);
    [apply clock_updatePlayer|reflexivity].
Qed.

Lemma clock_handleQuestionAnswer now zoneId gs zs :
  Session.clock (Rich.handleQuestionAnswer now zoneId gs zs).1.1
  = Session.clock gs.
Proof.
  unfold Rich.handleQuestionAnswer.
  destruct (Rich.selectedAnswer zs) as [selected|]; [|reflexivity].
  destruct (Rich.currentQuestion zs) as [[k q]|]; [|reflexivity].
  destruct (Rich.currentPlayerOf gs) as [p|]; [|reflexivity].
  destruct (selected =? Shared.answer q).
  - destruct (String.eqb zoneId "coral");
      [|destruct (String.eqb zoneId "volcano" || String.eqb zoneId "kelp")];
      cbv zeta; simpl fst; rewrite clock_addLog; apply clock_updatePlayer.
  - cbv zeta; simpl fst. rewrite clock_addLog. apply clock_updatePlayer.
Qed.

Lemma clock_handleCardDraw now u1 u2 zoneId gs :
  Session.clock (Rich.handleCardDraw now u1 u2 zoneId gs) = Session.clock gs.
Proof.
  unfold Rich.handleCardDraw.
  destruct (Rich.currentPlayerOf gs) as [p|]; [|reflexivity].
  destruct (Cards.randomCard u1 u2) as [c|]; [|reflexivity].
  unfold Rich.applyCard. cbv zeta.
  rewrite clock_addLog, clock_addCard. apply clock_updatePlayer.
Qed.

Lemma clock_handleSubmit now correct gs ts :
  Session.clock (Rich.handleSubmit now correct gs ts).1.1 = Session.clock gs.
Proof.
  destruct (handleSubmit_state now correct gs ts)
    as [->|(p & c & s & t & _ & _ & _ & _ & [[_ ->]|[_ ->]])];
    [reflexivity| |].
  - rewrite clock_updatePlayer. apply clock_register.
  - apply clock_updatePlayer.
Qed.

Lemma clock_templeRun es s :
  Session.clock (templeRun es s).1 = Session.clock s.1.
Proof.
  revert s. induction es as [|e es IH]; intros s; [reflexivity|].
  simpl. change (fold_left (fun s e => templeStep e s) es (templeStep e s))
    with (templeRun es (templeStep e s)).
  rewrite IH. destruct s as [gs ts].
  destruct e as [pid|now correct]; unfold templeStep; cbn [fst snd].
  - rewrite clock_page. apply clock_setCurrentPlayer.
  - destruct (Rich.templeForm gs ts); [apply clock_handleSubmit|reflexivity].
Qed.

Lemma clock_visit v gs : Session.clock (visit v gs).1 = Session.clock gs.
Proof.
  unfold visit.
  pose proof (clock_setCurrentPlayer gs (v_player v)) as H0.
  set (gs0 := Rich.setCurrentPlayer (v_player v) gs) in *.
  destruct (Rich.currentPlayerOf gs0) as [p|]; [|exact H0].
  destruct (Rich.canPlay (v_now v) gs0 p); [|exact H0].
  set (gs1 := Rich.updateGameState _ gs0).
  assert (H1 : Session.clock gs1 = Session.clock gs)
    by (unfold gs1; rewrite clock_page; exact H0).
  assert (Hb : Session.clock (Rich.backClick gs1).1 = Session.clock gs)
    by (unfold Rich.backClick; cbn [fst]; rewrite clock_page; exact H1).
  destruct (Rich.presented gs1 _) as [k|]; [|exact Hb].
  destruct (v_end v) as [selected|]; [|exact Hb].
  cbn [fst]. unfold Rich.returnToMap.
  rewrite clock_page, clock_handleQuestionAnswer. exact H1.
Qed.

Lemma clock_cardVisit pid now u u1 u2 zoneId gs :
  Session.clock (Session.cardVisit pid now u u1 u2 zoneId gs)
  = Session.clock gs.
Proof.
  unfold Session.cardVisit.
  pose proof (clock_setCurrentPlayer gs pid) as H0.
  set (gs0 := Rich.setCurrentPlayer pid gs) in *.
  destruct (Rich.currentPlayerOf gs0) as [p|]; [|exact H0].
  destruct (Rich.canPlay now gs0 p); [|exact H0].
  set (gs1 := Rich.updateGameState _ gs0).
  assert (H1 : Session.clock gs1 = Session.clock gs)
    by (unfold gs1; rewrite clock_page; exact H0).
  destruct (Session.drawShown gs1 _).
  - unfold Rich.returnToMap. rewrite clock_page, clock_handleCardDraw.
    exact H1.
  - unfold Rich.backClick; cbn [fst]. rewrite clock_page. exact H1.
Qed.

Lemma clock_restore pid now gs :
  Session.clock (Session.step (Session.ARestore pid now) gs)
  = Session.clock gs.
Proof.
  unfold Session.step. cbv zeta.
  pose proof (clock_setCurrentPlayer gs pid) as H0.
  set (gs0 := Rich.setCurrentPlayer pid gs) in *.
  unfold Session.restoreClick.
  destruct (Rich.currentPlayerOf gs0) as [p|]; [|exact H0].
  destruct (Session.restoreShown now gs0 p); [|exact H0].
  cbn [fst]. rewrite clock_addLog, clock_updatePlayer. exact H0.
Qed.

Lemma clock_templeVisit pid now answers gs :
  Session.clock (Session.templeVisit pid now answers gs) = Session.clock gs.
Proof.
  unfold Session.templeVisit.
  pose proof (clock_setCurrentPlayer gs pid) as H0.
  set (gs0 := Rich.setCurrentPlayer pid gs) in *.
  destruct (Rich.templeClick now gs0) as [[gs1 cues]|] eqn:E; [|exact H0].
  destruct (bool_decide (cues = ["success"])); [|exact H0].
  rewrite clock_templeRun. cbn [fst].
  revert E. unfold Rich.templeClick.
  destruct (Rich.currentPlayerOf gs0); [|discriminate].
  destruct (_ && _ && _); [|discriminate].
  intros [= <- _].
  change (Rich.assignState gs0 (Rich.G_currentPage "temple"))
    with (Rich.updateGameState [Rich.G_currentPage "temple"] gs0).
  rewrite clock_page. exact H0.
Qed.

Lemma clock_step a gs :
  Session.isPlay a = true ->
  Session.clock (Session.step a gs) = Session.clock gs.
Proof.
  destruct a as [now sfx nm col startNow|v|pid now u u1 u2 zoneId|pid now
                 |pid now answers|now]; try discriminate; intros _.
  - apply clock_visit.
  - apply clock_cardVisit.
  - apply clock_restore.
  - apply clock_templeVisit.
Qed.

Lemma clock_run actions gs :
  Forall (fun a => Session.isPlay a = true) actions ->
  Session.clock (Session.run actions gs) = Session.clock gs.
Proof.
  intros H. revert gs. induction H as [|a actions Ha _ IH]; intros gs;
    [reflexivity|].
  unfold Session.run in *. simpl. rewrite IH. apply clock_step, Ha.
Qed.

(** X7. Play does not touch the clock: no zone visit, answer, card draw,
    restore or temple visit changes the start time, the settings or the
    pause marker.  So over any sequence of such actions, with no join and
    no pause or resume among them, the countdown read later is never above
    the one read earlier, is never negative, and once at zero stays at
    zero, on the map page and in the timer alike; after the start of the
    game it is at most the time limit.  (A join restarts the clock and a
    resume shifts it.) *)
Theorem countdown_monotone (actions : list Session.Action)
    (gs : Rich.GameState) (t : Rich.TimerState) (now later : Z) :
  Forall (fun a => Session.isPlay a = true) actions ->
  now <= later ->
  let gs' := Session.run actions gs in
  Session.clock gs' = Session.clock gs /\
  0 <= Rich.remaining later gs' t /\
  Rich.remaining later gs' t <= Rich.remaining now gs t /\
  (Rich.remaining now gs t = 0 -> Rich.remaining later gs' t = 0) /\
  0 <= Rich.mapTimeLeft later gs' /\
  Rich.mapTimeLeft later gs' <= Rich.mapTimeLeft now gs /\
  (Rich.mapTimeLeft now gs = 0 -> Rich.mapTimeLeft later gs' = 0) /\
  (0 <= Shared.timeLimit (Rich.gameSettings gs) ->
   Rich.gameStartTime gs <= now ->
   Rich.mapTimeLeft later gs'
   <= Shared.timeLimit (Rich.gameSettings gs) * 60000).
Proof.
  intros Hplay Hle gs'.
  pose proof (clock_run actions gs Hplay) as Hc. fold gs' in Hc.
  destruct (clock_countdown gs gs' Hc) as [Hr Hm].
  destruct (countdown_fixed_state gs t now later Hle)
    as (H1 & H2 & H3 & H4 & H5).
  rewrite Hr, Hm. repeat split; try assumption; lia.
Qed.

Lemma countdown_monotone_witness :
  Rich.mapTimeLeft 1900000
    (Session.run
       [Session.AVisit (mkVisit "player_a" 1000 0 "coral" (AnswerWith 0));
        Session.ADraw "player_a" 2000 0 (1 # 4) (1 # 2) "cave";
        Session.ATemple "player_a" 3000 [(3100, true)]]
       rich_ready) = 0.
Proof.
  apply (countdown_monotone
           [Session.AVisit (mkVisit "player_a" 1000 0 "coral" (AnswerWith 0));
            Session.ADraw "player_a" 2000 0 (1 # 4) (1 # 2) "cave";
            Session.ATemple "player_a" 3000 [(3100, true)]]
           rich_ready Rich.initialTimer 1800000 1900000);
    [repeat constructor | lia | reflexivity].
Defined.

(** ** Draws and questions are always available when they should be *)

Lemma random_pick_in_range {A} (u : Q) (l : list A) :
  (0 <= u)%Q -> (u < 1)%Q -> l <> [] ->
  exists x, JS.random_pick u l = Some x /\ x ∈ l.
Proof.
  intros H0 H1 Hl. unfold JS.random_pick, JS.Math_floor.
  set (n := inject_Z (Z.of_nat (length l))).
  assert (Hn : (0 < n)%Q).
  { unfold n. rewrite <- (Zlt_Qlt 0). destruct l; [contradiction|simpl; lia]. }
  assert (Hlo : 0 <= Qfloor (u * n)).
  { change 0 with (Qfloor 0). apply Qfloor_resp_le. nra. }
  assert (Hhi : Qfloor (u * n) < Z.of_nat (length l)).
  { rewrite Zlt_Qlt. fold n.
    eapply Qle_lt_trans; [apply Qfloor_le|]. nra. }
  destruct (Z.ltb_spec (Qfloor (u * n)) 0) as [|_]; [lia|].
  destruct (l !! Z.to_nat (Qfloor (u * n))) as [x|] eqn:E.
  - exists x. split; [reflexivity|]. eapply list_elem_of_lookup_2, E.
  - apply lookup_ge_None in E. lia.
Qed.

Lemma selectRarity_four (r : Q) :
  Cards.selectRarity r = "common" \/ Cards.selectRarity r = "rare" \/
  Cards.selectRarity r = "epic" \/ Cards.selectRarity r = "legendary".
Proof.
  rewrite selectRarity_cases.
  destruct (Qle_bool r 50); [auto|]. destruct (Qle_bool r 80); [auto|].
  destruct (Qle_bool r 95); [auto|]. destruct (Qle_bool r 100); auto.
Qed.

Lemma cardsOfRarity_elem c rarity :
  c ∈ Cards.cardsOfRarity rarity ->
  c ∈ Cards.CARD_REWARDS /\ Cards.card_rarity c = rarity.
Proof.
  unfold Cards.cardsOfRarity. intros H.
  apply list_elem_of_filter in H as [H1 H2]. auto.
Qed.

Lemma CARD_REWARDS_amounts c :
  c ∈ Cards.CARD_REWARDS -> 0 <= Cards.card_amount c.
Proof.
  assert (H : Forall (fun c => 0 <= Cards.card_amount c) Cards.CARD_REWARDS)
    by (repeat constructor; simpl; lia).
  rewrite Forall_forall in H. apply H.
Qed.

(** X8. Whatever the rarity draw, and for every value in [0, 1) of the
    second [Math.random()], a draw yields a card: it is a card of the
    catalogue, of the rarity the walk selected, and its amount is not
    negative. *)
Theorem draw_yields_card (u1 u2 : Q) :
  (0 <= u2)%Q -> (u2 < 1)%Q ->
  exists c,
    Cards.randomCard u1 u2 = Some c /\
    c ∈ Cards.CARD_REWARDS /\
    Cards.card_rarity c = Cards.selectRarity (Cards.drawRandom u1) /\
    0 <= Cards.card_amount c.
Proof.
  intros H0 H1. unfold Cards.randomCard.
  set (rarity := Cards.selectRarity (Cards.drawRandom u1)).
  assert (Hne : Cards.cardsOfRarity rarity <> []).
  { destruct (selectRarity_four (Cards.drawRandom u1)) as [E|[E|[E|E]]];
      unfold rarity; rewrite E; discriminate. }
  destruct (random_pick_in_range u2 _ H0 H1 Hne) as (c & Hc & Hin).
  apply cardsOfRarity_elem in Hin as [Hin Hr].
  exists c. split; [exact Hc|]. split; [exact Hin|]. split; [exact Hr|].
  apply CARD_REWARDS_amounts, Hin.
Qed.

Lemma draw_yields_card_witness :
  exists c, Cards.randomCard (99 # 100) (3 # 4) = Some c /\
            Cards.card_rarity c = "legendary".
Proof.
  destruct (draw_yields_card (99 # 100) (3 # 4)) as (c & Hc & _ & Hr & _);
    [vm_compute; discriminate | reflexivity |].
  exists c. split; [exact Hc | exact Hr].
Defined.

Lemma availableQuestions_intro questions answered k q :
  questions !! k = Some q -> k ∉ answered ->
  (k, q) ∈ Rich.availableQuestions questions answered.
Proof.
  intros Hl Hn. unfold Rich.availableQuestions.
  apply list_elem_of_filter. split; [exact Hn|].
  apply elem_of_lookup_imap. eauto.
Qed.

(** X9. In a question zone, with the game running: as long as the player
    has left some index of the zone's bank unanswered, opening the zone
    presents a question (for every draw in [0, 1)); once every index has
    been answered nothing is presented, and the answer handler then leaves
    the game state as it is, so no action chance is spent. *)
Theorem question_presented_while_left (u : Q) (zoneId : string)
    (gs : Rich.GameState) (p : Rich.Player) :
  Rich.currentPlayerOf gs = Some p ->
  Rich.isPaused gs = false ->
  JS.includes_str ["coral"; "volcano"; "kelp"] zoneId = true ->
  (0 <= u)%Q -> (u < 1)%Q ->
  let answered := default [] (Rich.answeredQuestions p !! zoneId) in
  let bank := default [] (Rich.QUESTIONS zoneId) in
  let zs := Rich.zoneEffect u zoneId gs Rich.initialZone in
  ((exists k, (k < length bank)%nat /\ k ∉ answered) ->
   exists k, Rich.presented gs zs = Some k) /\
  ((forall k, (k < length bank)%nat -> k ∈ answered) ->
   Rich.presented gs zs = None /\
   forall now selected,
     (Rich.handleQuestionAnswer now zoneId gs
        (Rich.selectAnswer selected zs)).1.1 = gs).
Proof.
  intros Hc Hp Hz H0 H1 answered bank zs.
  unfold zs, Rich.zoneEffect. rewrite Hc, Hz. fold answered bank.
  split.
  - intros (k & Hk & Hn).
    destruct (lookup_lt_is_Some_2 bank k Hk) as [q Hq].
    pose proof (availableQuestions_intro _ _ _ _ Hq Hn) as Hin.
    assert (Hne : Rich.availableQuestions bank answered <> [])
      by (intros E; rewrite E in Hin; inversion Hin).
    destruct (Rich.availableQuestions bank answered) as [|a l] eqn:E;
      [contradiction|].
    destruct (random_pick_in_range u (a :: l) H0 H1 Hne) as (x & Hx & _).
    simpl length. change (0 <? S (length l))%nat with true. cbv iota.
    rewrite Hx. exists x.1. unfold Rich.presented. simpl. rewrite Hp.
    destruct x; reflexivity.
  - intros Hall.
    assert (E : Rich.availableQuestions bank answered = []).
    { destruct (Rich.availableQuestions bank answered) as [|[k q] l] eqn:E;
        [reflexivity|]. exfalso.
      assert (Hin : (k, q) ∈ Rich.availableQuestions bank answered)
        by (rewrite E; left).
      apply availableQuestions_elem in Hin as [Hn Hl].
      apply Hn, Hall. eapply lookup_lt_Some, Hl. }
    rewrite E. simpl. split; [unfold Rich.presented; simpl; rewrite Hp; reflexivity|].
    intros now selected. unfold Rich.handleQuestionAnswer. reflexivity.
Qed.

Lemma question_presented_while_left_witness :
  exists k, Rich.presented rich_demo
              (Rich.zoneEffect (1 # 2) "kelp" rich_demo Rich.initialZone)
            = Some k.
Proof.
  apply (question_presented_while_left (1 # 2) "kelp" rich_demo rich_ann);
    [reflexivity | reflexivity | reflexivity | vm_compute; discriminate
    | reflexivity |].
  exists 0%nat. split; [vm_compute; lia | vm_compute; apply not_elem_of_nil].
Defined.

(** ** What a draw gives *)

Lemma rich_applyCard_exact now zoneId gs p c :
  Rich.players gs !! Rich.id p = Some p ->
  Rich.players (Rich.applyCard now zoneId gs p c) !! Rich.id p
  = Some (rich_updated now
            (rich_updated now
               (rich_updated now p (Rich.cardUpdates p zoneId c))
               [Rich.F_collectedCards
                  (Rich.collectedCards p
                   ++ [Shared.mkCollected (Cards.card_id c)
                         (Cards.card_rarity c) (Cards.card_type c)
                         (Cards.card_amount c) now])])
            [Rich.F_log
               (Rich.log p
                ++ [Shared.mkLog "card" zoneId
                      (if String.eqb (Cards.card_type c) "skip"
                       then "skip" else "success")
                      (Cards.card_amount c) now])]).
Proof.
  intros Hp. unfold Rich.applyCard, Rich.addLog, Rich.addCard. rewrite Hp.
  erewrite rich_updatePlayer_lookup; [reflexivity|].
  erewrite rich_updatePlayer_lookup; [reflexivity|].
  apply rich_updatePlayer_lookup. exact Hp.
Qed.

Lemma simple_applyCard_exact now zoneId gs p c :
  Simple.players gs !! Simple.id p = Some p ->
  Simple.players (Simple.applyCard now zoneId gs p c) !! Simple.id p
  = Some (simple_updated now
            (simple_updated now
               (simple_updated now p (Simple.cardUpdates p zoneId c))
               [Simple.F_collectedCards
                  (Simple.collectedCards p
                   ++ [Shared.mkCollected (Cards.card_id c)
                         (Cards.card_rarity c) (Cards.card_type c)
                         (Cards.card_amount c) now])])
            [Simple.F_log
               (Simple.log p
                ++ [Shared.mkLog "card" zoneId
                      (if String.eqb (Cards.card_type c) "skip"
                       then "skip" else "success")
                      (Cards.card_amount c) now])]).
Proof.
  intros Hp. unfold Simple.applyCard, Simple.addLog, Simple.addCard.
  rewrite Hp.
  erewrite simple_updatePlayer_lookup; [reflexivity|].
  erewrite simple_updatePlayer_lookup; [reflexivity|].
  apply simple_updatePlayer_lookup. exact Hp.
Qed.

(** X10. In both variants a draw gives the card's amount in coins for a
    'coins' card, in shells for a 'shells' card, in both for a 'bonus' card,
    and nothing for any other type; the card is appended to the player's
    collection and an entry to the log, both stamped with the time of the
    draw, and the zone is listed as completed once.  The collection and
    log updates, although computed from the state the handler started
    with, do not undo the reward. *)
Theorem draw_effects :
  (forall now u1 u2 zoneId gs p c,
     Rich.currentPlayerOf gs = Some p ->
     Rich.players gs !! Rich.id p = Some p ->
     Cards.randomCard u1 u2 = Some c ->
     exists p',
       Rich.players (Rich.handleCardDraw now u1 u2 zoneId gs) !! Rich.id p
       = Some p' /\
       Rich.coins p'
       = Rich.coins p
         + (if String.eqb (Cards.card_type c) "coins"
               || String.eqb (Cards.card_type c) "bonus"
            then Cards.card_amount c else 0) /\
       Rich.shells p'
       = Rich.shells p
         + (if String.eqb (Cards.card_type c) "shells"
               || String.eqb (Cards.card_type c) "bonus"
            then Cards.card_amount c else 0) /\
       Rich.collectedCards p'
       = (Rich.collectedCards p
          ++ [Shared.mkCollected (Cards.card_id c) (Cards.card_rarity c)
                (Cards.card_type c) (Cards.card_amount c) now])%list /\
       length (Rich.log p') = S (length (Rich.log p)) /\
       Rich.completedZones p'
       = (if JS.includes_str (Rich.completedZones p) zoneId
          then Rich.completedZones p
          else Rich.completedZones p ++ [zoneId])%list /\
       Rich.zoneProgress p' = Rich.zoneProgress p /\
       Rich.isWinner p' = Rich.isWinner p) /\
  (forall now u1 u2 zoneId gs p c,
     Simple.currentPlayerOf gs = Some p ->
     Simple.players gs !! Simple.id p = Some p ->
     Cards.randomCard u1 u2 = Some c ->
     exists p',
       Simple.players (Simple.handleCardDraw now u1 u2 zoneId gs)
         !! Simple.id p = Some p' /\
       Simple.coins p'
       = Simple.coins p
         + (if String.eqb (Cards.card_type c) "coins"
               || String.eqb (Cards.card_type c) "bonus"
            then Cards.card_amount c else 0) /\
       Simple.shells p'
       = Simple.shells p
         + (if String.eqb (Cards.card_type c) "shells"
               || String.eqb (Cards.card_type c) "bonus"
            then Cards.card_amount c else 0) /\
       Simple.collectedCards p'
       = (Simple.collectedCards p
          ++ [Shared.mkCollected (Cards.card_id c) (Cards.card_rarity c)
                (Cards.card_type c) (Cards.card_amount c) now])%list /\
       length (Simple.log p') = S (length (Simple.log p)) /\
       Simple.completedZones p'
       = (if JS.includes_str (Simple.completedZones p) zoneId
          then Simple.completedZones p
          else Simple.completedZones p ++ [zoneId])%list /\
       Simple.isWinner p' = Simple.isWinner p).
Proof.
  split; intros now u1 u2 zoneId gs p c Hcur Hp Hc.
  - unfold Rich.handleCardDraw. rewrite Hcur, Hc.
    eexists. split; [apply rich_applyCard_exact, Hp|].
    unfold Rich.cardUpdates.
    destruct (String.eqb_spec (Cards.card_type c) "coins") as [E|_];
      [rewrite E; destruct p; simpl; rewrite ?length_app; simpl;
       repeat split; lia|].
    destruct (String.eqb_spec (Cards.card_type c) "shells") as [E|_];
      [rewrite E; destruct p; simpl; rewrite ?length_app; simpl;
       repeat split; lia|].
    destruct (String.eqb_spec (Cards.card_type c) "bonus") as [E|_];
      [rewrite E; destruct p; simpl; rewrite ?length_app; simpl;
       repeat split; lia|].
    destruct (String.eqb (Cards.card_type c) "action");
      destruct p; simpl; rewrite ?length_app; simpl; repeat split; lia.
  - unfold Simple.handleCardDraw. rewrite Hcur, Hc.
    eexists. split; [apply simple_applyCard_exact, Hp|].
    unfold Simple.cardUpdates.
    destruct (String.eqb_spec (Cards.card_type c) "coins") as [E|_];
      [rewrite E; destruct p; simpl; rewrite ?length_app; simpl;
       repeat split; lia|].
    destruct (String.eqb_spec (Cards.card_type c) "shells") as [E|_];
      [rewrite E; destruct p; simpl; rewrite ?length_app; simpl;
       repeat split; lia|].
    destruct (String.eqb_spec (Cards.card_type c) "bonus") as [E|_];
      [rewrite E; destruct p; simpl; rewrite ?length_app; simpl;
       repeat split; lia|].
    destruct (String.eqb (Cards.card_type c) "action");
      destruct p; simpl; rewrite ?length_app; simpl; repeat split; lia.
Qed.

Lemma draw_effects_witness :
  exists p',
    Rich.players (Rich.handleCardDraw 9 (1 # 4) (3 # 4) "cave" rich_demo)
      !! "player_a" = Some p' /\
    Rich.coins p' = 1 /\ Rich.shells p' = 1 /\
    Rich.completedZones p' = ["cave"].
Proof.
  destruct draw_effects as (HR & _).
  destruct (HR 9 (1 # 4)%Q (3 # 4)%Q "cave" rich_demo rich_ann
              (Cards.mkCard "small_blessing" "bonus" 1 "common")
              eq_refl eq_refl eq_refl)
    as (p' & Hl & Hc & Hs & _ & _ & Hz & _).
  exists p'. repeat split; assumption.
Defined.

(** ** What an answer costs and gives *)

(** X11. In the richer variant every answer costs exactly one action
    chance.  A wrong answer changes nothing else of the player's coins,
    shells, zone progress and completed zones.  A correct answer adds the
    difficulty's shells in the coral zone and the difficulty's coins in the
    volcano and kelp zones, adds one to the zone's progress, and lists the
    zone as completed when the progress reaches 3 and it is not listed
    yet. *)
Theorem answer_effects (now : Z) (zoneId : string) (gs : Rich.GameState)
    (zs : Rich.ZoneLocal) (p : Rich.Player) (k : nat) (q : Shared.Question)
    (selected : Z) :
  Rich.currentPlayerOf gs = Some p ->
  Rich.players gs !! Rich.id p = Some p ->
  Rich.currentQuestion zs = Some (k, q) ->
  Rich.selectedAnswer zs = Some selected ->
  exists p',
    Rich.players (Rich.handleQuestionAnswer now zoneId gs zs).1.1
      !! Rich.id p = Some p' /\
    Rich.actionChances p' = Rich.actionChances p - 1 /\
    Rich.collectedCards p' = Rich.collectedCards p /\
    length (Rich.log p') = S (length (Rich.log p)) /\
    (selected <> Shared.answer q ->
     Rich.coins p' = Rich.coins p /\ Rich.shells p' = Rich.shells p /\
     Rich.zoneProgress p' = Rich.zoneProgress p /\
     Rich.completedZones p' = Rich.completedZones p) /\
    (selected = Shared.answer q ->
     Rich.coins p'
     = Rich.coins p
       + (if String.eqb zoneId "volcano" || String.eqb zoneId "kelp"
          then match Shared.difficulty q with
               | Shared.easy => 2 | Shared.medium => 3 | Shared.hard => 4
               end
          else 0) /\
     Rich.shells p'
     = Rich.shells p
       + (if String.eqb zoneId "coral"
          then match Shared.difficulty q with
               | Shared.easy => 1 | Shared.medium => 2 | Shared.hard => 3
               end
          else 0) /\
     Rich.zoneProgress p' !! zoneId
     = Some (default 0 (Rich.zoneProgress p !! zoneId) + 1) /\
     Rich.completedZones p'
     = (if (default 0 (Rich.zoneProgress p !! zoneId) + 1 >=? 3)
           && negb (JS.includes_str (Rich.completedZones p) zoneId)
        then Rich.completedZones p ++ [zoneId]
        else Rich.completedZones p)%list).
Proof.
  intros Hc Hp Hq Hs. unfold Rich.handleQuestionAnswer.
  rewrite Hs, Hq, Hc.
  destruct (Z.eqb_spec selected (Shared.answer q)) as [Heq|Hne].
  - destruct (String.eqb_spec zoneId "coral") as [->|Hcoral];
      [|destruct (String.eqb zoneId "volcano" || String.eqb zoneId "kelp")
          eqn:Evk];
      cbv zeta; unfold Rich.addLog; rewrite Hp; simpl fst.
    all: eexists; split;
      [ erewrite rich_updatePlayer_lookup;
        [reflexivity | apply rich_updatePlayer_lookup, Hp] |].
    all: destruct p as [i n c co sh cz zp aq ac lg ach ts la w wt cc];
      unfold rich_updated; simpl; rewrite ?length_app; simpl;
      rewrite ?lookup_insert_eq;
      repeat split; try (intros; contradiction); try lia;
      try (destruct (Shared.difficulty q); reflexivity); try reflexivity.
  - cbv zeta; unfold Rich.addLog; rewrite Hp; simpl fst.
    eexists; split;
      [ erewrite rich_updatePlayer_lookup;
        [reflexivity | apply rich_updatePlayer_lookup, Hp] |].
    destruct p as [i n c co sh cz zp aq ac lg ach ts la w wt cc];
      unfold rich_updated; simpl; rewrite ?length_app; simpl;
      repeat split; try (intros; contradiction); try lia.
Qed.

Lemma answer_effects_witness :
  exists p',
    Rich.players
      (Rich.handleQuestionAnswer 7 "coral" rich_demo rich_coral_visit).1.1
      !! "player_a" = Some p' /\
    Rich.actionChances p' = 4 /\ Rich.shells p' = 3 /\
    Rich.zoneProgress p' !! "coral" = Some 1.
Proof.
  destruct (answer_effects 7 "coral" rich_demo rich_coral_visit rich_ann
              2%nat (Shared.mkQuestion 1 Shared.hard) 1
              eq_refl eq_refl eq_refl eq_refl)
    as (p' & Hl & Hac & _ & _ & _ & Hok).
  destruct (Hok eq_refl) as (_ & Hsh & Hzp & _).
  exists p'. repeat split; assumption.
Defined.

(** X12. In the simpler variant a correct answer pays 1, 2 or 3 coins by
    difficulty, plus one more exactly when the bonus draw is below 0.3; it
    lists the zone as completed on the first correct answer; a wrong answer
    changes neither coins nor completed zones.  Either way one action
    chance is spent and shells are untouched. *)
Theorem simple_answer_effects (now : Z) (u : Q) (zoneId : string)
    (gs : Simple.GameState) (p : Simple.Player) (q : Shared.Question)
    (selected : Z) :
  Simple.currentPlayerOf gs = Some p ->
  Simple.players gs !! Simple.id p = Some p ->
  exists p',
    Simple.players
      (SimpleZone.handleQuestionAnswer now u zoneId (Some selected) (Some q)
         gs).1 !! Simple.id p = Some p' /\
    Simple.actionChances p' = Simple.actionChances p - 1 /\
    Simple.shells p' = Simple.shells p /\
    (selected <> Shared.answer q ->
     Simple.coins p' = Simple.coins p /\
     Simple.completedZones p' = Simple.completedZones p) /\
    (selected = Shared.answer q ->
     Simple.coins p'
     = Simple.coins p
       + match Shared.difficulty q with
         | Shared.easy => 1 | Shared.medium => 2 | Shared.hard => 3
         end
       + (if Qle_bool SimpleZone.threshold_0_3 u then 0 else 1) /\
     zoneId ∈ Simple.completedZones p' /\
     Simple.completedZones p'
     = (if JS.includes_str (Simple.completedZones p) zoneId
        then Simple.completedZones p
        else Simple.completedZones p ++ [zoneId])%list).
Proof.
  intros Hc Hp. unfold SimpleZone.handleQuestionAnswer. rewrite Hc.
  destruct (Z.eqb_spec selected (Shared.answer q)) as [Heq|Hne];
    cbv zeta; unfold Simple.addLog; rewrite Hp; simpl fst.
  - eexists; split;
      [ erewrite simple_updatePlayer_lookup;
        [reflexivity | apply simple_updatePlayer_lookup, Hp] |].
    assert (Hin : zoneId ∈
              (if JS.includes_str (Simple.completedZones p) zoneId
               then Simple.completedZones p
               else Simple.completedZones p ++ [zoneId])%list).
    { destruct (JS.includes_str (Simple.completedZones p) zoneId) eqn:E.
      - unfold JS.includes_str in E. apply existsb_exists in E as (x & Hx & Ex).
        apply String.eqb_eq in Ex. subst x. apply list_elem_of_In, Hx.
      - apply elem_of_app. right. apply list_elem_of_singleton. reflexivity. }
    destruct p as [i n c co sh cz ac lg ach ts la w wt cc];
      unfold simple_updated, SimpleZone.bonusReward, SimpleZone.baseReward;
      simpl in *.
    repeat split; try (intros; contradiction); try lia; try exact Hin.
  - eexists; split;
      [ erewrite simple_updatePlayer_lookup;
        [reflexivity | apply simple_updatePlayer_lookup, Hp] |].
    destruct p as [i n c co sh cz ac lg ach ts la w wt cc];
      unfold simple_updated; simpl;
      repeat split; try (intros; contradiction); try lia.
Qed.

Lemma simple_answer_effects_witness :
  exists p',
    Simple.players
      (SimpleZone.handleQuestionAnswer 7 (1 # 10) "coral" (Some 1)
         (Some (Shared.mkQuestion 1 Shared.hard)) simple_demo).1
      !! "player_a" = Some p' /\
    Simple.coins p' = 4 /\ Simple.actionChances p' = 4.
Proof.
  destruct (simple_answer_effects 7 (1 # 10) "coral" simple_demo simple_ann
              (Shared.mkQuestion 1 Shared.hard) 1 eq_refl eq_refl)
    as (p' & Hl & Hac & _ & _ & Hok).
  destruct (Hok eq_refl) as (Hco & _).
  exists p'. repeat split; assumption.
Defined.

(** ** The restore button *)

(** X13. The restore button exists only for a player with no action
    chance left (in a game that has not ended, for a player who has not
    won); a click leaves the player with exactly 3 chances, within the
    maximum of 5, touches neither coins nor shells, and removes the button
    again.  A pause does not stop it. *)
Theorem restore_gives_three (now : Z) (gs : Rich.GameState)
    (p : Rich.Player) :
  Rich.currentPlayerOf gs = Some p ->
  Rich.players gs !! Rich.id p = Some p ->
  (Rich.actionChances p <> 0 -> Session.restoreClick now gs = None) /\
  (Session.restoreShown now gs p = true ->
   exists gs' p',
     Session.restoreClick now gs = Some (gs', ["reward"]) /\
     Rich.players gs' !! Rich.id p = Some p' /\
     Rich.actionChances p' = 3 /\
     Rich.actionChances p' <= Shared.maxActionChances Rich.GAME_SETTINGS /\
     Rich.coins p' = Rich.coins p /\ Rich.shells p' = Rich.shells p /\
     Rich.completedZones p' = Rich.completedZones p /\
     forall later, Session.restoreShown later gs' p' = false).
Proof.
  intros Hc Hp. unfold Session.restoreClick. rewrite Hc. split.
  - intros Hne. unfold Session.restoreShown.
    destruct (Z.eqb_spec (Rich.actionChances p) 0); [contradiction|].
    reflexivity.
  - intros Hshown. rewrite Hshown.
    assert (H0 : Rich.actionChances p = 0).
    { unfold Session.restoreShown in Hshown.
      destruct (Z.eqb_spec (Rich.actionChances p) 0); [assumption|].
      discriminate. }
    unfold Rich.addLog. rewrite Hp.
    eexists _, _. split; [reflexivity|]. split.
    + erewrite rich_updatePlayer_lookup;
        [reflexivity | apply rich_updatePlayer_lookup, Hp].
    + destruct p as [i n c co sh cz zp aq ac lg ach ts la w wt cc];
        unfold rich_updated, Session.restoreShown; simpl in *. subst ac.
      repeat split; simpl; lia.
Qed.

Lemma restore_gives_three_witness :
  exists gs' p',
    Session.restoreClick 60000
      (Rich.updatePlayer 2 "player_a" [Rich.F_actionChances 0] rich_demo)
    = Some (gs', ["reward"]) /\
    Rich.players gs' !! "player_a" = Some p' /\ Rich.actionChances p' = 3.
Proof.
  destruct (restore_gives_three 60000
              (Rich.updatePlayer 2 "player_a" [Rich.F_actionChances 0]
                 rich_demo)
              (Rich.mkPlayer "player_a" "Ann" "red" 0 0 [] ∅ ∅ 0 [] [] 0 2
                 false None [])
              eq_refl eq_refl) as (_ & H).
  destruct (H eq_refl) as (gs' & p' & Hr & Hl & Hac & _).
  exists gs', p'. repeat split; assumption.
Defined.

(** ** Temple rewards *)

(** X14. The submit that completes the gauntlet marks the player as a
    winner at that time and pays 50 coins and 25 shells when no winner is
    registered yet, 30 coins and 15 shells otherwise; the stored score is
    the projection of the new counters, so for a player whose score was in
    step it grows by 225, respectively 135. *)
Theorem temple_rewards (now : Z) (gs : Rich.GameState)
    (ts : Rich.TempleLocal) (p : Rich.Player) :
  Rich.currentPlayerOf gs = Some p ->
  Rich.players gs !! Rich.id p = Some p ->
  Rich.hasPuzzle ts = true ->
  Rich.finishes ts = true ->
  exists p',
    Rich.players (Rich.handleSubmit now true gs ts).1.1 !! Rich.id p
    = Some p' /\
    Rich.isWinner p' = true /\ Rich.winTime p' = Some now /\
    Rich.actionChances p' = Rich.actionChances p /\
    Rich.completedZones p' = Rich.completedZones p /\
    (JS.truthy_str (Rich.gameWinner gs) = false ->
     Rich.coins p' = Rich.coins p + 50 /\
     Rich.shells p' = Rich.shells p + 25 /\
     (Rich.totalScore p = Rich.scoreOf p ->
      Rich.totalScore p' = Rich.totalScore p + 225)) /\
    (JS.truthy_str (Rich.gameWinner gs) = true ->
     Rich.coins p' = Rich.coins p + 30 /\
     Rich.shells p' = Rich.shells p + 15 /\
     (Rich.totalScore p = Rich.scoreOf p ->
      Rich.totalScore p' = Rich.totalScore p + 135)).
Proof.
  intros Hc Hp Hpz Hf. rewrite (handleSubmit_finish now gs ts p Hc Hpz Hf).
  destruct (JS.truthy_str (Rich.gameWinner gs)).
  - eexists. split; [apply rich_updatePlayer_lookup, Hp|].
    destruct p as [i n c co sh cz zp aq ac lg ach tsc la w wt cc];
      unfold rich_updated, Rich.scoreOf; simpl.
    repeat split; try discriminate; intros; simpl in *; lia.
  - eexists. split;
      [apply rich_updatePlayer_lookup; rewrite rich_players_register;
       exact Hp|].
    destruct p as [i n c co sh cz zp aq ac lg ach tsc la w wt cc];
      unfold rich_updated, Rich.scoreOf; simpl.
    repeat split; try discriminate; intros; simpl in *; lia.
Qed.

Lemma temple_rewards_witness :
  exists p',
    Rich.players
      (Rich.handleSubmit 300 true rich_ready (Rich.mkTemple 2 2 false)).1.1
      !! "player_a" = Some p' /\
    Rich.coins p' = 100 /\ Rich.shells p' = 45 /\ Rich.totalScore p' = 425.
Proof.
  destruct (temple_rewards 300 rich_ready (Rich.mkTemple 2 2 false)
              (Rich.mkPlayer "player_a" "Ann" "red" 50 20 [] ∅ ∅ 5 [] [] 200
                 1 false None [])
              eq_refl eq_refl eq_refl eq_refl)
    as (p' & Hl & _ & _ & _ & _ & Hfirst & _).
  destruct (Hfirst eq_refl) as (Hco & Hsh & Hsc).
  exists p'. split; [exact Hl|]. split; [exact Hco|]. split; [exact Hsh|].
  apply Hsc. reflexivity.
Defined.

(** ** The gauntlet *)

Lemma submits_snoc bs n b :
  Session.submits (bs ++ [(n, b)])
  = (Session.submits bs ++ [Submit n b])%list.
Proof. unfold Session.submits. rewrite map_app. reflexivity. Qed.

Lemma templeStep_complete_stays n b s :
  Rich.isComplete s.2 = true -> templeStep (Submit n b) s = s.
Proof.
  intros Hc. destruct s as [gs ts]; simpl in *.
  unfold Rich.templeForm. rewrite Hc.
  destruct (Rich.currentPlayerOf gs); [|reflexivity].
  rewrite orb_true_r. reflexivity.
Qed.

(** While the gauntlet is open nothing of the game state has changed, and
    the page's two counters both hold the number of correct answers given
    since the last wrong one. *)
Lemma temple_streak gs p bs :
  Rich.currentPlayerOf gs = Some p ->
  Rich.isWinner p = false ->
  Rich.isPaused gs = false ->
  let s := templeRun (Session.submits bs) (gs, Rich.initialTemple) in
  Rich.isComplete s.2 = false ->
  s.1 = gs /\
  exists (c : nat) pre,
    (c <= 2)%nat /\
    Rich.currentPuzzleIndex s.2 = Z.of_nat c /\
    Rich.correctAnswers s.2 = Z.of_nat c /\
    map snd bs = (pre ++ replicate c true)%list /\
    (pre = [] \/ exists pre', pre = (pre' ++ [false])%list).
Proof.
  intros Hc Hw Hp. induction bs as [|[n b] bs IH] using rev_ind.
  - intros s _. split; [reflexivity|]. exists 0%nat, []. simpl.
    repeat split; try lia; auto.
  - intros s. unfold s. rewrite submits_snoc, templeRun_app.
    set (s1 := templeRun (Session.submits bs) (gs, Rich.initialTemple)) in *.
    change (templeRun [Submit n b] s1) with (templeStep (Submit n b) s1).
    destruct (Rich.isComplete s1.2) eqn:Ecomp.
    { rewrite (templeStep_complete_stays n b s1 Ecomp), Ecomp. discriminate. }
    destruct (IH Ecomp) as (Hgs & c & pre & Hle & Hidx & Hcnt & Hmap & Hpre).
    destruct s1 as [gs1 ts1]; simpl in *. subst gs1.
    assert (Hpz : Rich.hasPuzzle ts1 = true).
    { unfold Rich.hasPuzzle, Rich.TEMPLE_PUZZLES_length. rewrite Hidx.
      apply andb_true_intro. split; [apply Z.leb_le | apply Z.ltb_lt]; lia. }
    assert (Hform : Rich.templeForm gs ts1 = true).
    { unfold Rich.templeForm. rewrite Hc, Hw, Ecomp, Hpz, Hp. reflexivity. }
    rewrite Hform. unfold Rich.handleSubmit. rewrite Hc, Hpz. cbv zeta. simpl negb.
    cbv iota. destruct b.
    + unfold Rich.finishes, Rich.TEMPLE_PUZZLES_length. rewrite Hidx, Hcnt.
      destruct (decide (c = 2%nat)) as [->|Hne].
      * simpl. destruct (JS.truthy_str (Rich.gameWinner gs)); simpl;
          discriminate.
      * assert (E : (Z.of_nat c + 1 >=? 3) || (Z.of_nat c >=? 3 - 1) = false).
        { rewrite !Z.geb_leb. apply orb_false_intro; apply Z.leb_gt; lia. }
        rewrite E. simpl. intros _. split; [reflexivity|].
        exists (S c), pre.
        repeat split; [lia | lia | lia | | exact Hpre].
        rewrite map_app, Hmap, <- app_assoc. f_equal. simpl map.
        change [true] with (replicate 1 true).
        rewrite <- replicate_add, Nat.add_1_r. reflexivity.
    + simpl. intros _. split; [reflexivity|].
      exists 0%nat, (map snd bs ++ [false])%list. rewrite map_app. simpl.
      repeat split; [lia | rewrite app_nil_r; reflexivity | eauto].
Qed.

(** X15. Within one stay on the temple page of a player who has not won:
    as long as the gauntlet is open the game state is untouched, and a
    submit completes the gauntlet exactly when it is correct and the two
    submits before it were correct too (a wrong answer starts the count
    again); once the gauntlet is complete further submits do nothing. *)
Theorem gauntlet_needs_three_in_a_row (gs : Rich.GameState)
    (p : Rich.Player) (bs : list (Z * bool)) (n : Z) (b : bool) :
  Rich.currentPlayerOf gs = Some p ->
  Rich.isWinner p = false ->
  Rich.isPaused gs = false ->
  let s := templeRun (Session.submits bs) (gs, Rich.initialTemple) in
  (Rich.isComplete s.2 = false ->
   s.1 = gs /\
   (Rich.isComplete (templeStep (Submit n b) s).2 = true <->
    b = true /\ exists pre, map snd bs = (pre ++ [true; true])%list)) /\
  (Rich.isComplete s.2 = true -> templeStep (Submit n b) s = s).
Proof.
  intros Hc Hw Hp s. split; [|apply templeStep_complete_stays].
  intros Ecomp.
  destruct (temple_streak gs p bs Hc Hw Hp Ecomp)
    as (Hgs & c & pre & Hle & Hidx & Hcnt & Hmap & Hpre).
  split; [exact Hgs|].
  assert (Hc2 : c = 2%nat <-> exists pre2, map snd bs = (pre2 ++ [true; true])%list).
  { split.
    - intros ->. exists pre. exact Hmap.
    - intros (pre2 & E). rewrite Hmap in E.
      destruct c as [|[|[|c]]]; [| |reflexivity|lia]; exfalso.
      + simpl in E. rewrite app_nil_r in E.
        destruct Hpre as [->|(pre' & ->)]; [destruct pre2; discriminate|].
        change (pre2 ++ [true; true])%list
          with (pre2 ++ [true] ++ [true])%list in E.
        rewrite app_assoc in E. apply app_inj_tail in E as [_ E].
        discriminate.
      + simpl in E.
        change (pre2 ++ [true; true])%list
          with (pre2 ++ [true] ++ [true])%list in E.
        rewrite app_assoc in E. apply app_inj_tail in E as [E _].
        destruct Hpre as [->|(pre' & ->)]; [destruct pre2; discriminate|].
        apply app_inj_tail in E as [_ E]. discriminate. }
  rewrite <- Hc2. clear Hc2.
  fold s in Hgs, Hidx, Hcnt, Ecomp.
  destruct s as [gs1 ts1]; simpl in *. subst gs1.
  assert (Hpz : Rich.hasPuzzle ts1 = true).
  { unfold Rich.hasPuzzle, Rich.TEMPLE_PUZZLES_length. rewrite Hidx.
    apply andb_true_intro. split; [apply Z.leb_le | apply Z.ltb_lt]; lia. }
  assert (Hform : Rich.templeForm gs ts1 = true).
  { unfold Rich.templeForm. rewrite Hc, Hw, Ecomp, Hpz, Hp. reflexivity. }
  rewrite Hform. unfold Rich.handleSubmit. rewrite Hc, Hpz. cbv zeta.
  simpl negb. cbv iota. destruct b.
  - unfold Rich.finishes, Rich.TEMPLE_PUZZLES_length. rewrite Hidx, Hcnt.
    destruct (decide (c = 2%nat)) as [->|Hne].
    + simpl. destruct (JS.truthy_str (Rich.gameWinner gs)); simpl; tauto.
    + assert (E : (Z.of_nat c + 1 >=? 3) || (Z.of_nat c >=? 3 - 1) = false).
      { rewrite !Z.geb_leb. apply orb_false_intro; apply Z.leb_gt; lia. }
      rewrite E. simpl. split; [discriminate | tauto].
  - simpl. split; [discriminate | intros [? _]; discriminate].
Qed.

Lemma gauntlet_needs_three_in_a_row_witness :
  Rich.isComplete
    (templeStep (Submit 50 true)
       (templeRun
          (Session.submits [(10, true); (20, false); (30, true); (40, true)])
          (rich_ready, Rich.initialTemple))).2 = true.
Proof.
  destruct (gauntlet_needs_three_in_a_row rich_ready
              (Rich.mkPlayer "player_a" "Ann" "red" 50 20 [] ∅ ∅ 5 [] [] 200
                 1 false None [])
              [(10, true); (20, false); (30, true); (40, true)] 50 true
              eq_refl eq_refl eq_refl) as (H & _).
  destruct (H eq_refl) as (_ & Hiff). apply Hiff.
  split; [reflexivity|]. exists [true; false]. reflexivity.
Defined.

(** ** Invariants of whole sessions *)

Lemma includes_str_spec (l : list string) (x : string) :
  JS.includes_str l x = true <-> x ∈ l.
Proof.
  unfold JS.includes_str. rewrite existsb_exists, list_elem_of_In. split.
  - intros (y & Hy & E). apply String.eqb_eq in E. subst y. exact Hy.
  - intros H. exists x. split; [exact H | apply String.eqb_refl].
Qed.

Lemma NoDup_add_zone (cz : list string) (zoneId : string) :
  NoDup cz ->
  NoDup (if JS.includes_str cz zoneId then cz else cz ++ [zoneId])%list.
Proof.
  intros Hn. destruct (JS.includes_str cz zoneId) eqn:E; [exact Hn|].
  apply NoDup_app. split; [exact Hn|]. split; [|apply NoDup_singleton].
  intros x Hx Hx'. apply list_elem_of_singleton in Hx'. subst x.
  apply includes_str_spec in Hx. congruence.
Qed.

Lemma sound_same_players gs gs' :
  Rich.players gs' = Rich.players gs -> Session.sound gs -> Session.sound gs'.
Proof. unfold Session.sound. intros ->. auto. Qed.

Lemma sound_keyed gs : Session.sound gs -> rich_keyed gs.
Proof. intros H k p Hl. destruct (H k p Hl) as (? & ? & _). auto. Qed.

Lemma okPlayer_updated now q updates :
  Session.okPlayer (Rich.spread q updates) ->
  Session.okPlayer (rich_updated now q updates).
Proof. unfold rich_updated. destruct (Rich.spread q updates). auto. Qed.

(** An update that keeps the id and leaves the counters in range keeps the
    session sound. *)
Lemma updatePlayer_sound now pid updates gs :
  Session.sound gs ->
  (forall player, Rich.players gs !! pid = Some player ->
     Session.okPlayer player ->
     Rich.id (Rich.spread player updates) = Rich.id player /\
     Session.okPlayer (Rich.spread player updates)) ->
  Session.sound (Rich.updatePlayer now pid updates gs).
Proof.
  intros Hs Hu k p Hl.
  destruct (decide (k = pid)) as [->|Hne].
  - destruct (Rich.players gs !! pid) as [player|] eqn:E.
    + rewrite (rich_updatePlayer_lookup _ _ _ _ _ E) in Hl.
      injection Hl as <-. destruct (Hs pid player E) as (H1 & H2 & _ & Hok).
      destruct (Hu player eq_refl Hok) as [Hid Hok'].
      split; [|split; [exact H2|split]].
      * transitivity (Rich.id (Rich.spread player updates));
          [|rewrite Hid; exact H1].
        unfold rich_updated. destruct (Rich.spread player updates);
          reflexivity.
      * apply rich_updated_fields.
      * apply okPlayer_updated, Hok'.
    + rewrite rich_updatePlayer_missing in Hl by exact E. exact (Hs _ _ Hl).
  - rewrite rich_updatePlayer_other in Hl by exact Hne. exact (Hs _ _ Hl).
Qed.

Lemma addLog_sound now captured pid entry gs :
  Session.sound gs -> Session.sound (Rich.addLog now captured pid entry gs).
Proof.
  intros Hs. unfold Rich.addLog.
  destruct (Rich.players captured !! pid); [|exact Hs].
  apply updatePlayer_sound; [exact Hs|].
  intros player _ Hok. destruct player; auto.
Qed.

Lemma addCard_sound now captured pid card gs :
  Session.sound gs -> Session.sound (Rich.addCard now captured pid card gs).
Proof.
  intros Hs. unfold Rich.addCard.
  destruct (Rich.players captured !! pid); [|exact Hs].
  apply updatePlayer_sound; [exact Hs|].
  intros player _ Hok. destruct player; auto.
Qed.

Lemma sound_current gs p :
  Session.sound gs -> Rich.currentPlayerOf gs = Some p ->
  Rich.players gs !! Rich.id p = Some p /\ Session.okPlayer p.
Proof.
  intros Hs Hc.
  destruct (rich_current_keyed gs p (sound_keyed gs Hs) Hc) as (Hl & _).
  split; [exact Hl|]. destruct (Hs _ _ Hl) as (_ & _ & _ & Hok). exact Hok.
Qed.

Lemma handleQuestionAnswer_sound now zoneId gs zs p :
  Session.sound gs ->
  Rich.currentPlayerOf gs = Some p ->
  0 < Rich.actionChances p ->
  Session.sound (Rich.handleQuestionAnswer now zoneId gs zs).1.1.
Proof.
  intros Hs Hc Hac. destruct (sound_current gs p Hs Hc) as [Hl Hok].
  unfold Rich.handleQuestionAnswer. rewrite Hc.
  destruct (Rich.selectedAnswer zs) as [selected|]; [|exact Hs].
  destruct (Rich.currentQuestion zs) as [[k q]|]; [|exact Hs].
  assert (Hcz : forall b : bool,
             NoDup (if b && negb (JS.includes_str (Rich.completedZones p) zoneId)
                    then Rich.completedZones p ++ [zoneId]
                    else Rich.completedZones p)%list).
  { intros b. pose proof (NoDup_add_zone (Rich.completedZones p) zoneId) as H.
    destruct Hok as (_ & _ & _ & Hn). specialize (H Hn).
    destruct b; simpl; [|exact Hn].
    destruct (JS.includes_str (Rich.completedZones p) zoneId); simpl; auto. }
  destruct (selected =? Shared.answer q).
  - destruct (String.eqb zoneId "coral");
      [|destruct (String.eqb zoneId "volcano" || String.eqb zoneId "kelp")];
      cbv zeta; simpl fst; apply addLog_sound, updatePlayer_sound;
      try exact Hs; intros player Hpl _; rewrite Hl in Hpl;
      injection Hpl as <-;
      match goal with
      | |- context [?b && negb (JS.includes_str _ _)] => specialize (Hcz b)
      end;
      destruct p as [i n c co sh cz zp aq ac lg ach ts la w wt cc];
      destruct Hok as (H1 & H2 & H3 & H4); simpl in *;
      (split; [reflexivity|]); unfold Session.okPlayer; simpl;
      repeat split; try exact Hcz; try lia;
      destruct (Shared.difficulty q); simpl; lia.
  - cbv zeta; simpl fst; apply addLog_sound, updatePlayer_sound;
      try exact Hs; intros player Hpl _; rewrite Hl in Hpl;
      injection Hpl as <-;
      destruct p as [i n c co sh cz zp aq ac lg ach ts la w wt cc];
      destruct Hok as (H1 & H2 & H3 & H4); simpl in *;
      (split; [reflexivity|]); unfold Session.okPlayer; simpl;
      repeat split; try assumption; lia.
Qed.

Lemma randomCard_in_catalogue u1 u2 c :
  Cards.randomCard u1 u2 = Some c -> c ∈ Cards.CARD_REWARDS.
Proof.
  unfold Cards.randomCard. intros H.
  apply random_pick_elem, cardsOfRarity_elem in H. tauto.
Qed.

Lemma handleCardDraw_sound now u1 u2 zoneId gs p :
  Session.sound gs ->
  Rich.currentPlayerOf gs = Some p ->
  0 < Rich.actionChances p ->
  Session.sound (Rich.handleCardDraw now u1 u2 zoneId gs).
Proof.
  intros Hs Hc Hac. destruct (sound_current gs p Hs Hc) as [Hl Hok].
  unfold Rich.handleCardDraw. rewrite Hc.
  destruct (Cards.randomCard u1 u2) as [c|] eqn:Ec; [|exact Hs].
  pose proof (CARD_REWARDS_amounts c (randomCard_in_catalogue _ _ _ Ec)) as Ha.
  pose proof (NoDup_add_zone (Rich.completedZones p) zoneId) as Hcz.
  unfold Rich.applyCard.
  apply addLog_sound, addCard_sound, updatePlayer_sound; [exact Hs|].
  intros player Hpl _. rewrite Hl in Hpl. injection Hpl as <-.
  unfold Rich.cardUpdates.
  destruct p as [i n cl co sh cz zp aq ac lg ach ts la w wt cc];
    destruct Hok as (H1 & H2 & H3 & H4); simpl in *. specialize (Hcz H4).
  destruct (String.eqb (Cards.card_type c) "coins");
    [|destruct (String.eqb (Cards.card_type c) "shells");
      [|destruct (String.eqb (Cards.card_type c) "bonus");
        [|destruct (String.eqb (Cards.card_type c) "action")]]];
    (split; [reflexivity|]); unfold Session.okPlayer; simpl;
    repeat split; try exact Hcz; lia.
Qed.

Lemma restoreClick_sound now gs r :
  Session.sound gs -> Session.restoreClick now gs = Some r ->
  Session.sound r.1.
Proof.
  intros Hs. unfold Session.restoreClick.
  destruct (Rich.currentPlayerOf gs) as [p|] eqn:Hc; [|discriminate].
  destruct (sound_current gs p Hs Hc) as [Hl Hok].
  destruct (Session.restoreShown now gs p); [|discriminate].
  intros [= <-]. simpl.
  apply addLog_sound, updatePlayer_sound; [exact Hs|].
  intros player Hpl _. rewrite Hl in Hpl. injection Hpl as <-.
  destruct p as [i n cl co sh cz zp aq ac lg ach ts la w wt cc];
    destruct Hok as (H1 & H2 & H3 & H4); simpl in *.
  split; [reflexivity|]. unfold Session.okPlayer; simpl.
  repeat split; try assumption; lia.
Qed.

Lemma winUpdates_ok now c s t player :
  Session.okPlayer player -> 0 <= c -> 0 <= s ->
  Rich.id (Rich.spread player (winUpdates now c s t)) = Rich.id player /\
  Session.okPlayer (Rich.spread player (winUpdates now c s t)).
Proof.
  intros (H1 & H2 & H3 & H4) Hc Hs. destruct player; simpl in *.
  split; [reflexivity|]. unfold Session.okPlayer; simpl. auto.
Qed.

Lemma handleSubmit_sound now correct gs ts :
  Session.sound gs -> Session.sound (Rich.handleSubmit now correct gs ts).1.1.
Proof.
  intros Hs. unfold Rich.handleSubmit.
  destruct (Rich.currentPlayerOf gs) as [p|] eqn:Hc; [|exact Hs].
  destruct (sound_current gs p Hs Hc) as [Hl (H1 & H2 & H3 & H4)].
  destruct (negb (Rich.hasPuzzle ts)); [exact Hs|].
  destruct correct; [|exact Hs].
  destruct (Rich.finishes ts); [|exact Hs]. cbv zeta.
  destruct (negb (JS.truthy_str (Rich.gameWinner gs))); simpl fst.
  - apply updatePlayer_sound.
    + eapply sound_same_players; [apply rich_players_register|exact Hs].
    + intros player _ Hok.
      apply (winUpdates_ok now (Rich.coins p + 50) (Rich.shells p + 25));
        [exact Hok | lia | lia].
  - apply updatePlayer_sound; [exact Hs|].
    intros player _ Hok.
    apply (winUpdates_ok now (Rich.coins p + 30) (Rich.shells p + 15));
      [exact Hok | lia | lia].
Qed.

Lemma templeStep_sound e s :
  Session.sound s.1 -> Session.sound (templeStep e s).1.
Proof.
  destruct s as [gs ts]. destruct e as [pid|now correct]; simpl.
  - apply sound_same_players. destruct gs; reflexivity.
  - destruct (Rich.templeForm gs ts); [apply handleSubmit_sound | auto].
Qed.

Lemma templeRun_sound es s :
  Session.sound s.1 -> Session.sound (templeRun es s).1.
Proof.
  revert s. induction es as [|e es IH]; intros s Hs; [exact Hs|].
  simpl. apply IH, templeStep_sound, Hs.
Qed.

Lemma canPlay_chances now gs p :
  Rich.canPlay now gs p = true -> 0 < Rich.actionChances p.
Proof.
  unfold Rich.canPlay. intros H.
  apply andb_prop in H as [H _]. apply andb_prop in H as [H _].
  apply andb_prop in H as [H _]. apply Z.gtb_lt in H. lia.
Qed.

Lemma visit_sound v gs : Session.sound gs -> Session.sound (visit v gs).1.
Proof.
  intros Hs. unfold visit.
  set (gs0 := Rich.setCurrentPlayer (v_player v) gs).
  assert (Hs0 : Session.sound gs0)
    by (eapply sound_same_players;
        [apply rich_players_setCurrentPlayer|exact Hs]).
  destruct (Rich.currentPlayerOf gs0) as [p|] eqn:Ecur; [|exact Hs0].
  destruct (Rich.canPlay (v_now v) gs0 p) eqn:Eplay; [|exact Hs0].
  set (gs1 := Rich.updateGameState _ gs0).
  assert (Hs1 : Session.sound gs1)
    by (eapply sound_same_players; [apply rich_players_page|exact Hs0]).
  assert (Hback : Session.sound (Rich.backClick gs1).1)
    by (eapply sound_same_players; [apply rich_players_page|exact Hs1]).
  destruct (Rich.presented gs1 _) as [k|]; [|exact Hback].
  destruct (v_end v) as [selected|]; [|exact Hback].
  simpl. eapply sound_same_players; [apply rich_players_page|].
  apply (handleQuestionAnswer_sound _ _ _ _ p); [exact Hs1| |].
  - unfold gs1. rewrite rich_currentPlayerOf_page. exact Ecur.
  - exact (canPlay_chances _ _ _ Eplay).
Qed.

Lemma cardVisit_sound pid now u u1 u2 zoneId gs :
  Session.sound gs ->
  Session.sound (Session.cardVisit pid now u u1 u2 zoneId gs).
Proof.
  intros Hs. unfold Session.cardVisit.
  set (gs0 := Rich.setCurrentPlayer pid gs).
  assert (Hs0 : Session.sound gs0)
    by (eapply sound_same_players;
        [apply rich_players_setCurrentPlayer|exact Hs]).
  destruct (Rich.currentPlayerOf gs0) as [p|] eqn:Ecur; [|exact Hs0].
  destruct (Rich.canPlay now gs0 p) eqn:Eplay; [|exact Hs0].
  set (gs1 := Rich.updateGameState _ gs0).
  assert (Hs1 : Session.sound gs1)
    by (eapply sound_same_players; [apply rich_players_page|exact Hs0]).
  destruct (Session.drawShown gs1 _).
  - eapply sound_same_players; [apply rich_players_page|].
    apply (handleCardDraw_sound _ _ _ _ _ p); [exact Hs1| |].
    + unfold gs1. rewrite rich_currentPlayerOf_page. exact Ecur.
    + exact (canPlay_chances _ _ _ Eplay).
  - eapply sound_same_players; [apply rich_players_page|exact Hs1].
Qed.

Lemma templeClick_players now gs r :
  Rich.templeClick now gs = Some r -> Rich.players r.1 = Rich.players gs.
Proof.
  unfold Rich.templeClick. destruct (Rich.currentPlayerOf gs); [|discriminate].
  destruct (_ && _ && _); [|discriminate].
  intros [= <-]. apply rich_players_page.
Qed.

Lemma templeVisit_sound pid now answers gs :
  Session.sound gs -> Session.sound (Session.templeVisit pid now answers gs).
Proof.
  intros Hs. unfold Session.templeVisit.
  set (gs0 := Rich.setCurrentPlayer pid gs).
  assert (Hs0 : Session.sound gs0)
    by (eapply sound_same_players;
        [apply rich_players_setCurrentPlayer|exact Hs]).
  destruct (Rich.templeClick now gs0) as [[gs1 cues]|] eqn:E; [|exact Hs0].
  destruct (bool_decide (cues = ["success"])); [|exact Hs0].
  apply templeRun_sound. simpl.
  eapply sound_same_players; [exact (templeClick_players _ _ _ E)|exact Hs0].
Qed.

Lemma addPlayer_sound now suffix name color gs :
  Session.sound gs -> Session.sound (Rich.addPlayer now suffix name color gs).
Proof.
  intros Hs k p. unfold Rich.addPlayer.
  rewrite rich_players_assign, lookup_insert.
  case_decide as E; [|apply Hs].
  intros [= <-]. subst k. simpl.
  split; [reflexivity|]. split; [discriminate|]. split; [reflexivity|].
  unfold Session.okPlayer; simpl. repeat split; try lia. apply NoDup_nil_2.
Qed.

Lemma step_sound a gs : Session.sound gs -> Session.sound (Session.step a gs).
Proof.
  intros Hs.
  destruct a as [now sfx nm col startNow | v | pid now u u1 u2 zoneId
                | pid now | pid now answers | now]; simpl.
  - destruct (String.eqb nm "") eqn:En; [exact Hs|].
    unfold Setup.joinTimeout, Setup.handleJoinGame. rewrite En. simpl.
    eapply sound_same_players; [|apply (addPlayer_sound now sfx nm col gs Hs)].
    destruct (Rich.addPlayer now sfx nm col gs); reflexivity.
  - apply visit_sound, Hs.
  - apply cardVisit_sound, Hs.
  - assert (Hs0 : Session.sound (Rich.setCurrentPlayer pid gs))
      by (eapply sound_same_players;
          [apply rich_players_setCurrentPlayer|exact Hs]).
    destruct (Session.restoreClick now _) as [r|] eqn:E; [|exact Hs0].
    exact (restoreClick_sound _ _ _ Hs0 E).
  - apply templeVisit_sound, Hs.
  - eapply sound_same_players; [|exact Hs].
    unfold Rich.handlePause. destruct gs as [? ? ? ? ? ? ? ip ?].
    destruct ip; reflexivity.
Qed.

Lemma run_sound actions gs :
  Session.sound gs -> Session.sound (Session.run actions gs).
Proof.
  revert gs. induction actions as [|a actions IH]; intros gs Hs; [exact Hs|].
  simpl. apply IH, step_sound, Hs.
Qed.

(** X16. In any session of the richer variant that starts from the
    initial state and consists of joins, zone visits with answers, card
    draws, restores, temple visits and pauses, every player is stored under
    its own non-empty id, carries the projected score, never has negative
    coins, shells or action chances, and has no zone listed twice among
    the completed ones. *)
Theorem session_invariants (start : Z) (actions : list Session.Action)
    (k : string) (p : Rich.Player) :
  Rich.players (Session.run actions (Rich.initialState start)) !! k = Some p ->
  Rich.id p = k /\ k <> "" /\
  Rich.totalScore p
  = Rich.coins p * 2 + Rich.shells p * 5
    + Z.of_nat (length (Rich.completedZones p)) * 10 /\
  0 <= Rich.coins p /\ 0 <= Rich.shells p /\ 0 <= Rich.actionChances p /\
  NoDup (Rich.completedZones p) /\
  0 <= Rich.totalScore p.
Proof.
  intros Hl.
  assert (Hs : Session.sound (Rich.initialState start))
    by (intros k' p'; simpl; rewrite lookup_empty; discriminate).
  destruct (run_sound actions _ Hs k p Hl) as (H1 & H2 & H3 & H4 & H5 & H6 & H7).
  repeat split; try assumption.
  rewrite H3. unfold Rich.scoreOf. lia.
Qed.

Lemma session_invariants_witness :
  exists p,
    Rich.players
      (Session.run
         [ Session.AJoin 0 "a" "Ann" "red" 1000;
           Session.AVisit (mkVisit "player_a" 2000 0 "coral" (AnswerWith 0));
           Session.ADraw "player_a" 3000 0 (1 # 4) (1 # 2) "cave";
           Session.APause 4000; Session.APause 5000;
           Session.AVisit (mkVisit "player_a" 6000 0 "coral" (AnswerWith 3)) ]
         (Rich.initialState 0)) !! "player_a" = Some p /\
    0 <= Rich.actionChances p /\ NoDup (Rich.completedZones p) /\
    Rich.totalScore p
    = Rich.coins p * 2 + Rich.shells p * 5
      + Z.of_nat (length (Rich.completedZones p)) * 10.
Proof.
  destruct (Rich.players
              (Session.run
                 [ Session.AJoin 0 "a" "Ann" "red" 1000;
                   Session.AVisit
                     (mkVisit "player_a" 2000 0 "coral" (AnswerWith 0));
                   Session.ADraw "player_a" 3000 0 (1 # 4) (1 # 2) "cave";
                   Session.APause 4000; Session.APause 5000;
                   Session.AVisit
                     (mkVisit "player_a" 6000 0 "coral" (AnswerWith 3)) ]
                 (Rich.initialState 0)) !! "player_a") as [p|] eqn:E.
  - destruct (session_invariants 0 _ "player_a" p E)
      as (_ & _ & Hsc & _ & _ & Hac & Hnd & _).
    exists p. repeat split; assumption.
  - vm_compute in E. discriminate E.
Defined.

(** ** Joining *)

(** X17. Joining with a non-blank name stores a new player with no coins,
    no shells, no completed zone, score 0 and the full 5 action chances,
    makes that player the current one and leaves every other player as it
    was; the scheduled continuation then restarts the clock, so that the
    whole time limit is left for everyone and a registered winner is kept.
    A blank name changes nothing. *)
Theorem join_adds_player_and_restarts_clock (now startNow : Z)
    (sfx trimmedName selectedColor : string) (gs : Rich.GameState) :
  (Setup.handleJoinGame now sfx "" selectedColor gs = (gs, ["error"])) /\
  (trimmedName <> "" ->
   let playerId := String.append "player_" sfx in
   let joined :=
     (Setup.handleJoinGame now sfx trimmedName selectedColor gs).1 in
   let started := Setup.joinTimeout startNow joined in
   Rich.currentPlayerOf joined
   = Some (Rich.mkPlayer playerId trimmedName selectedColor 0 0 [] ∅ ∅ 5
             [] [] 0 now false None []) /\
   (forall k, k <> playerId ->
      Rich.players started !! k = Rich.players gs !! k) /\
   Rich.players started = Rich.players joined /\
   Rich.gameWinner started = Rich.gameWinner gs /\
   Rich.gameStartTime started = startNow /\
   Rich.mapTimeLeft startNow started
   = JS.Math_max0 (Shared.timeLimit (Rich.gameSettings gs) * 60 * 1000)).
Proof.
  split; [reflexivity|]. intros Hne playerId joined started.
  assert (En : String.eqb trimmedName "" = false)
    by (apply String.eqb_neq, Hne).
  unfold started, joined, Setup.joinTimeout, Setup.handleJoinGame.
  rewrite En. simpl negb. cbv iota.
  destruct gs as [pg ps cp gw st se wt ip pst]; simpl.
  unfold Rich.currentPlayerOf, Rich.mapTimeLeft; simpl.
  rewrite lookup_insert_eq. repeat split.
  - intros k Hk. apply lookup_insert_ne. intros E. apply Hk. symmetry.
    exact E.
  - f_equal. lia.
Qed.

Lemma join_adds_player_and_restarts_clock_witness :
  Rich.mapTimeLeft 700000
    (Setup.joinTimeout 700000
       (Setup.handleJoinGame 699000 "b" "Bob" "blue" rich_demo).1)
  = 1800000.
Proof.
  destruct (join_adds_player_and_restarts_clock 699000 700000 "b" "Bob"
              "blue" rich_demo) as (_ & H).
  destruct (H ltac:(discriminate)) as (_ & _ & _ & _ & _ & Ht).
  rewrite Ht. reflexivity.
Defined.

Lemma teamSize_addPlayer now sfx nm col gs :
  Rich.players gs !! String.append "player_" sfx = None ->
  Setup.teamSize (Rich.addPlayer now sfx nm col gs) col
  = S (Setup.teamSize gs col).
Proof.
  intros Hfresh. unfold Setup.teamSize, Rich.addPlayer.
  rewrite rich_players_assign.
  rewrite map_filter_insert_True by reflexivity.
  apply map_size_insert_None.
  apply map_lookup_filter_None. left. exact Hfresh.
Qed.

(** X18. The limit of three players per team is not checked when a
    player joins: whenever the join goes through (the button needs a name
    and some team with room, the Enter key only a name), the team of the
    selected colour grows by one, whatever its size was. *)
Theorem join_ignores_team_size (now : Z)
    (sfx trimmedName selectedColor : string) (gs : Rich.GameState) :
  trimmedName <> "" ->
  Rich.players gs !! String.append "player_" sfx = None ->
  let r := Setup.handleJoinGame now sfx trimmedName selectedColor gs in
  Setup.joinEnter now sfx trimmedName selectedColor false gs = Some r /\
  (Setup.availableColors gs <> [] ->
   Setup.joinClick now sfx trimmedName selectedColor false gs = Some r) /\
  Setup.teamSize r.1 selectedColor = S (Setup.teamSize gs selectedColor).
Proof.
  intros Hne Hfresh r.
  assert (En : String.eqb trimmedName "" = false)
    by (apply String.eqb_neq, Hne).
  split; [|split].
  - unfold Setup.joinEnter. rewrite En. reflexivity.
  - intros Hav. unfold Setup.joinClick. rewrite En.
    rewrite bool_decide_eq_false_2 by exact Hav. reflexivity.
  - unfold r, Setup.handleJoinGame. rewrite En. simpl.
    rewrite <- (teamSize_addPlayer now sfx trimmedName selectedColor gs Hfresh).
    unfold Setup.teamSize. rewrite rich_players_setCurrentPlayer. reflexivity.
Qed.

Lemma join_ignores_team_size_witness :
  let full :=
    Rich.addPlayer 2 "c" "Cy" "red" (Rich.addPlayer 1 "b" "Bob" "red" rich_demo)
  in
  Setup.availableColors full = ["yellow"; "blue"; "teal"; "orange"] /\
  Setup.teamSize (Setup.handleJoinGame 3 "d" "Dee" "red" full).1 "red"
  = 4%nat.
Proof.
  intros full. split; [vm_compute; reflexivity|].
  destruct (join_ignores_team_size 3 "d" "Dee" "red" full
              ltac:(discriminate) eq_refl) as (_ & _ & H).
  rewrite H. vm_compute. reflexivity.
Defined.

(** ** The single update path *)





(** ** What the entry gates let through *)

(** X20. The entry buttons of the map page are enabled exactly when their
    gate holds for the values of the render: a zone button for a player
    with an action chance left who has not won, with time left on the
    clock value read while the page rendered (and, in the richer variant,
    no pause); the temple button for a player with the required coins and
    shells (40 and 15, respectively 10 and 3), again with time left at the
    render.  The clock of the click itself plays no part.  A click on an
    enabled button opens the page and changes no player and neither winner
    nor start time. *)
Theorem entry_gates :
  (forall renderNow gs zoneId p,
     Rich.currentPlayerOf gs = Some p ->
     (0 < Rich.actionChances p /\ Rich.isWinner p = false /\
      Rich.isPaused gs = false /\ 0 < Rich.mapTimeLeft renderNow gs ->
      Rich.zoneClick renderNow gs zoneId
      = Some (Rich.updateGameState
                [Rich.G_currentPage (String.append "zone-" zoneId)] gs,
              ["click"])) /\
     (forall gs' cues,
        Rich.zoneClick renderNow gs zoneId = Some (gs', cues) ->
        (0 < Rich.actionChances p /\ Rich.isWinner p = false /\
         Rich.isPaused gs = false /\ 0 < Rich.mapTimeLeft renderNow gs) /\
        Rich.players gs' = Rich.players gs /\
        Rich.gameWinner gs' = Rich.gameWinner gs /\
        Rich.gameStartTime gs' = Rich.gameStartTime gs)) /\
  (forall renderNow gs p,
     Rich.currentPlayerOf gs = Some p ->
     (40 <= Rich.coins p /\ 15 <= Rich.shells p /\
      Rich.isPaused gs = false /\ 0 < Rich.mapTimeLeft renderNow gs ->
      Rich.templeClick renderNow gs
      = Some (Rich.updateGameState [Rich.G_currentPage "temple"] gs,
              ["success"])) /\
     (forall gs' cues,
        Rich.templeClick renderNow gs = Some (gs', cues) ->
        (40 <= Rich.coins p /\ 15 <= Rich.shells p /\
         Rich.isPaused gs = false /\ 0 < Rich.mapTimeLeft renderNow gs) /\
        Rich.players gs' = Rich.players gs /\
        Rich.gameWinner gs' = Rich.gameWinner gs /\
        Rich.gameStartTime gs' = Rich.gameStartTime gs)) /\
  (forall renderNow gs zoneId p,
     Simple.currentPlayerOf gs = Some p ->
     (0 < Simple.actionChances p /\ Simple.isWinner p = false /\
      0 < Simple.timeLeft renderNow gs ->
      Simple.zoneClick renderNow gs zoneId
      = Some (Simple.updateGameState
                [Simple.G_currentPage (String.append "zone-" zoneId)] gs,
              ["click"])) /\
     (forall gs' cues,
        Simple.zoneClick renderNow gs zoneId = Some (gs', cues) ->
        (0 < Simple.actionChances p /\ Simple.isWinner p = false /\
         0 < Simple.timeLeft renderNow gs) /\
        Simple.players gs' = Simple.players gs /\
        Simple.gameWinner gs' = Simple.gameWinner gs /\
        Simple.gameStartTime gs' = Simple.gameStartTime gs)) /\
  (forall renderNow gs p,
     Simple.currentPlayerOf gs = Some p ->
     (10 <= Simple.coins p /\ 3 <= Simple.shells p /\
      0 < Simple.timeLeft renderNow gs ->
      Simple.templeClick renderNow gs
      = Some (Simple.updateGameState [Simple.G_currentPage "temple"] gs,
              ["success"])) /\
     (forall gs' cues,
        Simple.templeClick renderNow gs = Some (gs', cues) ->
        (10 <= Simple.coins p /\ 3 <= Simple.shells p /\
         0 < Simple.timeLeft renderNow gs) /\
        Simple.players gs' = Simple.players gs /\
        Simple.gameWinner gs' = Simple.gameWinner gs /\
        Simple.gameStartTime gs' = Simple.gameStartTime gs)).
Proof.
  assert (Hpos : forall x, (JS.Math_max0 x =? 0) = false -> 0 < JS.Math_max0 x)
    by (intros x H; apply Z.eqb_neq in H; unfold JS.Math_max0 in *; lia).
  assert (Hneg : forall x, 0 < JS.Math_max0 x -> (JS.Math_max0 x =? 0) = false)
    by (intros x H; apply Z.eqb_neq; lia).
  split; [|split; [|split]].
  - intros renderNow gs zoneId p Hc. unfold Rich.zoneClick. rewrite Hc.
    unfold Rich.canPlay, Rich.gameEnded. split.
    + intros (H1 & H2 & H3 & H4).
      apply Z.gtb_lt in H1. apply Hneg in H4.
      unfold Rich.mapTimeLeft in H4 |- *. rewrite H1, H2, H3, H4. reflexivity.
    + intros gs' cues.
      destruct (_ && _ && _ && _) eqn:E; [|discriminate]. intros [= <- <-].
      apply andb_prop in E as [E E4]. apply andb_prop in E as [E E3].
      apply andb_prop in E as [E1 E2].
      apply Z.gtb_lt in E1. apply negb_true_iff in E2, E3, E4.
      apply Hpos in E2.
      split; [repeat split; assumption|].
      split; [apply rich_players_page|]. destruct gs; split; reflexivity.
  - intros renderNow gs p Hc. unfold Rich.templeClick. rewrite Hc.
    unfold Rich.canEnterTemple, Rich.gameEnded. split.
    + intros (H1 & H2 & H3 & H4).
      apply Z.geb_le in H1, H2. apply Hneg in H4.
      unfold Rich.mapTimeLeft in H4 |- *. rewrite H1, H2, H3, H4. reflexivity.
    + intros gs' cues.
      destruct (_ && _ && _) eqn:E; [|discriminate]. intros [= <- <-].
      apply andb_prop in E as [E E4]. apply andb_prop in E as [E E3].
      apply andb_prop in E as [E1 E2].
      apply Z.geb_le in E1, E2. apply negb_true_iff in E3, E4.
      apply Hpos in E3.
      split; [repeat split; assumption|].
      split; [apply rich_players_page|]. destruct gs; split; reflexivity.
  - intros renderNow gs zoneId p Hc. unfold Simple.zoneClick. rewrite Hc.
    unfold Simple.canPlay, Simple.gameEnded. split.
    + intros (H1 & H2 & H4).
      apply Z.gtb_lt in H1. apply Hneg in H4.
      unfold Simple.timeLeft in H4 |- *. rewrite H1, H2, H4. reflexivity.
    + intros gs' cues.
      destruct (_ && _ && _) eqn:E; [|discriminate]. intros [= <- <-].
      apply andb_prop in E as [E E3]. apply andb_prop in E as [E1 E2].
      apply Z.gtb_lt in E1. apply negb_true_iff in E2, E3.
      apply Hpos in E2.
      split; [repeat split; assumption|]. destruct gs; repeat split.
  - intros renderNow gs p Hc. unfold Simple.templeClick. rewrite Hc.
    unfold Simple.canEnterTemple, Simple.gameEnded. split.
    + intros (H1 & H2 & H4).
      apply Z.geb_le in H1, H2. apply Hneg in H4.
      unfold Simple.timeLeft in H4 |- *. rewrite H1, H2, H4. reflexivity.
    + intros gs' cues.
      destruct (_ && _) eqn:E; [|discriminate]. intros [= <- <-].
      apply andb_prop in E as [E E3]. apply andb_prop in E as [E1 E2].
      apply Z.geb_le in E1, E2. apply negb_true_iff in E3.
      apply Hpos in E3.
      split; [repeat split; assumption|]. destruct gs; repeat split.
Qed.

Lemma entry_gates_witness :
  Rich.templeClick 60000 rich_ready
  = Some (Rich.updateGameState [Rich.G_currentPage "temple"] rich_ready,
          ["success"]) /\
  Simple.zoneClick 60000 simple_ready "coral"
  = Some (Simple.updateGameState [Simple.G_currentPage "zone-coral"]
            simple_ready, ["click"]).
Proof.
  destruct entry_gates as (_ & Ht & Hz & _).
  split.
  - apply (Ht 60000 rich_ready
             (Rich.mkPlayer "player_a" "Ann" "red" 50 20 [] ∅ ∅ 5 [] [] 200 1
                false None []) eq_refl).
    vm_compute. repeat split; discriminate.
  - apply (Hz 60000 simple_ready "coral"
             (Simple.mkPlayer "player_a" "Ann" "red" 50 20 [] 5 [] [] 200 1
                false None []) eq_refl).
    vm_compute. repeat split; discriminate.
Defined.

(** ** The temple of the simpler variant *)

Lemma simple_players_register gs w wt :
  Simple.players
    (Simple.updateGameState [Simple.G_gameWinner w; Simple.G_winnerTime wt] gs)
  = Simple.players gs.
Proof. destruct gs; reflexivity. Qed.

(** X21. In the simpler variant one correct answer wins the temple: the
    player is marked as a winner at that time and is paid 20 coins and 10
    shells when no winner is registered yet (and is then registered, with
    the time elapsed since the start), 10 coins and 5 shells otherwise (the
    registered winner is kept); no other player is touched.  A wrong answer
    leaves the game state as it is.  Either way the result replaces the
    form, so a stay on the page allows one submit. *)
Theorem simple_temple_one_answer (now : Z) (gs : Simple.GameState)
    (ts : SimpleTemple.TempleLocal) (p : Simple.Player) :
  Simple.currentPlayerOf gs = Some p ->
  Simple.players gs !! Simple.id p = Some p ->
  (SimpleTemple.handleSubmit now false gs ts).1.1 = gs /\
  (forall correct,
     let r := SimpleTemple.handleSubmit now correct gs ts in
     SimpleTemple.templeForm r.1.1 r.1.2 = false) /\
  let gs' := (SimpleTemple.handleSubmit now true gs ts).1.1 in
  (forall k, k <> Simple.id p ->
     Simple.players gs' !! k = Simple.players gs !! k) /\
  Simple.gameStartTime gs' = Simple.gameStartTime gs /\
  exists p',
    Simple.players gs' !! Simple.id p = Some p' /\
    Simple.isWinner p' = true /\ Simple.winTime p' = Some now /\
    Simple.actionChances p' = Simple.actionChances p /\
    Simple.completedZones p' = Simple.completedZones p /\
    (JS.truthy_str (Simple.gameWinner gs) = false ->
     Simple.gameWinner gs' = Some (Simple.id p) /\
     Simple.winnerTime gs' = Some (now - Simple.gameStartTime gs) /\
     Simple.coins p' = Simple.coins p + 20 /\
     Simple.shells p' = Simple.shells p + 10 /\
     (Simple.totalScore p = Simple.scoreOf p ->
      Simple.totalScore p' = Simple.totalScore p + 90)) /\
    (JS.truthy_str (Simple.gameWinner gs) = true ->
     Simple.gameWinner gs' = Simple.gameWinner gs /\
     Simple.winnerTime gs' = Simple.winnerTime gs /\
     Simple.coins p' = Simple.coins p + 10 /\
     Simple.shells p' = Simple.shells p + 5 /\
     (Simple.totalScore p = Simple.scoreOf p ->
      Simple.totalScore p' = Simple.totalScore p + 45)).
Proof.
  intros Hc Hp.
  split; [unfold SimpleTemple.handleSubmit; rewrite Hc; reflexivity|].
  split.
  { intros correct r. subst r. unfold SimpleTemple.templeForm.
    destruct (Simple.currentPlayerOf (SimpleTemple.handleSubmit _ _ _ _).1.1)
      as [q|]; [|reflexivity].
    assert (E : SimpleTemple.showResult
                  (SimpleTemple.handleSubmit now correct gs ts).1.2 = true).
    { unfold SimpleTemple.handleSubmit. rewrite Hc.
      destruct correct; [|reflexivity].
      destruct (negb _); reflexivity. }
    rewrite E. apply andb_false_r. }
  unfold SimpleTemple.handleSubmit. rewrite Hc. cbv zeta.
  destruct (JS.truthy_str (Simple.gameWinner gs)) eqn:Ew; cbn [negb fst snd].
  - split; [intros k Hk; apply simple_updatePlayer_other; exact Hk|].
    split; [rewrite (simple_updatePlayer_eq _ _ _ _ _ Hp);
            destruct gs; reflexivity|].
    eexists. split; [apply simple_updatePlayer_lookup, Hp|].
    rewrite (simple_updatePlayer_eq _ _ _ _ _ Hp).
    destruct p as [i n c co sh cz ac lg ach tsc la w wt cc];
      destruct gs as [pg ps cp gw st se wti];
      unfold simple_updated, Simple.scoreOf; simpl.
    repeat split; try discriminate; intros; simpl in *; lia.
  - assert (Hp1 :
      Simple.players
        (Simple.updateGameState
           [Simple.G_gameWinner (Some (Simple.id p));
            Simple.G_winnerTime (Some (now - Simple.gameStartTime gs))] gs)
        !! Simple.id p = Some p)
      by (rewrite simple_players_register; exact Hp).
    split; [intros k Hk; rewrite simple_updatePlayer_other by exact Hk;
            rewrite simple_players_register; reflexivity|].
    split; [rewrite (simple_updatePlayer_eq _ _ _ _ _ Hp1);
            destruct gs; reflexivity|].
    eexists. split; [apply simple_updatePlayer_lookup, Hp1|].
    rewrite (simple_updatePlayer_eq _ _ _ _ _ Hp1).
    destruct p as [i n c co sh cz ac lg ach tsc la w wt cc];
      destruct gs as [pg ps cp gw st se wti];
      unfold simple_updated, Simple.scoreOf; simpl.
    repeat split; try discriminate; intros; simpl in *; lia.
Qed.

Lemma simple_temple_one_answer_witness :
  exists p',
    Simple.players
      (SimpleTemple.handleSubmit 300 true simple_ready
         SimpleTemple.initialTemple).1.1 !! "player_a" = Some p' /\
    Simple.coins p' = 70 /\ Simple.shells p' = 30 /\
    Simple.totalScore p' = 290.
Proof.
  destruct (simple_temple_one_answer 300 simple_ready
              SimpleTemple.initialTemple
              (Simple.mkPlayer "player_a" "Ann" "red" 50 20 [] 5 [] [] 200 1
                 false None [])
              eq_refl eq_refl)
    as (_ & _ & _ & _ & p' & Hl & _ & _ & _ & _ & Hfirst & _).
  destruct (Hfirst eq_refl) as (_ & _ & Hco & Hsh & Hsc).
  exists p'. split; [exact Hl|]. split; [exact Hco|]. split; [exact Hsh|].
  apply Hsc. reflexivity.
Defined.
